(** * python-ndn: the Name Component codec and the application engine

    A shallow embedding of [ndn/encoding/name/Component.py] and of
    [ndn/app.py].  Python integers are [Z], byte strings are
    [list Byte.byte], text strings are [list ascii] (the code points
    below 256), raised exceptions are the [Raise] results of an error
    monad. *)

From Stdlib Require Import ZArith Ascii String List Lia Bool.
From Stdlib.Strings Require Byte.
From stdpp Require Import base option list gmap.

Local Open Scope Z_scope.

(** ** Exceptions and results *)

Inductive exn : Type :=
| ValueError
| IndexError
| StructError
| KeyError
| TypeError
| DecodeError
| NetworkError
| InterestTimeout
| InterestCanceled
| InterestNack (reason : Z)
| ValidationFailure
| InvalidStateError
| OutOfFuel.

Inductive result (A : Type) : Type :=
| Ok (a : A)
| Raise (e : exn).

Arguments Ok {A} a.
Arguments Raise {A} e.

Definition rbind {A B : Type} (k : A -> result B) (m : result A) : result B :=
  match m with
  | Ok a => k a
  | Raise e => Raise e
  end.

#[global] Instance result_bind : MBind result := @rbind.
#[global] Instance result_ret : MRet result := @Ok.

Abbreviation byte := Byte.byte.
Abbreviation BinaryStr := (list Byte.byte).
Abbreviation str := (list ascii).

Definition lit (s : string) : str := list_ascii_of_string s.

Definition Z_of_byte (b : byte) : Z := Z.of_N (Byte.to_N b).

Definition byte_of_Z (z : Z) : byte :=
  match Byte.of_N (Z.to_N (z mod 256)) with
  | Some b => b
  | None => Byte.x00
  end.

Definition ord (c : ascii) : Z := Z.of_N (N_of_ascii c).

Definition chr (z : Z) : ascii := ascii_of_N (Z.to_N z).

Definition str_eqb (a b : str) : bool := bool_decide (a = b).

(** ** Python built-ins used by the codec *)

Module Py.

(** [str.isspace] on the code points below 256, as [int()] strips them. *)
Definition is_space (c : ascii) : bool :=
  let n := ord c in
  ((9 <=? n) && (n <=? 13)) || ((28 <=? n) && (n <=? 32))
  || (n =? 133) || (n =? 160).

(** ASCII white space, as [bytes.fromhex] skips it. *)
Definition is_ascii_space (c : ascii) : bool :=
  let n := ord c in ((9 <=? n) && (n <=? 13)) || (n =? 32).

Fixpoint lstrip (s : str) : str :=
  match s with
  | c :: r => if is_space c then lstrip r else s
  | [] => []
  end.

Definition strip (s : str) : str := rev (lstrip (rev (lstrip s))).

(** The value of a digit character in the given base. *)
Definition digit_val (base : Z) (c : ascii) : option Z :=
  let n := ord c in
  let v := if (48 <=? n) && (n <=? 57) then Some (n - 48)
           else if (97 <=? n) && (n <=? 122) then Some (n - 87)
           else if (65 <=? n) && (n <=? 90) then Some (n - 55)
           else None in
  match v with
  | Some d => if d <? base then Some d else None
  | None => None
  end.

(** Digits with single underscores between them. [prev] tells whether
    the previous character was a digit. *)
Fixpoint digits (base : Z) (acc : Z) (prev : bool) (s : str) : result Z :=
  match s with
  | [] => if prev then Ok acc else Raise ValueError
  | c :: r =>
      if Ascii.eqb c "_"%char
      then (if prev then digits base acc false r else Raise ValueError)
      else match digit_val base c with
           | Some d => digits base (acc * base + d) true r
           | None => Raise ValueError
           end
  end.

Definition has_hex_prefix (s : str) : bool :=
  match s with
  | z :: x :: _ =>
      Ascii.eqb z "0"%char && (Ascii.eqb x "x"%char || Ascii.eqb x "X"%char)
  | _ => false
  end.

(** [int(s, base)] for base 10 and base 16: surrounding white space, an
    optional sign, for base 16 an optional [0x] prefix (after which one
    underscore may stand), then the digits. *)
Definition int (s : str) (base : Z) : result Z :=
  let s1 := strip s in
  let '(neg, s2) :=
    match s1 with
    | c :: r => if Ascii.eqb c "-"%char then (true, r)
                else if Ascii.eqb c "+"%char then (false, r)
                else (false, s1)
    | [] => (false, s1)
    end in
  let s3 :=
    if (base =? 16) && has_hex_prefix s2
    then match drop 2 s2 with
         | c :: r => if Ascii.eqb c "_"%char then r else c :: r
         | [] => []
         end
    else s2 in
  v ← digits base 0 false s3;
  Ok (if neg then - v else v).

Definition hexdigit (upper : bool) (d : Z) : ascii :=
  if d <? 10 then chr (48 + d)
  else if upper then chr (55 + d) else chr (87 + d).

(** [f"{val:02X}"] and the two characters of [bytes.hex()] for one byte. *)
Definition hex2 (upper : bool) (b : byte) : str :=
  let n := Z_of_byte b in [hexdigit upper (n / 16); hexdigit upper (n mod 16)].

(** [bytes.hex()] *)
Definition hex (bs : BinaryStr) : str := flat_map (hex2 false) bs.

(** [bytearray.fromhex(s)]: pairs of hexadecimal digits, white space
    between the pairs is skipped. *)
Fixpoint fromhex (s : str) : result BinaryStr :=
  match s with
  | [] => Ok []
  | c :: r =>
      if is_ascii_space c then fromhex r
      else match digit_val 16 c, r with
           | Some hi, c2 :: r2 =>
               match digit_val 16 c2 with
               | Some lo => bs ← fromhex r2; Ok (byte_of_Z (hi * 16 + lo) :: bs)
               | None => Raise ValueError
               end
           | _, _ => Raise ValueError
           end
  end.

(** The decimal digits of a non-negative integer, least significant
    first; [fuel] bounds the number of digits. *)
Fixpoint dec_digits_rev (fuel : nat) (n : Z) : str :=
  match fuel with
  | O => []
  | S f =>
      if n <? 10 then [chr (48 + n)]
      else chr (48 + n mod 10) :: dec_digits_rev f (n / 10)
  end.

(** [f"{n}"] for an integer. *)
Definition format_int (n : Z) : str :=
  if n <? 0
  then "-"%char :: rev (dec_digits_rev (S (Z.to_nat (Z.log2 (- n)))) (- n))
  else rev (dec_digits_rev (S (Z.to_nat (Z.log2 n))) n).

(** The first byte of [ch.encode('utf-8')] for a code point below 256. *)
Definition utf8_first (c : ascii) : byte :=
  let n := ord c in
  if n <? 128 then byte_of_ascii c else byte_of_Z (192 + n / 64).

(** [ch.encode()], the UTF-8 bytes of a code point below 256. *)
Definition utf8 (c : ascii) : BinaryStr :=
  let n := ord c in
  if n <? 128 then [byte_of_ascii c]
  else [byte_of_Z (192 + n / 64); byte_of_Z (128 + n mod 64)].

(** [int.from_bytes(bs, 'big')] *)
Definition int_from_bytes (bs : BinaryStr) : Z :=
  fold_left (fun acc b => acc * 256 + Z_of_byte b) bs 0.

End Py.

(** ** TLV variable-length numbers *)

Module TlvVar.

(** Modelled from the spec: [get_tl_num_size] of ndn/encoding/tlv_var.py,
    which is not among the sources. "Encodes an unsigned integer into 1,
    3, 5, or 9 bytes: values < 253 encode as 1 byte; otherwise a marker
    byte (253/254/255) followed by a 2/4/8-byte big-endian value, using
    the smallest width that represents the value exactly." *)
Definition get_tl_num_size (val : Z) : nat :=
  if val <? 253 then 1%nat
  else if val <? 2 ^ 16 then 3%nat
  else if val <? 2 ^ 32 then 5%nat
  else 9%nat.

(** [k] bytes, big-endian. *)
Fixpoint pack_be (k : nat) (v : Z) : BinaryStr :=
  match k with
  | O => []
  | S k' => byte_of_Z (v / 256 ^ Z.of_nat k') :: pack_be k' v
  end.

Fixpoint unpack_be (bs : BinaryStr) (acc : Z) : Z :=
  match bs with
  | [] => acc
  | b :: r => unpack_be r (acc * 256 + Z_of_byte b)
  end.

(** Modelled from the spec: the bytes [write_tl_num] of tlv_var.py
    produces (spec 4.1, as above); a value that is no unsigned 64-bit
    integer is not representable and is refused. *)
Definition tl_num_bytes (val : Z) : result BinaryStr :=
  if (val <? 0) || (2 ^ 64 <=? val) then Raise StructError
  else if val <? 253 then Ok [byte_of_Z val]
  else if val <? 2 ^ 16 then Ok (byte_of_Z 253 :: pack_be 2 val)
  else if val <? 2 ^ 32 then Ok (byte_of_Z 254 :: pack_be 4 val)
  else Ok (byte_of_Z 255 :: pack_be 8 val).

(** [buf[offset:offset+len(bs)] = bs] inside a buffer of fixed size. *)
Definition blit (buf : BinaryStr) (offset : nat) (bs : BinaryStr) : BinaryStr :=
  take offset buf ++ bs ++ drop (offset + length bs) buf.

(** Modelled from the spec: [write_tl_num(val, buf, offset)] of
    tlv_var.py, writing the encoding of 4.1 into the buffer in place. *)
Definition write_tl_num (val : Z) (buf : BinaryStr) (offset : nat)
  : result BinaryStr :=
  bs ← tl_num_bytes val;
  if (offset + length bs <=? length buf)%nat
  then Ok (blit buf offset bs)
  else Raise StructError.

(** Modelled from the spec: [parse_tl_num(buf, offset)] of tlv_var.py,
    returning the number and the width read. "Decoding reads the marker,
    determines width, and fails [...] if fewer bytes remain than the
    width requires"; "the default decoder is lenient and accepts any
    width that fits". *)
Definition parse_tl_num (buf : BinaryStr) (offset : nat) : result (Z * nat) :=
  match buf !! offset with
  | None => Raise IndexError
  | Some b =>
      let m := Z_of_byte b in
      if m <? 253 then Ok (m, 1%nat)
      else
        let w := if m =? 253 then 2%nat else if m =? 254 then 4%nat else 8%nat in
        let body := take w (drop (S offset) buf) in
        if (length body =? w)%nat then Ok (unpack_be body 0, S w)
        else Raise StructError
  end.

End TlvVar.

(** ** Component.py *)

Module Component.

Import TlvVar.

Definition is_alnum (c : ascii) : bool :=
  let n := ord c in
  ((48 <=? n) && (n <=? 57)) || ((65 <=? n) && (n <=? 90))
  || ((97 <=? n) && (n <=? 122)).

(** [CHARSET]: ASCII letters, digits, and [- . _ ~ = %]. *)
Definition CHARSET (c : ascii) : bool :=
  is_alnum c
  || Ascii.eqb c "-"%char || Ascii.eqb c "."%char || Ascii.eqb c "_"%char
  || Ascii.eqb c "~"%char || Ascii.eqb c "="%char || Ascii.eqb c "%"%char.

Definition TYPE_INVALID : Z := 0.
Definition TYPE_GENERIC : Z := 8.
Definition TYPE_IMPLICIT_SHA256 : Z := 1.
Definition TYPE_PARAMETERS_SHA256 : Z := 2.

Definition from_bytes (val : BinaryStr) (typ : Z) : result BinaryStr :=
  let size_typ := get_tl_num_size typ in
  let size_len := get_tl_num_size (Z.of_nat (length val)) in
  let ret := replicate (size_typ + size_len + length val) Byte.x00 in
  ret ← write_tl_num typ ret 0;
  ret ← write_tl_num (Z.of_nat (length val)) ret size_typ;
  Ok (take (size_typ + size_len) ret ++ val).

Definition from_hex (val : str) (typ : Z) : result BinaryStr :=
  bs ← Py.fromhex val; from_bytes bs typ.

(** The first loop of [from_str]: the character-set check, the count of
    percent signs and the offset of the single equals sign. *)
Fixpoint scan (l : str) (i : nat) (percent_cnt : nat) (type_offset : option nat)
  : result (nat * option nat) :=
  match l with
  | [] => Ok (percent_cnt, type_offset)
  | ch :: r =>
      if negb (CHARSET ch) then Raise ValueError
      else
        let percent_cnt :=
          if Ascii.eqb ch "%"%char then S percent_cnt else percent_cnt in
        if Ascii.eqb ch "="%char
        then match type_offset with
             | Some _ => Raise ValueError
             | None => scan r (S i) percent_cnt (Some i)
             end
        else scan r (S i) percent_cnt type_offset
  end.

(** [view[pos] = v]: the index is checked first, then the value. *)
Definition setitem (view : BinaryStr) (pos : nat) (v : Z) : result BinaryStr :=
  if (pos <? length view)%nat
  then if (0 <=? v) && (v <=? 255) then Ok (<[pos := byte_of_Z v]> view)
       else Raise ValueError
  else Raise IndexError.

(** The nested [encode()]: writes one byte at [pos] and returns the
    number of characters consumed. *)
Definition encode (val : str) (i pos : nat) (view : BinaryStr)
  : result (BinaryStr * nat) :=
  match val !! i with
  | None => Raise IndexError
  | Some ch =>
      if negb (Ascii.eqb ch "%"%char)
      then view ← setitem view pos (Z_of_byte (Py.utf8_first ch));
           Ok (view, 1%nat)
      else v ← Py.int (take 2 (drop (S i) val)) 16;
           view ← setitem view pos v;
           Ok (view, 3%nat)
  end.

(** [while i < len(val)]: an [IndexError] of the body is turned into the
    [ValueError] of [raise_except]. *)
Fixpoint encode_loop (fuel : nat) (val : str) (i pos : nat) (view : BinaryStr)
  : result BinaryStr :=
  if (i <? length val)%nat then
    match fuel with
    | O => Raise OutOfFuel
    | S fuel' =>
        match encode val i pos view with
        | Ok (view, n) => encode_loop fuel' val (i + n) (S pos) view
        | Raise IndexError => Raise ValueError
        | Raise e => Raise e
        end
    end
  else Ok view.

(** The part of [from_str] after the type is known: "Alloc buf" and
    "Encode val". *)
Definition alloc_and_encode (val : str) (percent_cnt : nat) (typ : Z)
           (type_offset : Z) : result BinaryStr :=
  let length_ := Z.of_nat (length val) - type_offset - 1
                 - 2 * Z.of_nat percent_cnt in
  if length_ <? 0 then Raise ValueError
  else
    let size_typ := get_tl_num_size typ in
    let size_len := get_tl_num_size length_ in
    let ret := replicate (size_typ + size_len + Z.to_nat length_) Byte.x00 in
    ret ← write_tl_num typ ret 0;
    ret ← write_tl_num length_ ret size_typ;
    encode_loop (length val) val (Z.to_nat (type_offset + 1))
                (size_typ + size_len) ret.

(** The [try] block around the type re-raises a [ValueError] through
    [raise_except], again as a [ValueError]. *)
Definition from_str (val : str) : result BinaryStr :=
  match val with
  | [] => Ok [Byte.x08; Byte.x00]
  | _ =>
      '(percent_cnt, type_offset) ← scan val 0 0 None;
      match type_offset with
      | Some off =>
          let typ_str := take off val in
          if str_eqb typ_str (lit "sha256digest")
          then bs ← Py.fromhex (drop (S off) val);
               from_bytes bs TYPE_IMPLICIT_SHA256
          else if str_eqb typ_str (lit "params-sha256")
          then bs ← Py.fromhex (drop (S off) val);
               from_bytes bs TYPE_PARAMETERS_SHA256
          else typ ← Py.int typ_str 10;
               alloc_and_encode val percent_cnt typ (Z.of_nat off)
      | None => alloc_and_encode val percent_cnt TYPE_GENERIC (-1)
      end
  end.

Definition get_type (component : BinaryStr) : result Z :=
  '(typ, _) ← parse_tl_num component 0; Ok typ.

Definition get_value (component : BinaryStr) : result BinaryStr :=
  '(_, size_typ) ← parse_tl_num component 0;
  '(_, size_len) ← parse_tl_num component size_typ;
  Ok (drop (size_typ + size_len) component).

(** The nested [decode(val)] of [to_str]. *)
Definition decode (val : byte) : str :=
  let ret := ascii_of_byte val in
  if CHARSET ret
     && negb (Ascii.eqb ret "%"%char || Ascii.eqb ret "="%char)
  then [ret]
  else "%"%char :: Py.hex2 true val.

Definition to_str (component : BinaryStr) : result str :=
  '(typ, sz) ← parse_tl_num component 0;
  let offset := sz in
  '(length_, sz) ← parse_tl_num component offset;
  let offset := (offset + sz)%nat in
  if negb (Z.of_nat (length component) =? length_ + Z.of_nat offset)
  then Raise ValueError
  else if typ =? TYPE_IMPLICIT_SHA256
  then Ok (lit "sha256digest=" ++ Py.hex (drop offset component))
  else if typ =? TYPE_PARAMETERS_SHA256
  then Ok (lit "params-sha256=" ++ Py.hex (drop offset component))
  else
    let ret := if negb (typ =? TYPE_GENERIC)
               then Py.format_int typ ++ lit "=" else [] in
    Ok (ret ++ flat_map decode (drop offset component)).

Definition TYPE_KEYWORD : Z := 32.
Definition TYPE_SEGMENT : Z := 33.
Definition TYPE_BYTE_OFFSET : Z := 34.
Definition TYPE_VERSION : Z := 35.
Definition TYPE_TIMESTAMP : Z := 36.
Definition TYPE_SEQUENCE_NUM : Z := 37.

Section Numbers.
(** [pack_uint_bytes] belongs to ndn/encoding/tlv_var.py; the
    constructors that call it take it as a parameter. *)
Variable pack_uint_bytes : Z -> result BinaryStr.

Definition from_number (val : Z) (typ : Z) : result BinaryStr :=
  bs ← pack_uint_bytes val; from_bytes bs typ.

Definition from_segment (segment : Z) : result BinaryStr :=
  from_number segment TYPE_SEGMENT.

Definition from_byte_offset (offset : Z) : result BinaryStr :=
  from_number offset TYPE_BYTE_OFFSET.

Definition from_sequence_num (seq_num : Z) : result BinaryStr :=
  from_number seq_num TYPE_SEQUENCE_NUM.

Definition from_version (version : Z) : result BinaryStr :=
  from_number version TYPE_VERSION.

Definition from_timestamp (timestamp : Z) : result BinaryStr :=
  from_number timestamp TYPE_TIMESTAMP.
End Numbers.

Definition to_number (component : BinaryStr) : result Z :=
  '(_, size_typ) ← parse_tl_num component 0;
  '(_, size_len) ← parse_tl_num component size_typ;
  Ok (Py.int_from_bytes (drop (size_typ + size_len) component)).

(** The nested [escape_chr(ch)] of [escape_str]. *)
Definition escape_chr (ch : ascii) : str :=
  if CHARSET ch then [ch]
  else flat_map (fun x => "%"%char :: Py.hex2 true x) (Py.utf8 ch).

Definition escape_str (val : str) : str := flat_map escape_chr val.

End Component.

Module Uri.
Import Component.
(** The unreserved characters of a URI: letters, digits, [- . _ ~]. *)
Definition unreserved (c : ascii) : bool :=
  is_alnum c || Ascii.eqb c "-"%char || Ascii.eqb c "."%char
  || Ascii.eqb c "_"%char || Ascii.eqb c "~"%char.

Definition lower_digits : str := lit "0123456789abcdef".
Definition upper_digits : str := lit "0123456789ABCDEF".

(** Two hexadecimal digits of a byte, taken from a digit table. *)
Definition hex_pair (table : str) (b : byte) : str :=
  let n := Z.to_nat (Z_of_byte b) in
  [nth (n / 16) table "?"%char; nth (n mod 16) table "?"%char].

Definition escape (b : byte) : str :=
  if unreserved (ascii_of_byte b) then [ascii_of_byte b]
  else "%"%char :: hex_pair upper_digits b.

(** The URI segment of a component of type [typ] and value [value], as
    the documentation of [to_str] describes it. *)
Definition segment (typ : Z) (value : BinaryStr) : str :=
  if typ =? 1 then lit "sha256digest=" ++ flat_map (hex_pair lower_digits) value
  else if typ =? 2 then lit "params-sha256=" ++ flat_map (hex_pair lower_digits) value
  else (if typ =? 8 then [] else Py.format_int typ ++ lit "=")
       ++ flat_map escape value.
End Uri.

(** ** Notions for the proofs about the codec *)

Section CodecNotions.
Import Component.

(** A character [scan] lets pass that is no equals sign. *)
Definition plain (c : ascii) : bool := CHARSET c && negb (Ascii.eqb c "="%char).

(** The percent signs of a string. *)
Fixpoint count_percent (l : str) : nat :=
  match l with
  | [] => 0%nat
  | c :: r => ((if Ascii.eqb c "%"%char then 1 else 0) + count_percent r)%nat
  end.

(** What [decode] yields for a byte: the byte's own character, or a
    percent sign and two digits that [int(_, 16)] reads back. *)
Definition decode_shape_b (b : byte) : bool :=
  match decode b with
  | [c] => negb (Ascii.eqb c "%"%char) && Byte.eqb (Py.utf8_first c) b
  | [p; h1; h2] =>
      Ascii.eqb p "%"%char
      && match Py.int [h1; h2] 16 with
         | Ok v => v =? Z_of_byte b
         | Raise _ => false
         end
  | _ => false
  end.

(** A decimal digit. *)
Definition digit_char (c : ascii) : Prop :=
  exists d, 0 <= d < 10 /\ c = chr (48 + d).

(** The number a string of decimal digits denotes, from [acc] on. *)
Fixpoint dval (acc : Z) (ds : str) : Z :=
  match ds with
  | [] => acc
  | c :: r => dval (acc * 10 + (ord c - 48)) r
  end.

(** The string [to_str] builds, in the terms of the code. *)
Definition rendered (typ : Z) (value : BinaryStr) : str :=
  if typ =? TYPE_IMPLICIT_SHA256 then lit "sha256digest=" ++ Py.hex value
  else if typ =? TYPE_PARAMETERS_SHA256 then lit "params-sha256=" ++ Py.hex value
  else (if negb (typ =? TYPE_GENERIC) then Py.format_int typ ++ lit "=" else [])
       ++ flat_map decode value.

End CodecNotions.

(** A string without percent and equals signs. *)
Definition unmarked (val : str) : bool :=
  forallb (fun ch => negb (Ascii.eqb ch "%"%char || Ascii.eqb ch "="%char)) val.

(** ** Names *)

Abbreviation Name := (list BinaryStr).

#[global] Instance byte_eq_dec : EqDecision byte.
Proof.
  intros x y. destruct (Byte.eqb x y) eqn:E.
  - left. apply Byte.byte_dec_bl, E.
  - right. apply Byte.eqb_false, E.
Defined.

#[global] Instance byte_countable : Countable byte.
Proof.
  refine (inj_countable' Byte.to_N (fun n => default Byte.x00 (Byte.of_N n)) _).
  intros x. rewrite Byte.of_to_N. reflexivity.
Defined.

Module NameCodec.

(** Modelled from the spec: [Name.to_str] of ndn/encoding/name/Name.py,
    which is not among the sources. "join/split segments on [/] [...]
    each segment processed by the Component codec". *)
Fixpoint to_str (name : Name) : result str :=
  match name with
  | [] => Ok []
  | c :: r =>
      s ← Component.to_str c;
      t ← to_str r;
      Ok ("/"%char :: s ++ t)
  end.

End NameCodec.

(** ** The prefix trie *)

Module NameTrie.

(** Modelled from the spec: [NameTrie] of ndn/name_tree.py, which is not
    among the sources. "Generic container keyed by a Name (sequence of
    Components), each key mapping to a caller-supplied value type": a
    finite map from names to values. "All trie operations are total
    functions over well-formed Names; they never fail except [remove]
    on an absent key, which is a no-op or reports [NotFound]". *)
Section Ops.
Context {V : Type}.

(** Modelled from the spec: the subscript [t[name]],
    "[get(name) -> value | absent]". *)
Definition getitem (t : gmap Name V) (name : Name) : option V := t !! name.

(** Modelled from the spec: [del t[name]], the removal that reports
    [NotFound], as [KeyError]. *)
Definition delitem (t : gmap Name V) (name : Name) : result (gmap Name V) :=
  match t !! name with
  | Some _ => Ok (delete name t)
  | None => Raise KeyError
  end.

(** Every ancestor of [name], the root first, [name] itself last. *)
Definition prefixes_of (name : Name) : list Name :=
  (fun k => take k name) <$> seq 0 (S (length name)).

(** Modelled from the spec: "produces, in order from shortest to
    longest (root first), every ancestor of [name] (including [name]
    itself) that carries a value". *)
Definition prefixes (t : gmap Name V) (name : Name) : list (Name * V) :=
  omap (fun p => (fun v => (p, v)) <$> t !! p) (prefixes_of name).

(** Modelled from the spec: "returns the deepest node encountered that
    carries a value [...] or absent". *)
Definition longest_prefix (t : gmap Name V) (name : Name) : option (Name * V) :=
  last (prefixes t name).

End Ops.

End NameTrie.

(** ** app.py *)

Module App.

Record InterestParam : Type := {
  can_be_prefix : bool;
  must_be_fresh : bool;
  nonce : option Z;
  lifetime : option Z;
  hop_limit : option Z
}.

(** The keyword arguments of [express_interest]: the three the engine
    looks at, and the others. *)
Record Kwargs (KwRest : Type) : Type := {
  kw_interest_param : option InterestParam;
  kw_nonce : option Z;
  kw_lifetime : option Z;
  kw_rest : KwRest
}.
Arguments kw_interest_param {KwRest} _.
Arguments kw_nonce {KwRest} _.
Arguments kw_lifetime {KwRest} _.
Arguments kw_rest {KwRest} _.

(** The collaborators of the engine that live outside app.py: the packet
    codec, the key chain, the validators and the handlers. *)
Class Env : Type := {
  NonStrictName : Type;
  MetaInfo : Type;
  SignaturePtrs : Type;
  KwRest : Type;
  Signer : Type;
  Validator : Type;
  Route : Type;
  (** [sig.signature_info] *)
  signature_info : SignaturePtrs -> option BinaryStr;
  (** [Name.normalize] *)
  normalize : NonStrictName -> Name;
  (** awaiting a validator on a name and the signature pointers *)
  validate : Validator -> Name -> SignaturePtrs -> bool;
  sha256_digest_checker : Validator;
  params_sha256_checker : Name -> SignaturePtrs -> bool;
  (** the [n]-th draw of [gen_nonce()] *)
  gen_nonce : nat -> Z;
  (** [self.keychain(kwargs)] *)
  keychain : Kwargs KwRest -> Signer;
  (** [InterestParam.from_dict(kwargs)] *)
  from_dict : Kwargs KwRest -> InterestParam;
  (** [make_interest(..., need_final_name=True)]: the packet and the
      final name *)
  make_interest : NonStrictName -> InterestParam -> option BinaryStr ->
                  option Signer -> Kwargs KwRest -> BinaryStr * Name;
  make_reg_route_cmd : Name -> NonStrictName;
  (** no further keyword arguments *)
  no_kwargs : KwRest;
  parse_interest : BinaryStr -> bool ->
                   result (Name * InterestParam * option BinaryStr * SignaturePtrs);
  parse_data : BinaryStr -> bool ->
               result (Name * MetaInfo * option BinaryStr * SignaturePtrs);
  parse_network_nack : BinaryStr -> bool -> result (Z * BinaryStr);
  TypeNumber_INTEREST : Z;
  TypeNumber_DATA : Z;
  LpTypeNumber_LP_PACKET : Z
}.

Section Engine.
Context {E : Env}.

Definition Data : Type := Name * MetaInfo * option BinaryStr.

(** An [asyncio] future. *)
Inductive Future : Type :=
| Pending
| Done (r : result Data)
| Cancelled.

(** Modelled from the spec: [InterestTreeNode] of ndn/name_tree.py,
    which is not among the sources. A PIT entry "holds one or more
    pending waiters (aggregation) [...] and an optional per-entry
    validator override"; a waiter is the future of one
    [express_interest] call with its Interest parameters. *)
Record InterestTreeNode : Type := {
  pending_list : list (nat * InterestParam);
  validator : option Validator;
  (** the [invalid] notification the entry carries *)
  invalid_notice : option Data
}.

(** Modelled from the spec: [PrefixTreeNode] of ndn/name_tree.py. A
    registration entry "holds exactly one handler and an optional
    validator override". *)
Record PrefixTreeNode : Type := {
  callback : option Route;
  pvalidator : option Validator
}.

Inductive Warning : Type :=
| NoRoute (name : Name)
| DropMalformed (name : Name)
| DropUnvalidated (name : Name)
| UnableToDecode.

(** What the engine asks of its collaborators, in order. *)
Inductive Event : Type :=
| EvParamsCheck (name : Name) (sig : SignaturePtrs)
| EvValidate (v : Validator) (name : Name) (sig : SignaturePtrs)
| EvCallback (r : Route) (name : Name) (param : InterestParam)
             (app_param : option BinaryStr)
| EvWarning (w : Warning).

(** The state of an [NDNApp]. The nodes of the interest tree are
    objects shared between the tree and the waiting coroutines: the
    tree holds references into [int_nodes]. *)
Record NDNApp : Type := {
  face_running : bool;
  face_sent : list BinaryStr;
  _int_tree : gmap Name nat;
  int_nodes : list InterestTreeNode;
  _prefix_tree : gmap Name PrefixTreeNode;
  futures : list Future;
  int_validator : Validator;
  data_validator : Validator;
  nonce_draws : nat;
  events : list Event
}.

(** [NDNApp.__init__], with a face that may already be connected. *)
Definition init (running : bool) : NDNApp := {|
  face_running := running;
  face_sent := [];
  _int_tree := ∅;
  int_nodes := [];
  _prefix_tree := ∅;
  futures := [];
  int_validator := sha256_digest_checker;
  data_validator := sha256_digest_checker;
  nonce_draws := 0%nat;
  events := []
|}.

Definition set_face_running (x : bool) (st : NDNApp) : NDNApp :=
  {| face_running := x; face_sent := face_sent st;
     _int_tree := _int_tree st; int_nodes := int_nodes st;
     _prefix_tree := _prefix_tree st; futures := futures st;
     int_validator := int_validator st; data_validator := data_validator st;
     nonce_draws := nonce_draws st; events := events st |}.

Definition set_face_sent (x : list BinaryStr) (st : NDNApp) : NDNApp :=
  {| face_running := face_running st; face_sent := x;
     _int_tree := _int_tree st; int_nodes := int_nodes st;
     _prefix_tree := _prefix_tree st; futures := futures st;
     int_validator := int_validator st; data_validator := data_validator st;
     nonce_draws := nonce_draws st; events := events st |}.

Definition set_int_tree (x : gmap Name nat) (st : NDNApp) : NDNApp :=
  {| face_running := face_running st; face_sent := face_sent st;
     _int_tree := x; int_nodes := int_nodes st;
     _prefix_tree := _prefix_tree st; futures := futures st;
     int_validator := int_validator st; data_validator := data_validator st;
     nonce_draws := nonce_draws st; events := events st |}.

Definition set_int_nodes (x : list InterestTreeNode) (st : NDNApp) : NDNApp :=
  {| face_running := face_running st; face_sent := face_sent st;
     _int_tree := _int_tree st; int_nodes := x;
     _prefix_tree := _prefix_tree st; futures := futures st;
     int_validator := int_validator st; data_validator := data_validator st;
     nonce_draws := nonce_draws st; events := events st |}.

Definition set_prefix_tree (x : gmap Name PrefixTreeNode) (st : NDNApp) : NDNApp :=
  {| face_running := face_running st; face_sent := face_sent st;
     _int_tree := _int_tree st; int_nodes := int_nodes st;
     _prefix_tree := x; futures := futures st;
     int_validator := int_validator st; data_validator := data_validator st;
     nonce_draws := nonce_draws st; events := events st |}.

Definition set_futures (x : list Future) (st : NDNApp) : NDNApp :=
  {| face_running := face_running st; face_sent := face_sent st;
     _int_tree := _int_tree st; int_nodes := int_nodes st;
     _prefix_tree := _prefix_tree st; futures := x;
     int_validator := int_validator st; data_validator := data_validator st;
     nonce_draws := nonce_draws st; events := events st |}.

Definition set_nonce_draws (x : nat) (st : NDNApp) : NDNApp :=
  {| face_running := face_running st; face_sent := face_sent st;
     _int_tree := _int_tree st; int_nodes := int_nodes st;
     _prefix_tree := _prefix_tree st; futures := futures st;
     int_validator := int_validator st; data_validator := data_validator st;
     nonce_draws := x; events := events st |}.

Definition set_events (x : list Event) (st : NDNApp) : NDNApp :=
  {| face_running := face_running st; face_sent := face_sent st;
     _int_tree := _int_tree st; int_nodes := int_nodes st;
     _prefix_tree := _prefix_tree st; futures := futures st;
     int_validator := int_validator st; data_validator := data_validator st;
     nonce_draws := nonce_draws st; events := x |}.

Definition emit (e : Event) (st : NDNApp) : NDNApp :=
  set_events (events st ++ [e]) st.

Definition emits (l : list Event) (st : NDNApp) : NDNApp :=
  set_events (events st ++ l) st.

(** *** Futures *)

(** [future.set_result] and [future.set_exception]: an [asyncio]
    future is completed once, and completing a future that is done or
    cancelled raises [InvalidStateError]. *)
Definition resolve (f : nat) (o : Future) (fs : list Future)
  : result (list Future) :=
  match fs !! f with
  | Some Pending => Ok (<[f := o]> fs)
  | _ => Raise InvalidStateError
  end.

(** Completing the futures of waiters one after the other: when one
    raises, the earlier ones stay completed. *)
Fixpoint resolve_all (ws : list (nat * InterestParam)) (o : Future)
         (fs : list Future) : result unit * list Future :=
  match ws with
  | [] => (Ok tt, fs)
  | w :: ws' =>
      match resolve w.1 o fs with
      | Ok fs' => resolve_all ws' o fs'
      | Raise e => (Raise e, fs)
      end
  end.

(** *** The methods of an interest-tree node *)

Definition new_node : InterestTreeNode :=
  {| pending_list := []; validator := None; invalid_notice := None |}.

(** Modelled from the spec: [append_interest]. "appends a new waiter
    (interest aggregation [...])". *)
Definition append_interest (future : nat) (param : InterestParam)
           (node : InterestTreeNode) : InterestTreeNode :=
  {| pending_list := pending_list node ++ [(future, param)];
     validator := validator node;
     invalid_notice := invalid_notice node |}.

Definition set_validator (v : option Validator) (node : InterestTreeNode)
  : InterestTreeNode :=
  {| pending_list := pending_list node; validator := v;
     invalid_notice := invalid_notice node |}.

Definition set_pending (l : list (nat * InterestParam)) (node : InterestTreeNode)
  : InterestTreeNode :=
  {| pending_list := l; validator := validator node;
     invalid_notice := invalid_notice node |}.

Definition set_notice (d : Data) (node : InterestTreeNode) : InterestTreeNode :=
  {| pending_list := pending_list node; validator := validator node;
     invalid_notice := Some d |}.

(** Whether Data matched with the flag [is_prefix] answers a waiter. *)
Definition answers (is_prefix : bool) (w : nat * InterestParam) : bool :=
  can_be_prefix w.2 || negb is_prefix.

(** Modelled from the spec: [satisfy]. "every waiter on that entry
    receives the Data, with a flag indicating whether the match was
    exact or prefix-derived"; "an Interest expressed for [/a] without
    allowing prefix match must only be satisfiable by Data named
    exactly [/a]"; "an entry is reachable from the trie if and only if
    it has >= 1 unresolved waiter". The waiters the Data answers are
    completed with it, the others stay; the result tells whether no
    waiter is left. *)
Definition satisfy (name : Name) (meta_info : MetaInfo)
           (content : option BinaryStr) (is_prefix : bool)
           (node : InterestTreeNode) (fs : list Future)
  : result (bool * InterestTreeNode) * list Future :=
  let hit := filter (fun w => answers is_prefix w = true) (pending_list node) in
  let rest := filter (fun w => answers is_prefix w = false) (pending_list node) in
  match resolve_all hit (Done (Ok (name, meta_info, content))) fs with
  | (Ok _, fs) => (Ok (bool_decide (rest = []), set_pending rest node), fs)
  | (Raise e, fs) => (Raise e, fs)
  end.

(** Modelled from the spec: [invalid]. "entries whose validator
    rejects the packet transition the entry to carry an [invalid]
    notification instead of satisfying waiters (rejected Data does
    not resolve the entry - it remains [Pending], eligible to be
    satisfied later by a different, validly-signed Data, or to time
    out)"; "this spec keeps the conservative behavior (leave
    pending)". The entry takes the notification, no waiter is
    completed, and the result tells that the entry stays. *)
Definition invalid (name : Name) (meta_info : MetaInfo)
           (content : option BinaryStr) (node : InterestTreeNode)
  : bool * InterestTreeNode :=
  (false, set_notice (name, meta_info, content) node).

(** Modelled from the spec: [nack_interest]. "all waiters transition
    to [Nacked] carrying the reason code; entry removed". *)
Definition nack_interest (nack_reason : Z)
           (node : InterestTreeNode) (fs : list Future)
  : result bool * list Future :=
  match resolve_all (pending_list node)
          (Done (Raise (InterestNack nack_reason))) fs with
  | (Ok _, fs) => (Ok true, fs)
  | (Raise e, fs) => (Raise e, fs)
  end.

(** Modelled from the spec: [timeout]. "on expiry, if removing the
    waiter empties the entry's waiter set, the entry [...] is removed
    from the trie; if other waiters remain (aggregation), the entry
    stays [Pending] for them". *)
Definition timeout (future : nat) (node : InterestTreeNode)
  : bool * InterestTreeNode :=
  let rest := filter (fun w => w.1 <> future) (pending_list node) in
  (bool_decide (rest = []), set_pending rest node).

(** *** The engine *)

(** A computation on the application state that returns or raises. *)
Definition M (A : Type) : Type := NDNApp -> result A * NDNApp.

Definition ret {A} (a : A) : M A := fun st => (Ok a, st).
Definition raise {A} (e : exn) : M A := fun st => (Raise e, st).
Definition bind {A B} (m : M A) (k : A -> M B) : M B :=
  fun st => match m st with
            | (Ok a, st') => k a st'
            | (Raise e, st') => (Raise e, st')
            end.
Definition get : M NDNApp := fun st => (Ok st, st).
Definition modify (f : NDNApp -> NDNApp) : M unit := fun st => (Ok tt, f st).
Definition lift {A} (r : result A) : M A := fun st => (r, st).

(** [try: m except e': h] for the exceptions [catches] selects. *)
Definition try_except {A} (m : M A) (catches : exn -> bool) (h : exn -> M A) : M A :=
  fun st => match m st with
            | (Raise e, st') => if catches e then h e st' else (Raise e, st')
            | r => r
            end.

#[global] Instance M_bind : MBind M := fun A B k m => bind m k.
#[global] Instance M_ret : MRet M := fun A a => ret a.

(** [self._int_tree.setdefault(name, InterestTreeNode())]: the entry
    at [name], created empty when there is none. *)
Definition int_tree_setdefault (name : Name) : M nat :=
  fun st =>
    match _int_tree st !! name with
    | Some r => (Ok r, st)
    | None =>
        let r := length (int_nodes st) in
        (Ok r, set_int_tree (<[name := r]> (_int_tree st))
                 (set_int_nodes (int_nodes st ++ [new_node]) st))
    end.

(** The node a reference points to. In a well-formed state every
    reference of the tree is allocated. *)
Definition deref (st : NDNApp) (r : nat) : InterestTreeNode :=
  default new_node (int_nodes st !! r).

Definition update_node (r : nat) (f : InterestTreeNode -> InterestTreeNode) : M unit :=
  modify (fun st => set_int_nodes (<[r := f (deref st r)]> (int_nodes st)) st).

(** [del self._int_tree[name]] *)
Definition int_tree_del (name : Name) : M unit :=
  fun st =>
    match NameTrie.delitem (_int_tree st) name with
    | Ok t => (Ok tt, set_int_tree t st)
    | Raise e => (Raise e, st)
    end.

(** [aio.get_event_loop().create_future()] *)
Definition create_future : M nat :=
  fun st => (Ok (length (futures st)), set_futures (futures st ++ [Pending]) st).

(** [self.face.send(data)] *)
Definition face_send (data : BinaryStr) : M unit :=
  modify (fun st => set_face_sent (face_sent st ++ [data]) st).

Definition draw_nonce : M Z :=
  fun st => (Ok (gen_nonce (nonce_draws st)), set_nonce_draws (S (nonce_draws st)) st).

Definition put_raw_packet (data : BinaryStr) : M unit :=
  st ← get;
  if negb (face_running st)
  then raise NetworkError
  else face_send data.

(** The coroutine [express_interest] returns: the arguments of
    [_wait_for_data]. *)
Record Waiter : Type := {
  w_future : nat;
  w_lifetime : option Z;
  w_name : Name;
  w_node : nat
}.

Definition set_kw_nonce (n : Z) (kwargs : Kwargs KwRest) : Kwargs KwRest :=
  {| kw_interest_param := kw_interest_param kwargs; kw_nonce := Some n;
     kw_lifetime := kw_lifetime kwargs; kw_rest := kw_rest kwargs |}.

(** The Interest parameters [express_interest] settles on, with the
    keyword arguments as it leaves them. *)
Definition interest_param_of (kwargs : Kwargs KwRest)
  : M (InterestParam * Kwargs KwRest) :=
  match kw_interest_param kwargs with
  | Some interest_param => ret (interest_param, kwargs)
  | None =>
      kwargs ← match kw_nonce kwargs with
               | None => n ← draw_nonce; ret (set_kw_nonce n kwargs)
               | Some _ => ret kwargs
               end;
      ret (from_dict kwargs, kwargs)
  end.

(** The call [make_interest(name, interest_param, app_param,
    signer=signer, need_final_name=True, **kwargs)] gets a second
    value for its parameter [interest_param] when the keyword
    arguments hold that key, and Python raises [TypeError] for it. *)
Definition express_interest (name : NonStrictName) (app_param : option BinaryStr)
           (validator : option Validator) (kwargs : Kwargs KwRest) : M Waiter :=
  st ← get;
  if negb (face_running st)
  then raise NetworkError
  else
    let signer := match app_param with
                  | Some _ => Some (keychain kwargs)
                  | None => None
                  end in
    '(interest_param, kwargs) ← interest_param_of kwargs;
    match kw_interest_param kwargs with
    | Some _ => raise TypeError
    | None =>
        let '(interest, final_name) :=
          make_interest name interest_param app_param signer kwargs in
        future ← create_future;
        node ← int_tree_setdefault final_name;
        _ ← update_node node (append_interest future interest_param);
        _ ← update_node node (set_validator validator);
        _ ← face_send interest;
        ret {| w_future := future; w_lifetime := lifetime interest_param;
               w_name := final_name; w_node := node |}
    end.

(** [_wait_for_data] once [waited] milliseconds have passed since the
    await began: [None] while the coroutine is still suspended.
    [aio.wait_for] cancels the future when the time is up. *)
Definition _wait_for_data (w : Waiter) (waited : Z)
  : NDNApp -> option (result Data * NDNApp) :=
  fun st =>
    let lifetime := match w_lifetime w with
                    | None => 100
                    | Some l => l
                    end in
    match futures st !! w_future w with
    | Some (Done (Ok data)) => Some (Ok data, st)
    | Some (Done (Raise e)) => Some (Raise e, st)
    | Some Cancelled => Some (Raise InterestCanceled, st)
    | Some Pending =>
        if lifetime <=? waited
        then
          let st := set_futures (<[w_future w := Cancelled]> (futures st)) st in
          let '(empty, node) := timeout (w_future w) (deref st (w_node w)) in
          let st := set_int_nodes (<[w_node w := node]> (int_nodes st)) st in
          if empty
          then match int_tree_del (w_name w) st with
               | (Ok _, st) => Some (Raise InterestTimeout, st)
               | (Raise e, st) => Some (Raise e, st)
               end
          else Some (Raise InterestTimeout, st)
        else None
    | None => None
    end.

Definition new_prefix_node : PrefixTreeNode :=
  {| callback := None; pvalidator := None |}.

(** [register] up to its [await]: the registration itself and the
    expression of the registration command. *)
Definition register_begin (name : NonStrictName) (func : Route)
           (validator : option Validator) : M Waiter :=
  let name := normalize name in
  st ← get;
  let node := default new_prefix_node (_prefix_tree st !! name) in
  _ ← modify (set_prefix_tree (<[name := node]> (_prefix_tree st)));
  match callback node with
  | Some _ => raise ValueError
  | None =>
      let node := {| callback := Some func;
                     pvalidator := match validator with
                                   | Some v => Some v
                                   | None => pvalidator node
                                   end |} in
      _ ← modify (set_prefix_tree (<[name := node]> (_prefix_tree st)));
      express_interest (make_reg_route_cmd name) None None
        {| kw_interest_param := None; kw_nonce := None;
           kw_lifetime := Some 1000; kw_rest := no_kwargs |}
  end.

(** [register] after its [await], given how the await ended;
    [print(bytes(reply))] raises [TypeError] for a reply without
    content. *)
Definition register_end (r : result Data) : result bool :=
  match r with
  | Ok (_, _, Some _) => Ok true
  | Ok (_, _, None) => Raise TypeError
  | Raise (InterestNack _) | Raise InterestTimeout | Raise InterestCanceled
  | Raise ValidationFailure => Ok false
  | Raise e => Raise e
  end.

Definition unregister (name : NonStrictName) : M unit :=
  fun st =>
    match NameTrie.delitem (_prefix_tree st) (normalize name) with
    | Ok t => (Ok tt, set_prefix_tree t st)
    | Raise e => (Raise e, st)
    end.

(** For a name without an entry [self._int_tree[name]] is absent and
    [if node:] skips it; an [InterestTreeNode] object is true. *)
Definition _on_nack (name : Name) (nack_reason : Z) : M unit :=
  st ← get;
  match NameTrie.getitem (_int_tree st) name with
  | None => ret tt
  | Some node =>
      let '(clean, fs) :=
        nack_interest nack_reason (deref st node) (futures st) in
      _ ← modify (set_futures fs);
      clean ← lift clean;
      if clean : bool then int_tree_del name else ret tt
  end.

(** The body of the first loop of [_on_data] for one [(prefix, node)]. *)
Definition on_data_entry (name : Name) (meta_info : MetaInfo)
           (content : option BinaryStr) (sig : SignaturePtrs)
           (entry : Name * nat) (clean_list : list Name) : M (list Name) :=
  let '(prefix, r) := entry in
  st ← get;
  let node := deref st r in
  let validator := match validator node with
                   | Some v => v
                   | None => data_validator st
                   end in
  _ ← modify (emit (EvValidate validator name sig));
  clean ←
    (if validate validator name sig
     then
       let '(satisfied, fs) :=
         satisfy name meta_info content (negb (bool_decide (prefix = name)))
                 node (futures st) in
       _ ← modify (set_futures fs);
       '(clean, node') ← lift satisfied;
       _ ← modify (fun st => set_int_nodes (<[r := node']> (int_nodes st)) st);
       ret clean
     else
       let '(clean, node') := invalid name meta_info content node in
       _ ← modify (fun st => set_int_nodes (<[r := node']> (int_nodes st)) st);
       ret clean);
  ret (if clean : bool then clean_list ++ [prefix] else clean_list).

Fixpoint on_data_loop (name : Name) (meta_info : MetaInfo)
         (content : option BinaryStr) (sig : SignaturePtrs)
         (entries : list (Name * nat)) (clean_list : list Name) : M (list Name) :=
  match entries with
  | [] => ret clean_list
  | entry :: rest =>
      clean_list ← on_data_entry name meta_info content sig entry clean_list;
      on_data_loop name meta_info content sig rest clean_list
  end.

Fixpoint del_all (l : list Name) : M unit :=
  match l with
  | [] => ret tt
  | prefix :: rest => _ ← int_tree_del prefix; del_all rest
  end.

Definition _on_data (name : Name) (meta_info : MetaInfo)
           (content : option BinaryStr) (sig : SignaturePtrs) : M unit :=
  st ← get;
  clean_list ← on_data_loop name meta_info content sig
                 (NameTrie.prefixes (_int_tree st) name) [];
  del_all clean_list.

Definition warn (w : Warning) : M unit := modify (emit (EvWarning w)).

Definition _on_interest (name : Name) (param : InterestParam)
           (app_param : option BinaryStr) (sig : SignaturePtrs) : M unit :=
  st ← get;
  match NameTrie.longest_prefix (_prefix_tree st) name with
  | None => warn (NoRoute name)
  | Some (_, node) =>
      checked ←
        (if bool_decide (app_param <> None) || bool_decide (signature_info sig <> None)
         then _ ← modify (emit (EvParamsCheck name sig));
              ret (params_sha256_checker name sig)
         else ret true);
      if negb checked
      then warn (DropMalformed name)
      else
        valid ←
          (if bool_decide (signature_info sig <> None)
           then
             let validator := match pvalidator node with
                              | Some v => v
                              | None => int_validator st
                              end in
             _ ← modify (emit (EvValidate validator name sig));
             ret (validate validator name sig)
           else ret true);
        if negb valid
        then warn (DropUnvalidated name)
        else match callback node with
             | Some func => modify (emit (EvCallback func name param app_param))
             | None => raise TypeError
             end
  end.

(** [try: parse except (DecodeError, TypeError, ValueError,
    struct.error): raise DecodeError] *)
Definition decoding {A} (r : result A) : M A :=
  match r with
  | Ok a => ret a
  | Raise DecodeError | Raise TypeError | Raise ValueError | Raise StructError =>
      raise DecodeError
  | Raise e => raise e
  end.

Definition is_DecodeError (e : exn) : bool :=
  match e with
  | DecodeError => true
  | _ => false
  end.

(** The debug lines format the name with [Name.to_str] before the
    packet is dispatched. *)
Definition _receive (typ : Z) (data : BinaryStr) : M unit :=
  try_except
    (if typ =? TypeNumber_INTEREST then
       '(name, param, app_param, sig) ← decoding (parse_interest data false);
       _ ← lift (NameCodec.to_str name);
       _on_interest name param app_param sig
     else if typ =? TypeNumber_DATA then
       '(name, meta_info, content, sig) ← decoding (parse_data data false);
       _ ← lift (NameCodec.to_str name);
       _on_data name meta_info content sig
     else if typ =? LpTypeNumber_LP_PACKET then
       '(nack_reason, name) ←
         decoding ('(nack_reason, interest) ← parse_network_nack data false;
                   '(name, _, _, _) ← parse_interest interest true;
                   Ok (nack_reason, name));
       _ ← lift (NameCodec.to_str name);
       _on_nack name nack_reason
     else ret tt)
    is_DecodeError
    (fun _ => warn UnableToDecode).

(** *** The life of an engine *)

(** One thing that happens to an engine: the face connects or goes
    down, the application calls a method, a packet arrives, a
    waiting [_wait_for_data] is resumed, or a caller cancels its
    await, which cancels the future it waits for. A call that raises
    leaves the state it had reached. *)
Inductive step (st : NDNApp) : NDNApp -> Prop :=
| step_face (running : bool) : step st (set_face_running running st)
| step_put_raw_packet (data : BinaryStr) :
    step st (put_raw_packet data st).2
| step_express_interest (name : NonStrictName) (app_param : option BinaryStr)
                        (validator : option Validator) (kwargs : Kwargs KwRest) :
    step st (express_interest name app_param validator kwargs st).2
| step_register (name : NonStrictName) (func : Route)
                (validator : option Validator) :
    step st (register_begin name func validator st).2
| step_unregister (name : NonStrictName) : step st (unregister name st).2
| step_receive (typ : Z) (data : BinaryStr) : step st (_receive typ data st).2
| step_wait (w : Waiter) (waited : Z) (r : result Data) (st' : NDNApp) :
    _wait_for_data w waited st = Some (r, st') -> step st st'
| step_cancel (future : nat) :
    futures st !! future = Some Pending ->
    step st (set_futures (<[future := Cancelled]> (futures st)) st).

(** The states an engine gets to from its construction. *)
Definition reachable (st : NDNApp) : Prop :=
  exists running, rtc step (init running) st.

(** Every registration holds a handler. *)
Definition handlers_set (st : NDNApp) : Prop :=
  forall p node, _prefix_tree st !! p = Some node -> is_Some (callback node).

(** The exceptions [_receive] takes for a packet it cannot decode. *)
Definition decode_failure (e : exn) : bool :=
  match e with
  | DecodeError | TypeError | ValueError | StructError => true
  | _ => false
  end.

(** *** Well-formed states *)

(** The references of the interest tree point to allocated nodes, no
    node is the entry of two names, the waiters are futures of the
    event loop, no future waits on two nodes, and none waits twice
    on a node. *)
Record wf (st : NDNApp) : Prop := {
  wf_ref : forall p r,
    _int_tree st !! p = Some r -> (r < length (int_nodes st))%nat;
  wf_inj : forall p q r,
    _int_tree st !! p = Some r -> _int_tree st !! q = Some r -> p = q;
  wf_fut : forall r node x,
    int_nodes st !! r = Some node -> x ∈ pending_list node ->
    (x.1 < length (futures st))%nat;
  wf_disj : forall r1 r2 n1 n2 x1 x2,
    int_nodes st !! r1 = Some n1 -> int_nodes st !! r2 = Some n2 ->
    x1 ∈ pending_list n1 -> x2 ∈ pending_list n2 -> x1.1 = x2.1 -> r1 = r2;
  wf_nodup : forall r node,
    int_nodes st !! r = Some node -> NoDup (pending_list node).*1
}.

(** What one successful [express_interest v] call made of [st]: the
    waiter [w] it returned, the parameters [ip] and the packet
    [interest] it built, and the state [st'] it left. *)
Record expressed (st : NDNApp) (v : option Validator) (w : Waiter)
       (ip : InterestParam) (interest : BinaryStr) (st' : NDNApp) : Prop := {
  ex_future : w_future w = length (futures st);
  ex_lifetime : w_lifetime w = lifetime ip;
  ex_futures : futures st' = futures st ++ [Pending];
  ex_sent : face_sent st' = face_sent st ++ [interest];
  ex_running : face_running st' = true;
  ex_data_validator : data_validator st' = data_validator st;
  ex_entry : _int_tree st' !! w_name w = Some (w_node w);
  ex_tree_other : forall p,
    p <> w_name w -> _int_tree st' !! p = _int_tree st !! p;
  ex_tree_same : forall r,
    _int_tree st !! w_name w = Some r ->
    w_node w = r /\ _int_tree st' = _int_tree st;
  ex_tree_new :
    _int_tree st !! w_name w = None ->
    w_node w = length (int_nodes st)
    /\ _int_tree st' = <[w_name w := w_node w]> (_int_tree st);
  ex_node :
    int_nodes st' !! w_node w
    = Some (set_validator v
              (append_interest (w_future w) ip (deref st (w_node w))));
  ex_node_other : forall r,
    r <> w_node w -> int_nodes st' !! r = int_nodes st !! r;
  ex_wf : wf st'
}.

(** The validator [_on_data] awaits for the node [r]. *)
Definition chosen_validator (st : NDNApp) (r : nat) : Validator :=
  match validator (deref st r) with
  | Some v => v
  | None => data_validator st
  end.

(** The waiters at the prefixes of [name] are pending: none of them
    was cancelled or completed. *)
Definition waiting (st : NDNApp) (name : Name) : Prop :=
  forall p r x,
    p ∈ NameTrie.prefixes_of name -> _int_tree st !! p = Some r ->
    x ∈ pending_list (deref st r) -> futures st !! x.1 = Some Pending.

(** The waiters of the node [r] that Data matched with the flag
    [is_prefix] leaves. *)
Definition unanswered (is_prefix : bool) (st : NDNApp) (r : nat)
  : list (nat * InterestParam) :=
  filter (fun w => answers is_prefix w = false) (pending_list (deref st r)).

(** Whether the first loop of [_on_data] puts an entry on its clean
    list. *)
Definition cleaned (st : NDNApp) (name : Name) (sig : SignaturePtrs)
           (entry : Name * nat) : bool :=
  validate (chosen_validator st entry.2) name sig
  && bool_decide (unanswered (negb (bool_decide (entry.1 = name))) st entry.2 = []).

(** What the first loop of [_on_data] leaves alone, from [st] to
    [st'], also when it raises: the tree, the default validator, the
    validator of every node, the waiters a node had not, the futures
    that were done, and how many nodes and futures there are. *)
Record data_frame (st st' : NDNApp) : Prop := {
  df_tree : _int_tree st' = _int_tree st;
  df_data_validator : data_validator st' = data_validator st;
  df_nodes : forall r,
    validator (deref st' r) = validator (deref st r)
    /\ sublist (pending_list (deref st' r)) (pending_list (deref st r));
  df_done : forall f o,
    futures st !! f = Some o -> o <> Pending -> futures st' !! f = Some o;
  df_len_nodes : length (int_nodes st') = length (int_nodes st);
  df_len_futures : length (futures st') = length (futures st)
}.

(** The entries [_on_data] is about to visit are ready: they have
    distinct allocated nodes, and their waiters are distinct pending
    futures, none of which waits on two of the nodes. *)
Record ready (st : NDNApp) (entries : list (Name * nat)) : Prop := {
  rd_nodes : NoDup entries.*2;
  rd_ref : forall e, e ∈ entries -> (e.2 < length (int_nodes st))%nat;
  rd_nodup : forall e,
    e ∈ entries -> NoDup (pending_list (deref st e.2)).*1;
  rd_pending : forall e x,
    e ∈ entries -> x ∈ pending_list (deref st e.2) ->
    futures st !! x.1 = Some Pending;
  rd_disj : forall e1 e2 x1 x2,
    e1 ∈ entries -> e2 ∈ entries ->
    x1 ∈ pending_list (deref st e1.2) -> x2 ∈ pending_list (deref st e2.2) ->
    x1.1 = x2.1 -> e1.2 = e2.2
}.

(** What the body of that loop does for the entry [(prefix, r)] of
    Data named [name], with the outcome [res]. *)
Record entry_step (name : Name) (meta_info : MetaInfo)
       (content : option BinaryStr) (sig : SignaturePtrs)
       (prefix : Name) (r : nat) (cl : list Name) (st : NDNApp)
       (res : result (list Name)) (st' : NDNApp) : Prop := {
  es_frame : data_frame st st';
  es_node_other : forall r',
    r' <> r -> int_nodes st' !! r' = int_nodes st !! r';
  es_future_other : forall f,
    (forall x, x ∈ pending_list (deref st r) -> x.1 <> f) ->
    futures st' !! f = futures st !! f;
  es_result :
    res = Raise InvalidStateError
    \/ res = Ok (if cleaned st name sig (prefix, r)
                 then cl ++ [prefix] else cl);
  es_reject :
    validate (chosen_validator st r) name sig = false ->
    res = Ok cl
    /\ futures st' = futures st
    /\ pending_list (deref st' r) = pending_list (deref st r)
    /\ ((r < length (int_nodes st))%nat ->
        invalid_notice (deref st' r) = Some (name, meta_info, content));
  es_accept :
    validate (chosen_validator st r) name sig = true ->
    NoDup (pending_list (deref st r)).*1 ->
    (forall x, x ∈ pending_list (deref st r) ->
               futures st !! x.1 = Some Pending) ->
    let is_prefix := negb (bool_decide (prefix = name)) in
    res <> Raise InvalidStateError
    /\ ((r < length (int_nodes st))%nat ->
        pending_list (deref st' r) = unanswered is_prefix st r)
    /\ forall x, x ∈ pending_list (deref st r) ->
                 futures st' !! x.1
                 = Some (if answers is_prefix x
                         then Done (Ok (name, meta_info, content))
                         else Pending)
}.

(** What [_on_data] made of the entry [(prefix, r)], whose waiters
    were pending, from [st] to [st']. *)
Record entry_after (name : Name) (meta_info : MetaInfo)
       (content : option BinaryStr) (sig : SignaturePtrs)
       (prefix : Name) (r : nat) (st st' : NDNApp) : Prop := {
  ea_validator : validator (deref st' r) = validator (deref st r);
  ea_reject :
    validate (chosen_validator st r) name sig = false ->
    pending_list (deref st' r) = pending_list (deref st r)
    /\ invalid_notice (deref st' r) = Some (name, meta_info, content)
    /\ forall x, x ∈ pending_list (deref st r) ->
                 futures st' !! x.1 = Some Pending;
  ea_accept :
    validate (chosen_validator st r) name sig = true ->
    let is_prefix := negb (bool_decide (prefix = name)) in
    pending_list (deref st' r) = unanswered is_prefix st r
    /\ forall x, x ∈ pending_list (deref st r) ->
                 futures st' !! x.1
                 = Some (if answers is_prefix x
                         then Done (Ok (name, meta_info, content))
                         else Pending)
}.

End Engine.
End App.

(** ** A small instance of the collaborators *)

Module Demo.
Import App.

Definition param0 : InterestParam :=
  {| can_be_prefix := false; must_be_fresh := false; nonce := None;
     lifetime := None; hop_limit := None |}.

(** Names are given in formal form, a validator is its verdict, a
    handler is a number, signature pointers are the optional signature
    info, a Nack frame is the reason byte followed by the Interest, and
    an Interest consists of one name component. *)
#[global] Instance env : Env := {|
  NonStrictName := Name;
  MetaInfo := unit;
  SignaturePtrs := option BinaryStr;
  KwRest := unit;
  Signer := unit;
  Validator := bool;
  Route := nat;
  signature_info := fun sig => sig;
  normalize := fun name => name;
  validate := fun v _ _ => v;
  sha256_digest_checker := true;
  params_sha256_checker := fun _ sig => bool_decide (sig <> Some []);
  gen_nonce := fun n => Z.of_nat n;
  keychain := fun _ => tt;
  from_dict := fun kw =>
    {| can_be_prefix := false; must_be_fresh := false; nonce := kw_nonce kw;
       lifetime := kw_lifetime kw; hop_limit := None |};
  make_interest := fun name _ _ _ kw =>
    (Byte.x05 :: concat name, name);
  make_reg_route_cmd := fun name => name;
  no_kwargs := tt;
  parse_interest := fun buf _ =>
    match buf with
    | [] => Raise DecodeError
    | _ => Ok ([buf], param0, None, None)
    end;
  parse_data := fun buf _ =>
    match buf with
    | [] => Raise DecodeError
    | _ => Ok ([buf], tt, None, None)
    end;
  parse_network_nack := fun buf _ =>
    match buf with
    | reason :: interest => Ok (Z_of_byte reason, interest)
    | [] => Raise DecodeError
    end;
  TypeNumber_INTEREST := 5;
  TypeNumber_DATA := 6;
  LpTypeNumber_LP_PACKET := 100
|}.


Definition kw0 : Kwargs unit :=
  {| kw_interest_param := None; kw_nonce := None; kw_lifetime := None;
     kw_rest := tt |}.

(** The component [a] and the name [/a]. *)
Definition comp_a : BinaryStr := [Byte.x08; Byte.x01; Byte.x61].
Definition comp_b : BinaryStr := [Byte.x08; Byte.x01; Byte.x62].
Definition name_a : Name := [comp_a].
Definition name_ab : Name := [comp_a; comp_b].

Definition run {A} (m : M A) (st : NDNApp) : NDNApp := (m st).2.

(** One Interest for [/a] is pending. *)
Definition st_one : NDNApp :=
  run (express_interest name_a None None kw0) (init true).

(** Two Interests for [/a] are pending on one entry. *)
Definition st_two : NDNApp :=
  run (express_interest name_a None None kw0) st_one.



(** The handler 7 is registered at [/a]. *)
Definition st_reg : NDNApp :=
  run (register_begin name_a 7%nat None) (init true).

Definition waiter (future : nat) : Waiter :=
  {| w_future := future; w_lifetime := None; w_name := name_a; w_node := 0%nat |}.

Definition interest_a : BinaryStr := [Byte.x05; Byte.x08; Byte.x01; Byte.x61].

End Demo.

(** * Theorems *)

(** ** The codec *)

Section TlvFacts.
Import TlvVar.

Lemma Z_of_byte_range b : 0 <= Z_of_byte b < 256.
Proof.
  unfold Z_of_byte. pose proof (Byte.to_N_bounded b). lia.
Qed.

Lemma Z_of_byte_of_Z z : Z_of_byte (byte_of_Z z) = z mod 256.
Proof.
  unfold Z_of_byte, byte_of_Z.
  pose proof (Z.mod_pos_bound z 256 ltac:(lia)) as Hb.
  destruct (Byte.of_N (Z.to_N (z mod 256))) as [b|] eqn:E.
  - apply Byte.to_of_N in E. rewrite E. lia.
  - apply Byte.of_N_None_iff in E. lia.
Qed.

Lemma byte_of_Z_of_byte b : byte_of_Z (Z_of_byte b) = b.
Proof.
  unfold byte_of_Z. pose proof (Z_of_byte_range b) as Hb.
  rewrite Z.mod_small by lia. unfold Z_of_byte.
  rewrite N2Z.id, Byte.of_to_N. reflexivity.
Qed.

Lemma length_pack_be k v : length (pack_be k v) = k.
Proof. induction k; simpl; congruence. Qed.

Lemma unpack_be_app l1 l2 acc :
  unpack_be (l1 ++ l2) acc = unpack_be l2 (unpack_be l1 acc).
Proof. revert acc; induction l1; simpl; intros; auto. Qed.

Lemma unpack_pack_be k v acc :
  0 <= v ->
  unpack_be (pack_be k v) acc = acc * 256 ^ Z.of_nat k + v mod 256 ^ Z.of_nat k.
Proof.
  intros Hv. revert acc. induction k as [|k IH]; intros acc.
  - simpl. rewrite Z.mod_1_r. lia.
  - cbn [pack_be unpack_be]. rewrite IH, Z_of_byte_of_Z.
    rewrite Nat2Z.inj_succ, Z.pow_succ_r by lia.
    set (p := 256 ^ Z.of_nat k). assert (0 < p) by (apply Z.pow_pos_nonneg; lia).
    rewrite (Z.mul_comm 256 p), Z.rem_mul_r by lia. lia.
Qed.
End TlvFacts.

Section TlvFacts2.
Import TlvVar.

Lemma length_tl_num_bytes v bs :
  tl_num_bytes v = Ok bs -> length bs = get_tl_num_size v.
Proof.
  unfold tl_num_bytes, get_tl_num_size.
  destruct ((v <? 0) || (2 ^ 64 <=? v)); [discriminate|].
  destruct (v <? 253); [intros [= <-]; reflexivity|].
  destruct (v <? 2 ^ 16); [intros [= <-]; reflexivity|].
  destruct (v <? 2 ^ 32); intros [= <-]; reflexivity.
Qed.

Lemma tl_num_bytes_range v bs :
  tl_num_bytes v = Ok bs -> 0 <= v < 2 ^ 64.
Proof.
  unfold tl_num_bytes.
  destruct (v <? 0) eqn:E1; [discriminate|].
  destruct (2 ^ 64 <=? v) eqn:E2; [discriminate|]. lia.
Qed.

Lemma tl_num_bytes_total v :
  0 <= v < 2 ^ 64 -> exists bs, tl_num_bytes v = Ok bs.
Proof.
  intros Hv. unfold tl_num_bytes.
  destruct (v <? 0) eqn:E1; [lia|].
  destruct (2 ^ 64 <=? v) eqn:E2; [lia|]. simpl.
  repeat (destruct (_ <? _); eauto).
Qed.

Lemma parse_tl_num_bytes v bs pre rest :
  tl_num_bytes v = Ok bs ->
  parse_tl_num (pre ++ bs ++ rest) (length pre) = Ok (v, length bs).
Proof.
  intros Hbs. pose proof (tl_num_bytes_range _ _ Hbs) as Hr.
  unfold tl_num_bytes in Hbs.
  destruct (v <? 0) eqn:E1; [discriminate|].
  destruct (2 ^ 64 <=? v) eqn:E2; [discriminate|]. cbn [orb] in Hbs.
  unfold parse_tl_num.
  destruct (v <? 253) eqn:E3.
  { injection Hbs as <-. cbn [app]. rewrite list_lookup_middle by reflexivity.
    rewrite Z_of_byte_of_Z, Z.mod_small by lia. rewrite E3. reflexivity. }
  assert (Hgen : forall m k, (m = 253 /\ k = 2%nat) \/ (m = 254 /\ k = 4%nat)
                             \/ (m = 255 /\ k = 8%nat) ->
            v < 256 ^ Z.of_nat k ->
            bs = byte_of_Z m :: pack_be k v ->
            match (pre ++ bs ++ rest) !! length pre with
            | Some b =>
                let m := Z_of_byte b in
                if m <? 253 then Ok (m, 1%nat)
                else
                  let w := if m =? 253 then 2%nat else if m =? 254 then 4%nat else 8%nat in
                  let body := take w (drop (S (length pre)) (pre ++ bs ++ rest)) in
                  if (length body =? w)%nat then Ok (unpack_be body 0, S w)
                  else Raise StructError
            | None => Raise IndexError
            end = Ok (v, length bs)).
  { intros m k Hm Hk ->. cbn [app].
    rewrite list_lookup_middle by reflexivity.
    rewrite Z_of_byte_of_Z, Z.mod_small by lia. cbv zeta.
    replace (m <? 253) with false by lia.
    replace (if m =? 253 then 2%nat else if m =? 254 then 4%nat else 8%nat)
      with k by (destruct Hm as [[-> ->]|[[-> ->]|[-> ->]]]; reflexivity).
    rewrite (cons_middle _ pre), app_assoc, drop_app_length'
      by (rewrite length_app; simpl; lia).
    rewrite take_app_length' by (symmetry; apply length_pack_be).
    rewrite length_pack_be, Nat.eqb_refl.
    rewrite unpack_pack_be, Z.mod_small by lia.
    simpl. rewrite length_pack_be. reflexivity. }
  destruct (v <? 2 ^ 16) eqn:E4.
  { injection Hbs as Hbs.
    apply (Hgen 253 2%nat); [auto 6 | simpl; lia | symmetry; exact Hbs]. }
  destruct (v <? 2 ^ 32) eqn:E5; injection Hbs as Hbs.
  - apply (Hgen 254 4%nat); [auto 6 | simpl; lia | symmetry; exact Hbs].
  - apply (Hgen 255 8%nat); [auto 6 | simpl; lia | symmetry; exact Hbs].
Qed.

End TlvFacts2.

Section ComponentFacts.
Import TlvVar Component.

Lemma write_tl_num_at v bs pre zs :
  tl_num_bytes v = Ok bs ->
  (length bs <= length zs)%nat ->
  write_tl_num v (pre ++ zs) (length pre) = Ok (pre ++ bs ++ drop (length bs) zs).
Proof.
  intros Hbs Hlen. unfold write_tl_num. rewrite Hbs. cbn.
  rewrite length_app.
  destruct (Nat.leb_spec (length pre + length bs) (length pre + length zs)); [|lia].
  unfold blit. rewrite take_app_length, drop_app_add'; reflexivity.
Qed.

(** [from_bytes] yields the type, the length and the value in a row. *)
Lemma from_bytes_inv val typ c :
  from_bytes val typ = Ok c ->
  exists tb lb,
    tl_num_bytes typ = Ok tb /\
    tl_num_bytes (Z.of_nat (length val)) = Ok lb /\
    c = tb ++ lb ++ val.
Proof.
  unfold from_bytes. intros H.
  destruct (write_tl_num typ _ 0) as [r1|] eqn:E1; [|discriminate].
  cbn in H.
  destruct (write_tl_num (Z.of_nat (length val)) r1 _) as [r2|] eqn:E2;
    [|discriminate].
  cbn in H. injection H as <-.
  unfold write_tl_num in E1.
  destruct (tl_num_bytes typ) as [tb|] eqn:Et; [|discriminate].
  cbn in E1.
  unfold write_tl_num in E2.
  destruct (tl_num_bytes (Z.of_nat (length val))) as [lb|] eqn:El; [|discriminate].
  cbn in E2.
  pose proof (length_tl_num_bytes _ _ Et) as Ht.
  pose proof (length_tl_num_bytes _ _ El) as Hl.
  rewrite <- Ht, <- Hl in *.
  exists tb, lb. split; [reflexivity|]. split; [reflexivity|].
  destruct (_ <=? _)%nat; [|discriminate]. injection E1 as <-.
  destruct (_ <=? _)%nat eqn:E3; [|discriminate]. injection E2 as <-.
  rewrite (app_assoc tb lb val). f_equal. unfold blit.
  rewrite take_0. cbn [app Nat.add].
  rewrite (take_app_length' tb) by reflexivity.
  rewrite app_assoc. apply take_app_length'.
  rewrite length_app. reflexivity.
Qed.

Lemma from_bytes_intro val typ tb lb :
  tl_num_bytes typ = Ok tb ->
  tl_num_bytes (Z.of_nat (length val)) = Ok lb ->
  from_bytes val typ = Ok (tb ++ lb ++ val).
Proof.
  intros Et El.
  destruct (from_bytes val typ) as [c|e] eqn:E.
  - apply from_bytes_inv in E as (tb' & lb' & Et' & El' & ->). congruence.
  - exfalso. unfold from_bytes in E.
    pose proof (length_tl_num_bytes _ _ Et) as Ht.
    pose proof (length_tl_num_bytes _ _ El) as Hl.
    rewrite <- Ht, <- Hl in E.
    unfold write_tl_num in E. rewrite Et in E. cbn in E.
    rewrite length_replicate in E.
    destruct (Nat.leb_spec (length tb) (length tb + length lb + length val)); [|lia].
    cbn in E. rewrite El in E. cbn in E.
    unfold blit in E. rewrite take_0 in E. cbn [app Nat.add] in E.
    rewrite length_app, length_drop, length_replicate in E.
    destruct (Nat.leb_spec (length tb + length lb)
                (length tb + (length tb + length lb + length val - length tb)));
      [|lia].
    discriminate.
Qed.

End ComponentFacts.

Section ByteFacts.
Import Component.

Lemma decode_escape b : decode b = Uri.escape b.
Proof. destruct b; vm_compute; reflexivity. Qed.

Lemma hex2_lower b : Py.hex2 false b = Uri.hex_pair Uri.lower_digits b.
Proof. destruct b; vm_compute; reflexivity. Qed.

Lemma hex2_upper b : Py.hex2 true b = Uri.hex_pair Uri.upper_digits b.
Proof. destruct b; vm_compute; reflexivity. Qed.

Lemma decode_shape_b_true b : decode_shape_b b = true.
Proof. destruct b; vm_compute; reflexivity. Qed.

Lemma decode_shape b :
  (exists c, decode b = [c] /\ c <> "%"%char /\ Py.utf8_first c = b)
  \/ (exists h1 h2, decode b = ["%"%char; h1; h2]
                    /\ Py.int [h1; h2] 16 = Ok (Z_of_byte b)).
Proof.
  pose proof (decode_shape_b_true b) as H. unfold decode_shape_b in H.
  destruct (decode b) as [|c [|h1 [|h2 [|]]]]; try discriminate.
  - left. exists c. apply andb_true_iff in H as [H1 H2].
    split; [reflexivity|]. split.
    + apply negb_true_iff, Ascii.eqb_neq in H1. exact H1.
    + apply Byte.byte_dec_bl. exact H2.
  - right. exists h1, h2. apply andb_true_iff in H as [H1 H2].
    apply Ascii.eqb_eq in H1 as ->. split; [reflexivity|].
    destruct (Py.int [h1; h2] 16) as [v|]; [|discriminate].
    apply Z.eqb_eq in H2. congruence.
Qed.

Lemma decode_plain b : forallb plain (decode b) = true.
Proof. destruct b; vm_compute; reflexivity. Qed.

Lemma decode_length b :
  length (decode b) = (1 + 2 * count_percent (decode b))%nat.
Proof. destruct b; vm_compute; reflexivity. Qed.

Lemma hex2_plain b :
  forallb plain (Py.hex2 false b) = true /\ count_percent (Py.hex2 false b) = 0%nat.
Proof. destruct b; vm_compute; split; reflexivity. Qed.

Lemma fromhex_hex2 b r :
  Py.fromhex (Py.hex2 false b ++ r) = bs ← Py.fromhex r; Ok (b :: bs).
Proof. destruct b; reflexivity. Qed.

Lemma fromhex_hex bs : Py.fromhex (Py.hex bs) = Ok bs.
Proof.
  induction bs as [|b bs IH]; [reflexivity|].
  unfold Py.hex in *. cbn [flat_map]. rewrite fromhex_hex2, IH. reflexivity.
Qed.

End ByteFacts.

Section ScanFacts.
Import Component.

Lemma forallb_plain_flat_map {A} (f : A -> str) (l : list A) :
  (forall a, forallb plain (f a) = true) ->
  forallb plain (flat_map f l) = true.
Proof.
  intros Hf. induction l as [|a l IH]; [reflexivity|].
  cbn [flat_map]. rewrite forallb_app, Hf, IH. reflexivity.
Qed.

Lemma count_percent_app l1 l2 :
  count_percent (l1 ++ l2) = (count_percent l1 + count_percent l2)%nat.
Proof. induction l1 as [|c l1 IH]; cbn [app count_percent]; lia. Qed.

Lemma scan_plain l i pc t :
  forallb plain l = true ->
  scan l i pc t = Ok ((pc + count_percent l)%nat, t).
Proof.
  revert i pc. induction l as [|c l IH]; intros i pc H.
  - cbn. do 2 f_equal. lia.
  - cbn [forallb] in H. apply andb_true_iff in H as [Hc Hl].
    unfold plain in Hc. apply andb_true_iff in Hc as [Hc1 Hc2].
    cbn [scan count_percent]. rewrite Hc1. cbn [negb].
    apply negb_true_iff in Hc2. rewrite Hc2.
    rewrite IH by assumption. do 2 f_equal.
    destruct (Ascii.eqb c "%"); lia.
Qed.

Lemma scan_app l1 l2 i pc t :
  forallb plain l1 = true ->
  scan (l1 ++ l2) i pc t
  = scan l2 (i + length l1)%nat (pc + count_percent l1)%nat t.
Proof.
  revert i pc. induction l1 as [|c l IH]; intros i pc H.
  - cbn. f_equal; lia.
  - cbn [forallb] in H. apply andb_true_iff in H as [Hc Hl].
    unfold plain in Hc. apply andb_true_iff in Hc as [Hc1 Hc2].
    cbn [scan app count_percent length]. rewrite Hc1. cbn [negb].
    apply negb_true_iff in Hc2. rewrite Hc2.
    rewrite IH by assumption. f_equal; [lia|].
    destruct (Ascii.eqb c "%"); lia.
Qed.

Lemma length_escaped (bs : BinaryStr) :
  length (flat_map decode bs)
  = (length bs + 2 * count_percent (flat_map decode bs))%nat.
Proof.
  induction bs as [|b bs IH]; [reflexivity|].
  cbn [flat_map length]. rewrite length_app, count_percent_app, decode_length. lia.
Qed.

Lemma setitem_next (done : BinaryStr) (b : byte) (n : nat) :
  setitem (done ++ replicate (S n) Byte.x00) (length done) (Z_of_byte b)
  = Ok ((done ++ [b]) ++ replicate n Byte.x00).
Proof.
  unfold setitem. rewrite length_app, length_replicate.
  destruct (Nat.ltb_spec (length done) (length done + S n)); [|lia].
  pose proof (Z_of_byte_range b) as Hb.
  replace ((0 <=? Z_of_byte b) && (Z_of_byte b <=? 255)) with true by lia.
  rewrite byte_of_Z_of_byte. f_equal.
  rewrite insert_app_r_alt by lia. rewrite Nat.sub_diag.
  cbn. rewrite <- app_assoc. reflexivity.
Qed.

(** The second loop of [from_str] decodes what [to_str] escaped. *)
Lemma encode_loop_escaped (rest : BinaryStr) :
  forall (pre : str) (done : BinaryStr) (fuel : nat),
    (length (flat_map decode rest) <= fuel)%nat ->
    encode_loop fuel (pre ++ flat_map decode rest) (length pre) (length done)
                (done ++ replicate (length rest) Byte.x00)
    = Ok (done ++ rest).
Proof.
  induction rest as [|b rest IH]; intros pre done fuel Hfuel.
  - cbn [flat_map length replicate]. rewrite !app_nil_r.
    destruct fuel; cbn [encode_loop]; rewrite Nat.ltb_irrefl; reflexivity.
  - cbn [flat_map length] in *. rewrite length_app in Hfuel.
    pose proof (decode_length b) as Hlen.
    destruct fuel as [|fuel]; [lia|].
    cbn [encode_loop]. rewrite !length_app.
    destruct (Nat.ltb_spec (length pre)
                (length pre + (length (decode b) + length (flat_map decode rest))));
      [|lia].
    unfold encode.
    destruct (decode_shape b) as [(c & Hd & Hc & Hu)|(h1 & h2 & Hd & Hi)];
      rewrite Hd in *; cbn [app].
    + rewrite list_lookup_middle by reflexivity.
      apply Ascii.eqb_neq in Hc. rewrite Hc. cbn [negb].
      rewrite Hu, setitem_next. cbn.
      rewrite (cons_middle c pre), app_assoc.
      replace (length pre + 1)%nat with (length (pre ++ [c]))
        by (rewrite length_app; reflexivity).
      replace (S (length done)) with (length (done ++ [b]))
        by (rewrite length_app; cbn; lia).
      rewrite IH by (cbn in Hfuel; lia).
      rewrite <- app_assoc. reflexivity.
    + rewrite list_lookup_middle by reflexivity.
      rewrite Ascii.eqb_refl. cbn [negb].
      rewrite (cons_middle "%"%char pre), app_assoc.
      rewrite drop_app_length' by (rewrite length_app; cbn; lia).
      change (take 2 (h1 :: h2 :: flat_map decode rest)) with [h1; h2].
      rewrite Hi. cbn [mbind result_bind rbind].
      rewrite setitem_next. cbn [mbind result_bind rbind].
      replace ((pre ++ ["%"%char]) ++ h1 :: h2 :: flat_map decode rest)
        with ((pre ++ ["%"%char; h1; h2]) ++ flat_map decode rest)
        by (rewrite <- !app_assoc; reflexivity).
      replace (length pre + 3)%nat with (length (pre ++ ["%"%char; h1; h2]))
        by (rewrite length_app; reflexivity).
      replace (S (length done)) with (length (done ++ [b]))
        by (rewrite length_app; cbn; lia).
      rewrite IH by (cbn in Hfuel; lia).
      rewrite <- app_assoc. reflexivity.
Qed.

End ScanFacts.

Section DecimalFacts.
Import Component.

Lemma digit_char_cases c :
  digit_char c ->
  c = "0"%char \/ c = "1"%char \/ c = "2"%char \/ c = "3"%char \/ c = "4"%char
  \/ c = "5"%char \/ c = "6"%char \/ c = "7"%char \/ c = "8"%char \/ c = "9"%char.
Proof.
  intros (d & Hd & ->).
  assert (d = 0 \/ d = 1 \/ d = 2 \/ d = 3 \/ d = 4 \/ d = 5 \/ d = 6 \/ d = 7
          \/ d = 8 \/ d = 9) as H by lia.
  repeat (destruct H as [-> | H]; [tauto|]). subst d. tauto.
Qed.

Ltac digit_cases H :=
  apply digit_char_cases in H;
  repeat (destruct H as [-> | H]); try subst.

Lemma digit_char_plain c :
  digit_char c -> plain c = true /\ Ascii.eqb c "%"%char = false.
Proof. intros H. digit_cases H; split; reflexivity. Qed.

Lemma digit_char_val c :
  digit_char c ->
  Ascii.eqb c "_"%char = false /\ Py.digit_val 10 c = Some (ord c - 48).
Proof. intros H. digit_cases H; split; reflexivity. Qed.

Lemma digit_char_head c :
  digit_char c ->
  Py.is_space c = false /\ Ascii.eqb c "-"%char = false
  /\ Ascii.eqb c "+"%char = false.
Proof. intros H. digit_cases H; repeat split; reflexivity. Qed.

Lemma digit_char_not_letter c :
  digit_char c -> c <> "s"%char /\ c <> "p"%char.
Proof. intros H. digit_cases H; split; discriminate. Qed.

Lemma ord_chr z : 0 <= z < 256 -> ord (chr z) = z.
Proof.
  intros Hz. unfold ord, chr. rewrite N_ascii_embedding by lia. lia.
Qed.

Lemma dval_app acc l1 l2 : dval acc (l1 ++ l2) = dval (dval acc l1) l2.
Proof. revert acc. induction l1; intros; cbn; auto. Qed.

Lemma digits_dval l acc prev :
  Forall digit_char l -> l <> [] \/ prev = true ->
  Py.digits 10 acc prev l = Ok (dval acc l).
Proof.
  intros Hl. revert acc prev. induction Hl as [|c l Hc Hl IH]; intros acc prev Hne.
  - destruct Hne as [Hne| ->]; [congruence|reflexivity].
  - cbn [Py.digits dval]. destruct (digit_char_val c Hc) as [-> ->].
    apply IH. right. reflexivity.
Qed.

Lemma dec_digits_rev_spec fuel n :
  (0 < fuel)%nat -> 0 <= n < 2 ^ Z.of_nat fuel ->
  Forall digit_char (Py.dec_digits_rev fuel n)
  /\ Py.dec_digits_rev fuel n <> []
  /\ dval 0 (rev (Py.dec_digits_rev fuel n)) = n.
Proof.
  revert n. induction fuel as [|fuel IH]; intros n Hf Hn; [lia|].
  cbn [Py.dec_digits_rev].
  destruct (Z.ltb_spec n 10) as [Hlt|Hge].
  - split; [|split].
    + constructor; [|constructor]. exists n. split; [lia|reflexivity].
    + discriminate.
    + cbn. rewrite ord_chr by lia. lia.
  - rewrite Nat2Z.inj_succ, Z.pow_succ_r in Hn by lia.
    assert (0 < fuel)%nat as Hf'.
    { destruct fuel; [cbn in Hn; lia|lia]. }
    assert (0 <= n / 10 < 2 ^ Z.of_nat fuel) as Hn'.
    { split; [apply Z.div_pos; lia|].
      apply Z.div_lt_upper_bound; lia. }
    destruct (IH (n / 10) Hf' Hn') as (H1 & H2 & H3).
    pose proof (Z.mod_pos_bound n 10 ltac:(lia)) as Hm.
    split; [|split].
    + constructor; [|exact H1]. exists (n mod 10). split; [lia|reflexivity].
    + discriminate.
    + cbn [rev]. rewrite dval_app, H3. cbn. rewrite ord_chr by lia.
      pose proof (Z.div_mod n 10 ltac:(lia)). lia.
Qed.

Lemma format_int_spec n :
  0 <= n ->
  Forall digit_char (Py.format_int n)
  /\ Py.format_int n <> []
  /\ dval 0 (Py.format_int n) = n.
Proof.
  intros Hn. unfold Py.format_int.
  destruct (Z.ltb_spec n 0); [lia|].
  assert (n < 2 ^ Z.of_nat (S (Z.to_nat (Z.log2 n)))) as Hb.
  { rewrite Nat2Z.inj_succ, Z2Nat.id by apply Z.log2_nonneg.
    destruct (Z.eq_dec n 0) as [->|]; [reflexivity|].
    apply Z.log2_spec. lia. }
  destruct (dec_digits_rev_spec (S (Z.to_nat (Z.log2 n))) n) as (H1 & H2 & H3);
    [lia|lia|].
  split; [|split].
  - apply Forall_rev. exact H1.
  - intros E. apply H2. apply (f_equal (@rev ascii)) in E.
    rewrite rev_involutive in E. exact E.
  - exact H3.
Qed.

Lemma lstrip_digits l : Forall digit_char l -> Py.lstrip l = l.
Proof.
  intros [|c r Hc _]; [reflexivity|].
  cbn. destruct (digit_char_head c Hc) as (-> & _). reflexivity.
Qed.

Lemma int_digits l :
  Forall digit_char l -> l <> [] -> Py.int l 10 = Ok (dval 0 l).
Proof.
  intros Hl Hne. unfold Py.int, Py.strip.
  rewrite (lstrip_digits l Hl).
  rewrite (lstrip_digits (rev l)) by (apply Forall_rev; exact Hl).
  rewrite rev_involutive.
  destruct l as [|c r]; [congruence|].
  pose proof (Forall_inv Hl) as Hc.
  destruct (digit_char_head c Hc) as (_ & -> & ->).
  cbn [Z.eqb andb]. change (10 =? 16) with false. cbn [andb].
  rewrite digits_dval by (auto). reflexivity.
Qed.

Lemma int_format_int n : 0 <= n -> Py.int (Py.format_int n) 10 = Ok n.
Proof.
  intros Hn. destruct (format_int_spec n Hn) as (H1 & H2 & H3).
  rewrite int_digits by assumption. congruence.
Qed.

Lemma format_int_plain n :
  0 <= n ->
  forallb plain (Py.format_int n) = true /\ count_percent (Py.format_int n) = 0%nat.
Proof.
  intros Hn. destruct (format_int_spec n Hn) as (H1 & _ & _).
  induction H1 as [|c l Hc Hl IH]; [split; reflexivity|].
  destruct IH as [IH1 IH2]. destruct (digit_char_plain c Hc) as [Hp Hq].
  cbn [forallb count_percent]. rewrite Hp, Hq, IH1, IH2. split; reflexivity.
Qed.

Lemma format_int_not_digest n :
  0 <= n ->
  str_eqb (Py.format_int n) (lit "sha256digest") = false
  /\ str_eqb (Py.format_int n) (lit "params-sha256") = false.
Proof.
  intros Hn. destruct (format_int_spec n Hn) as (H1 & _ & _).
  unfold str_eqb.
  split; apply bool_decide_eq_false; intros E; rewrite E in H1;
    apply Forall_inv in H1; apply digit_char_not_letter in H1; tauto.
Qed.

End DecimalFacts.

Section RoundTrip.
Import TlvVar Component.

Lemma write_tl_num_at0 v bs zs :
  tl_num_bytes v = Ok bs ->
  (length bs <= length zs)%nat ->
  write_tl_num v zs 0 = Ok (bs ++ drop (length bs) zs).
Proof. apply (write_tl_num_at v bs [] zs). Qed.

Lemma alloc_and_encode_escaped (pre : str) (bs : BinaryStr) typ tb lb off :
  tl_num_bytes typ = Ok tb ->
  tl_num_bytes (Z.of_nat (length bs)) = Ok lb ->
  off + 1 = Z.of_nat (length pre) ->
  alloc_and_encode (pre ++ flat_map decode bs)
                   (count_percent (flat_map decode bs)) typ off
  = Ok (tb ++ lb ++ bs).
Proof.
  intros Et El Hoff. unfold alloc_and_encode.
  pose proof (length_escaped bs) as Hlen.
  replace (Z.of_nat (length (pre ++ flat_map decode bs)) - off - 1
           - 2 * Z.of_nat (count_percent (flat_map decode bs)))
    with (Z.of_nat (length bs)) by (rewrite length_app; lia).
  destruct (Z.ltb_spec (Z.of_nat (length bs)) 0); [lia|].
  rewrite <- (length_tl_num_bytes _ _ Et), <- (length_tl_num_bytes _ _ El).
  rewrite Nat2Z.id.
  rewrite <- Nat.add_assoc, replicate_add.
  rewrite (write_tl_num_at0 typ tb _ Et)
    by (rewrite length_app, length_replicate; lia).
  rewrite drop_app_length' by (rewrite length_replicate; reflexivity).
  cbn [app mbind result_bind rbind].
  rewrite replicate_add.
  rewrite (write_tl_num_at _ lb tb _ El)
    by (rewrite length_app, length_replicate; lia).
  rewrite drop_app_length' by (rewrite length_replicate; reflexivity).
  cbn [mbind result_bind rbind].
  rewrite Hoff, Nat2Z.id, app_assoc, <- length_app.
  rewrite encode_loop_escaped by (rewrite length_app; lia).
  rewrite <- app_assoc. reflexivity.
Qed.

Lemma scan_eq_sign r i pc :
  scan ("="%char :: r) i pc None = scan r (S i) pc (Some i).
Proof. reflexivity. Qed.

Lemma from_str_typed (pre body : str) :
  forallb plain pre = true -> count_percent pre = 0%nat ->
  forallb plain body = true ->
  from_str (pre ++ "="%char :: body)
  = if str_eqb pre (lit "sha256digest")
    then bs ← Py.fromhex body; from_bytes bs TYPE_IMPLICIT_SHA256
    else if str_eqb pre (lit "params-sha256")
    then bs ← Py.fromhex body; from_bytes bs TYPE_PARAMETERS_SHA256
    else typ ← Py.int pre 10;
         alloc_and_encode (pre ++ "="%char :: body) (count_percent body) typ
                          (Z.of_nat (length pre)).
Proof.
  intros Hpre Hcnt Hbody. unfold from_str.
  destruct (pre ++ "="%char :: body) as [|c0 r0] eqn:E.
  { destruct pre; discriminate. }
  rewrite <- E. clear E c0 r0.
  rewrite scan_app, scan_eq_sign, scan_plain by assumption.
  rewrite Hcnt. cbn [mbind result_bind rbind Nat.add].
  rewrite take_app_length.
  rewrite (cons_middle _ pre), app_assoc, drop_app_length'
    by (rewrite length_app; cbn; lia).
  rewrite <- app_assoc. reflexivity.
Qed.

Lemma from_str_untyped (body : str) :
  body <> [] -> forallb plain body = true ->
  from_str body = alloc_and_encode body (count_percent body) TYPE_GENERIC (-1).
Proof.
  intros Hne Hbody. unfold from_str.
  destruct body as [|c0 r0] eqn:E; [congruence|].
  rewrite <- E in *. rewrite scan_plain by assumption. reflexivity.
Qed.

Lemma rendered_segment typ value : rendered typ value = Uri.segment typ value.
Proof.
  unfold rendered, Uri.segment, Py.hex.
  change TYPE_IMPLICIT_SHA256 with 1. change TYPE_PARAMETERS_SHA256 with 2.
  change TYPE_GENERIC with 8.
  assert (Hh : flat_map (Py.hex2 false) value
               = flat_map (Uri.hex_pair Uri.lower_digits) value).
  { apply flat_map_ext, hex2_lower. }
  assert (Hd : flat_map decode value = flat_map Uri.escape value).
  { apply flat_map_ext, decode_escape. }
  rewrite Hh, Hd. destruct (typ =? 1), (typ =? 2), (typ =? 8); reflexivity.
Qed.

Lemma to_str_encoded typ value tb lb :
  tl_num_bytes typ = Ok tb ->
  tl_num_bytes (Z.of_nat (length value)) = Ok lb ->
  to_str (tb ++ lb ++ value) = Ok (rendered typ value).
Proof.
  intros Et El. unfold to_str.
  pose proof (parse_tl_num_bytes typ tb [] (lb ++ value) Et) as Hp.
  cbn [app length] in Hp. rewrite Hp.
  cbn [mbind result_bind rbind].
  rewrite (parse_tl_num_bytes _ lb tb value El).
  cbn [mbind result_bind rbind].
  rewrite !length_app.
  destruct (Z.eqb_spec (Z.of_nat (length tb + (length lb + length value)))
              (Z.of_nat (length value) + Z.of_nat (length tb + length lb)));
    [|lia].
  cbn [negb]. rewrite app_assoc, drop_app_length'
    by (rewrite length_app; reflexivity).
  unfold rendered.
  destruct (typ =? TYPE_IMPLICIT_SHA256); [reflexivity|].
  destruct (typ =? TYPE_PARAMETERS_SHA256); reflexivity.
Qed.

Lemma from_str_rendered typ value tb lb :
  tl_num_bytes typ = Ok tb ->
  tl_num_bytes (Z.of_nat (length value)) = Ok lb ->
  from_str (rendered typ value) = Ok (tb ++ lb ++ value).
Proof.
  intros Et El. pose proof (tl_num_bytes_range _ _ Et) as Hr.
  assert (Hhex : forallb plain (Py.hex value) = true).
  { apply forallb_plain_flat_map. intros b. apply hex2_plain. }
  assert (Hesc : forallb plain (flat_map decode value) = true).
  { apply forallb_plain_flat_map. apply decode_plain. }
  unfold rendered.
  destruct (Z.eqb_spec typ TYPE_IMPLICIT_SHA256) as [->|H1].
  { change (lit "sha256digest=") with (lit "sha256digest" ++ ["="%char]).
    rewrite <- app_assoc. cbn [app].
    rewrite from_str_typed by (assumption || reflexivity).
    change (str_eqb (lit "sha256digest") (lit "sha256digest")) with true.
    cbv iota. rewrite fromhex_hex. cbn [mbind result_bind rbind].
    apply from_bytes_intro; assumption. }
  destruct (Z.eqb_spec typ TYPE_PARAMETERS_SHA256) as [->|H2].
  { change (lit "params-sha256=") with (lit "params-sha256" ++ ["="%char]).
    rewrite <- app_assoc. cbn [app].
    rewrite from_str_typed by (assumption || reflexivity).
    change (str_eqb (lit "params-sha256") (lit "sha256digest")) with false.
    change (str_eqb (lit "params-sha256") (lit "params-sha256")) with true.
    cbv iota. rewrite fromhex_hex. cbn [mbind result_bind rbind].
    apply from_bytes_intro; assumption. }
  destruct (Z.eqb_spec typ TYPE_GENERIC) as [->|H3]; cbn [negb app].
  - destruct value as [|b value].
    + cbn in El. injection El as <-. cbn in Et. injection Et as <-. reflexivity.
    + rewrite from_str_untyped; [|shelve|assumption].
      apply (alloc_and_encode_escaped [] (b :: value)); auto.
  - change (lit "=") with ["="%char]. rewrite <- app_assoc. cbn [app].
    destruct (format_int_plain typ) as [Hp Hc]; [lia|].
    destruct (format_int_not_digest typ) as [Hn1 Hn2]; [lia|].
    rewrite from_str_typed by assumption.
    rewrite Hn1, Hn2, int_format_int by lia.
    cbn [mbind result_bind rbind].
    rewrite (cons_middle _ (Py.format_int typ)), app_assoc.
    apply alloc_and_encode_escaped; auto.
    rewrite length_app. cbn. lia.
  Unshelve.
  cbn [flat_map]. pose proof (decode_length b).
  destruct (decode b); [cbn in *; lia|discriminate].
Qed.

End RoundTrip.

Section UriFacts.
Import TlvVar Component.

(** C4. A canonically encoded component, that is the result [c] of
    [from_bytes] for a type and a value, comes back from
    [from_str (to_str c)] byte for byte; [to_str] renders it as the
    documentation says: the two digest types by their prefixes and
    lowercase hexadecimal digits, another type than the generic one as
    its decimal number and an equals sign, every byte that is not
    unreserved as a percent sign and two uppercase hexadecimal digits;
    the generic component without a value is the empty string. *)
Theorem from_str_to_str_roundtrip (value : BinaryStr) (typ : Z) (c : BinaryStr) :
  from_bytes value typ = Ok c ->
  to_str c = Ok (Uri.segment typ value)
  /\ from_str (Uri.segment typ value) = Ok c
  /\ (typ = TYPE_GENERIC -> value = [] -> Uri.segment typ value = []).
Proof.
  intros H. apply from_bytes_inv in H as (tb & lb & Et & El & ->).
  rewrite <- rendered_segment.
  split; [apply to_str_encoded; assumption|].
  split; [apply from_str_rendered; assumption|].
  intros -> ->. reflexivity.
Qed.

(** C7, at the input the code gets wrong: the percent sign followed by
    a minus sign and a zero is no percent-escape, and [from_str] returns
    the generic component of the single byte 0 for it. *)
Theorem from_str_accepts_signed_escape :
  from_str (lit "%-0") = Ok [Byte.x08; Byte.x01; Byte.x00].
Proof. vm_compute. reflexivity. Qed.

(** The rest of C7 holds: a character outside [CHARSET] and a second
    equals sign are refused. *)
Lemma scan_bad_char (l : str) (i pc : nat) (t : option nat) (c : ascii) :
  c ∈ l -> CHARSET c = false -> scan l i pc t = Raise ValueError.
Proof.
  intros Hin Hbad. revert i pc t.
  induction l as [|a l IH]; intros i pc t; [inversion Hin|].
  cbn [scan]. destruct (CHARSET a) eqn:Ha; [|reflexivity]. cbn [negb].
  apply elem_of_cons in Hin as [->|Hin]; [congruence|].
  destruct (Ascii.eqb a "="); [destruct t; [reflexivity|]|]; apply IH; exact Hin.
Qed.

(** X1. [from_str] raises [ValueError] for every string that holds
    a character outside [CHARSET]. *)
Lemma from_str_bad_char (val : str) (c : ascii) :
  c ∈ val -> CHARSET c = false -> from_str val = Raise ValueError.
Proof.
  intros Hin Hbad. unfold from_str.
  destruct val as [|a val]; [inversion Hin|].
  rewrite (scan_bad_char _ _ _ _ c Hin Hbad). reflexivity.
Qed.

Lemma scan_second_equals (l : str) (i pc o : nat) :
  "="%char ∈ l -> scan l i pc (Some o) = Raise ValueError.
Proof.
  intros Hin. revert i pc.
  induction l as [|a l IH]; intros i pc; [inversion Hin|].
  cbn [scan]. destruct (CHARSET a); [|reflexivity]. cbn [negb].
  destruct (Ascii.eqb_spec a "="%char) as [->|Hne]; [reflexivity|].
  apply elem_of_cons in Hin as [Heq|Hin]; [congruence|]. apply IH. exact Hin.
Qed.

Lemma scan_two_equals (a b : str) (i pc : nat) (t : option nat) :
  "="%char ∈ b -> scan (a ++ "="%char :: b) i pc t = Raise ValueError.
Proof.
  intros Hin. revert i pc t.
  induction a as [|x a IH]; intros i pc t; cbn [app scan].
  - destruct t; [reflexivity|]. cbn. apply scan_second_equals. exact Hin.
  - destruct (CHARSET x); [|reflexivity]. cbn [negb].
    destruct (Ascii.eqb x "="); [destruct t; [reflexivity|]|]; apply IH.
Qed.

(** X2. [from_str] raises [ValueError] for every string with two
    equals signs. *)
Lemma from_str_two_equals (a b : str) :
  "="%char ∈ b -> from_str (a ++ "="%char :: b) = Raise ValueError.
Proof.
  intros Hin. unfold from_str.
  destruct (a ++ "="%char :: b) as [|x r] eqn:E; [destruct a; discriminate|].
  rewrite <- E, (scan_two_equals a b 0 0 None Hin). reflexivity.
Qed.

Lemma digits_raises (base acc : Z) (prev : bool) (s : str) (e : exn) :
  Py.digits base acc prev s = Raise e -> e = ValueError.
Proof.
  revert acc prev. induction s as [|c s IH]; intros acc prev; cbn [Py.digits].
  - destruct prev; [discriminate|]. intros [= <-]. reflexivity.
  - destruct (Ascii.eqb c "_").
    + destruct prev; [apply IH|]. intros [= <-]. reflexivity.
    + destruct (Py.digit_val base c); [apply IH|]. intros [= <-]. reflexivity.
Qed.

Lemma int_raises (s : str) (base : Z) (e : exn) :
  Py.int s base = Raise e -> e = ValueError.
Proof.
  unfold Py.int.
  destruct (match Py.strip s with
            | [] => (false, Py.strip s)
            | c :: r => _
            end) as [neg s2].
  destruct (Py.digits base 0 false _) as [v|e'] eqn:Hd;
    cbn [mbind result_bind rbind]; [discriminate|].
  intros [= <-]. eapply digits_raises. exact Hd.
Qed.

Lemma setitem_raises (view : BinaryStr) (pos : nat) (v : Z) (e : exn) :
  setitem view pos v = Raise e -> e = ValueError \/ e = IndexError.
Proof.
  unfold setitem. destruct (pos <? length view)%nat.
  - destruct ((0 <=? v) && (v <=? 255)); [discriminate|].
    intros [= <-]. left. reflexivity.
  - intros [= <-]. right. reflexivity.
Qed.

(** The fuel of the second loop is enough: [from_str] returns or raises
    an exception of Python. *)
Lemma encode_loop_fuel (fuel : nat) (val : str) (i pos : nat) (view : BinaryStr) :
  (length val - i <= fuel)%nat ->
  encode_loop fuel val i pos view <> Raise OutOfFuel.
Proof.
  revert i pos view. induction fuel as [|fuel IH]; intros i pos view Hf;
    cbn [encode_loop]; destruct (Nat.ltb_spec i (length val)); try discriminate;
    [lia|].
  unfold encode. destruct (val !! i) as [ch|]; [|discriminate].
  destruct (negb (Ascii.eqb ch "%")).
  - destruct (setitem view pos _) as [v|e] eqn:Hs; cbn [mbind result_bind rbind].
    + apply IH. lia.
    + apply setitem_raises in Hs as [-> | ->]; discriminate.
  - destruct (Py.int _ 16) as [x|e] eqn:Hint; cbn [mbind result_bind rbind].
    + destruct (setitem view pos x) as [v|e] eqn:Hs; cbn [mbind result_bind rbind].
      * apply IH. lia.
      * apply setitem_raises in Hs as [-> | ->]; discriminate.
    + apply int_raises in Hint as ->. discriminate.
Qed.

Lemma tl_num_bytes_raises (v : Z) (e : exn) :
  tl_num_bytes v = Raise e -> e = StructError.
Proof.
  unfold tl_num_bytes. destruct ((v <? 0) || (2 ^ 64 <=? v)).
  - intros [= <-]. reflexivity.
  - repeat destruct (_ <? _); discriminate.
Qed.

Lemma write_tl_num_raises (v : Z) (buf : BinaryStr) (offset : nat) (e : exn) :
  write_tl_num v buf offset = Raise e -> e = StructError.
Proof.
  unfold write_tl_num. destruct (tl_num_bytes v) as [bs|e'] eqn:Hb;
    cbn [mbind result_bind rbind].
  - destruct (_ <=? _)%nat; [discriminate|]. intros [= <-]. reflexivity.
  - intros [= <-]. eapply tl_num_bytes_raises. exact Hb.
Qed.

Lemma from_bytes_raises (val : BinaryStr) (typ : Z) (e : exn) :
  from_bytes val typ = Raise e -> e = StructError.
Proof.
  unfold from_bytes.
  destruct (write_tl_num typ _ 0) as [r1|e1] eqn:H1; cbn [mbind result_bind rbind].
  - destruct (write_tl_num _ r1 _) as [r2|e2] eqn:H2; cbn [mbind result_bind rbind].
    + discriminate.
    + intros [= <-]. eapply write_tl_num_raises. exact H2.
  - intros [= <-]. eapply write_tl_num_raises. exact H1.
Qed.

Lemma fromhex_raises_le (n : nat) (s : str) (e : exn) :
  (length s <= n)%nat -> Py.fromhex s = Raise e -> e = ValueError.
Proof.
  revert s. induction n as [|n IH]; intros [|c r] Hlen; cbn [Py.fromhex length] in *;
    try discriminate; try lia.
  destruct (Py.is_ascii_space c); [apply IH; lia|].
  destruct (Py.digit_val 16 c); [|intros [= <-]; reflexivity].
  destruct r as [|c2 r2]; [intros [= <-]; reflexivity|].
  destruct (Py.digit_val 16 c2); [|intros [= <-]; reflexivity].
  destruct (Py.fromhex r2) as [bs|e'] eqn:Hr; cbn [mbind result_bind rbind];
    [discriminate|].
  intros [= <-]. apply (IH r2); [cbn [length] in Hlen; lia|exact Hr].
Qed.

Lemma fromhex_raises (s : str) (e : exn) :
  Py.fromhex s = Raise e -> e = ValueError.
Proof. apply (fromhex_raises_le (length s)). lia. Qed.

Lemma scan_raises (l : str) (i pc : nat) (t : option nat) (e : exn) :
  scan l i pc t = Raise e -> e = ValueError.
Proof.
  revert i pc t. induction l as [|c l IH]; intros i pc t; cbn [scan];
    [discriminate|].
  destruct (negb (CHARSET c)); [intros [= <-]; reflexivity|].
  destruct (Ascii.eqb c "="); [destruct t; [intros [= <-]; reflexivity|]|];
    apply IH.
Qed.

Lemma alloc_and_encode_total (val : str) (pc : nat) (typ off : Z) :
  -1 <= off ->
  alloc_and_encode val pc typ off <> Raise OutOfFuel.
Proof.
  intros Hoff. unfold alloc_and_encode.
  destruct (_ <? 0); [discriminate|].
  destruct (write_tl_num typ _ 0) as [r1|e1] eqn:H1; cbn [mbind result_bind rbind];
    [|apply write_tl_num_raises in H1 as ->; discriminate].
  destruct (write_tl_num _ r1 _) as [r2|e2] eqn:H2; cbn [mbind result_bind rbind];
    [|apply write_tl_num_raises in H2 as ->; discriminate].
  apply encode_loop_fuel. lia.
Qed.

(** [from_str] returns a component or raises an exception of Python on
    every input. *)
Lemma from_str_total (val : str) : from_str val <> Raise OutOfFuel.
Proof.
  unfold from_str. destruct val as [|c0 r0]; [discriminate|].
  destruct (scan _ 0 0 None) as [[pc t]|e] eqn:Hs; cbn [mbind result_bind rbind];
    [|apply scan_raises in Hs as ->; discriminate].
  destruct t as [off|]; [|apply alloc_and_encode_total; lia].
  destruct (str_eqb _ _).
  { destruct (Py.fromhex _) as [bs|e] eqn:Hh; cbn [mbind result_bind rbind];
      [|apply fromhex_raises in Hh as ->; discriminate].
    destruct (from_bytes bs _) as [c|e] eqn:Hb; [discriminate|].
    apply from_bytes_raises in Hb as ->. discriminate. }
  destruct (str_eqb _ _).
  { destruct (Py.fromhex _) as [bs|e] eqn:Hh; cbn [mbind result_bind rbind];
      [|apply fromhex_raises in Hh as ->; discriminate].
    destruct (from_bytes bs _) as [c|e] eqn:Hb; [discriminate|].
    apply from_bytes_raises in Hb as ->. discriminate. }
  destruct (Py.int _ 10) as [typ|e] eqn:Hi; cbn [mbind result_bind rbind];
    [|apply int_raises in Hi as ->; discriminate].
  apply alloc_and_encode_total. lia.
Qed.

End UriFacts.

Section ComponentUse.
Import TlvVar Component.

(** *** Reading a component back *)

Lemma header_parse (typ n : Z) (tb lb rest : BinaryStr) :
  tl_num_bytes typ = Ok tb -> tl_num_bytes n = Ok lb ->
  parse_tl_num (tb ++ lb ++ rest) 0 = Ok (typ, length tb)
  /\ parse_tl_num (tb ++ lb ++ rest) (length tb) = Ok (n, length lb).
Proof.
  intros Et El. split.
  - apply (parse_tl_num_bytes typ tb [] (lb ++ rest) Et).
  - apply (parse_tl_num_bytes n lb tb rest El).
Qed.

Lemma int_from_bytes_unpack (bs : BinaryStr) :
  Py.int_from_bytes bs = unpack_be bs 0.
Proof.
  unfold Py.int_from_bytes. generalize 0.
  induction bs as [|b bs IH]; intros acc; cbn [fold_left unpack_be];
    [reflexivity|apply IH].
Qed.

Lemma read_encoded (typ : Z) (value tb lb : BinaryStr) :
  tl_num_bytes typ = Ok tb ->
  tl_num_bytes (Z.of_nat (length value)) = Ok lb ->
  get_type (tb ++ lb ++ value) = Ok typ
  /\ get_value (tb ++ lb ++ value) = Ok value
  /\ to_number (tb ++ lb ++ value) = Ok (Py.int_from_bytes value).
Proof.
  intros Et El.
  destruct (header_parse _ _ tb lb value Et El) as [Ht Hl].
  unfold get_type, get_value, to_number. rewrite Ht.
  cbn [mbind result_bind rbind]. rewrite Hl. cbn [mbind result_bind rbind].
  rewrite app_assoc, drop_app_length' by (rewrite length_app; reflexivity).
  repeat split; reflexivity.
Qed.

(** X3. The type and the value [from_bytes] was given come back from
    [get_type] and [get_value], and [to_number] reads the value as a
    big-endian number, whatever the type. *)
Theorem from_bytes_read_back (value : BinaryStr) (typ : Z) (c : BinaryStr) :
  from_bytes value typ = Ok c ->
  get_type c = Ok typ
  /\ get_value c = Ok value
  /\ to_number c = Ok (Py.int_from_bytes value).
Proof.
  intros H. apply from_bytes_inv in H as (tb & lb & Et & El & ->).
  apply read_encoded; assumption.
Qed.

(** X4. [to_str] checks the length field against the bytes that
    follow the header and raises [ValueError] when they differ;
    [get_value] makes no such check and returns whatever follows. *)
Theorem to_str_checks_length (value payload : BinaryStr) (typ : Z) (c : BinaryStr) :
  from_bytes value typ = Ok c ->
  length payload <> length value ->
  to_str (take (length c - length value) c ++ payload) = Raise ValueError
  /\ get_value (take (length c - length value) c ++ payload) = Ok payload.
Proof.
  intros H Hne. apply from_bytes_inv in H as (tb & lb & Et & El & ->).
  replace (take _ (tb ++ lb ++ value)) with (tb ++ lb).
  2:{ rewrite (app_assoc tb lb value). symmetry. apply take_app_length'.
      rewrite !length_app. lia. }
  rewrite <- (app_assoc tb lb payload).
  destruct (header_parse _ _ tb lb payload Et El) as [Ht Hl].
  unfold to_str, get_value. rewrite Ht. cbn [mbind result_bind rbind].
  rewrite Hl. cbn [mbind result_bind rbind].
  split.
  - rewrite !length_app.
    destruct (Z.eqb_spec (Z.of_nat (length tb + (length lb + length payload)))
                (Z.of_nat (length value) + Z.of_nat (length tb + length lb)));
      [lia|reflexivity].
  - rewrite app_assoc, drop_app_length' by (rewrite length_app; reflexivity).
    reflexivity.
Qed.

(** *** Hexadecimal values *)

Lemma fromhex_hex2_any (upper : bool) (b : byte) (r : str) :
  Py.fromhex (Py.hex2 upper b ++ r) = bs ← Py.fromhex r; Ok (b :: bs).
Proof. destruct upper, b; reflexivity. Qed.

(** X5. [from_hex] reads the hexadecimal digits of a value, lowercase
    as [bytes.hex] writes them or uppercase, back into the component
    [from_bytes] builds of that value. *)
Theorem from_hex_of_hex (upper : bool) (value : BinaryStr) (typ : Z) :
  from_hex (flat_map (Py.hex2 upper) value) typ = from_bytes value typ.
Proof.
  unfold from_hex.
  assert (H : Py.fromhex (flat_map (Py.hex2 upper) value) = Ok value).
  { induction value as [|b value IH]; [reflexivity|].
    cbn [flat_map]. rewrite fromhex_hex2_any, IH. reflexivity. }
  rewrite H. reflexivity.
Qed.

(** *** Numbers *)

(** X6. A number comes back from [to_number] out of the component
    [from_number] made of it, with the type that was asked for, as
    soon as the bytes [pack_uint_bytes] gave are the number's
    big-endian digits; the five named constructors put their own type:
    33 for a segment, 34 for a byte offset, 37 for a sequence number,
    35 for a version and 36 for a timestamp. *)
Theorem from_number_read_back (pack_uint_bytes : Z -> result BinaryStr)
        (val : Z) (bs : BinaryStr) :
  pack_uint_bytes val = Ok bs -> Py.int_from_bytes bs = val ->
  (forall typ c, from_number pack_uint_bytes val typ = Ok c ->
                 get_type c = Ok typ /\ to_number c = Ok val)
  /\ (forall c, from_segment pack_uint_bytes val = Ok c ->
                get_type c = Ok 33 /\ to_number c = Ok val)
  /\ (forall c, from_byte_offset pack_uint_bytes val = Ok c ->
                get_type c = Ok 34 /\ to_number c = Ok val)
  /\ (forall c, from_sequence_num pack_uint_bytes val = Ok c ->
                get_type c = Ok 37 /\ to_number c = Ok val)
  /\ (forall c, from_version pack_uint_bytes val = Ok c ->
                get_type c = Ok 35 /\ to_number c = Ok val)
  /\ (forall c, from_timestamp pack_uint_bytes val = Ok c ->
                get_type c = Ok 36 /\ to_number c = Ok val).
Proof.
  intros Hp Hv.
  assert (H : forall typ c, from_number pack_uint_bytes val typ = Ok c ->
                            get_type c = Ok typ /\ to_number c = Ok val).
  { intros typ c Hc. unfold from_number in Hc. rewrite Hp in Hc.
    cbn [mbind result_bind rbind] in Hc.
    apply from_bytes_inv in Hc as (tb & lb & Et & El & ->).
    destruct (read_encoded typ bs tb lb Et El) as (Ht & _ & Hn).
    rewrite Hv in Hn. split; assumption. }
  split; [exact H|].
  repeat (split; [intros c Hc; exact (H _ c Hc)|]).
  intros c Hc. exact (H _ c Hc).
Qed.

End ComponentUse.

Section EscapeFacts.
Import TlvVar Component.

Lemma escape_chr_charset (ch : ascii) : forallb CHARSET (escape_chr ch) = true.
Proof. destruct ch as [[] [] [] [] [] [] [] []]; reflexivity. Qed.

Lemma escape_chr_fixed (ch : ascii) : CHARSET ch = true -> escape_chr ch = [ch].
Proof. intros H. unfold escape_chr. rewrite H. reflexivity. Qed.

Lemma escape_str_fixed (val : str) :
  forallb CHARSET val = true -> escape_str val = val.
Proof.
  induction val as [|ch val IH]; [reflexivity|].
  cbn [forallb]. intros [Hc Hv]%andb_prop.
  unfold escape_str. cbn [flat_map]. fold (escape_str val).
  rewrite (escape_chr_fixed ch Hc), (IH Hv). reflexivity.
Qed.

Lemma escape_str_charset (val : str) : forallb CHARSET (escape_str val) = true.
Proof.
  induction val as [|ch val IH]; [reflexivity|].
  unfold escape_str. cbn [flat_map]. rewrite forallb_app.
  rewrite escape_chr_charset. exact IH.
Qed.

(** X7. [escape_str] yields characters of [CHARSET] only, leaves a
    string of such characters as it is (a percent sign is not escaped
    again), and so gives the same string when it is applied twice. *)
Theorem escape_str_legal (val : str) :
  forallb CHARSET (escape_str val) = true
  /\ (forallb CHARSET val = true -> escape_str val = val)
  /\ escape_str (escape_str val) = escape_str val.
Proof.
  split; [apply escape_str_charset|]. split; [apply escape_str_fixed|].
  apply escape_str_fixed, escape_str_charset.
Qed.

Lemma escape_chr_decode (ch : ascii) :
  Ascii.eqb ch "%"%char || Ascii.eqb ch "="%char = false ->
  escape_chr ch = flat_map decode (Py.utf8 ch).
Proof. destruct ch as [[] [] [] [] [] [] [] []]; (reflexivity || discriminate). Qed.

Lemma escape_str_decode (val : str) :
  unmarked val = true ->
  escape_str val = flat_map decode (flat_map Py.utf8 val).
Proof.
  unfold unmarked. induction val as [|ch val IH]; [reflexivity|].
  cbn [forallb]. intros [Hc Hv]%andb_prop.
  apply negb_true_iff in Hc.
  unfold escape_str. cbn [flat_map]. fold (escape_str val).
  rewrite flat_map_app, (escape_chr_decode ch Hc), (IH Hv). reflexivity.
Qed.

(** X8. For a string without percent and equals signs, [from_str]
    reads [escape_str] of it as the generic component of the string's
    UTF-8 bytes, and [to_str] renders that component as the escaped
    string again: the escapes are uppercase. *)
Theorem from_str_escape_str (val : str) (c : BinaryStr) :
  unmarked val = true ->
  from_bytes (flat_map Py.utf8 val) TYPE_GENERIC = Ok c ->
  from_str (escape_str val) = Ok c /\ to_str c = Ok (escape_str val).
Proof.
  intros Hm H. apply from_bytes_inv in H as (tb & lb & Et & El & ->).
  rewrite (escape_str_decode val Hm).
  change (flat_map decode (flat_map Py.utf8 val))
    with (rendered TYPE_GENERIC (flat_map Py.utf8 val)).
  split; [apply from_str_rendered|apply to_str_encoded]; assumption.
Qed.

End EscapeFacts.

Section NormalForm.
Import TlvVar Component.

Lemma setitem_keeps (view out : BinaryStr) (pos k : nat) (v : Z) :
  (k <= pos)%nat -> setitem view pos v = Ok out ->
  length out = length view /\ take k out = take k view.
Proof.
  intros Hk. unfold setitem.
  destruct (pos <? length view)%nat; [|discriminate].
  destruct ((0 <=? v) && (v <=? 255)); [|discriminate].
  intros [= <-]. split; [apply length_insert|apply take_insert_ge; exact Hk].
Qed.

(** The second loop of [from_str] writes behind the header only. *)
Lemma encode_loop_keeps (fuel : nat) (val : str) (i pos k : nat)
      (view out : BinaryStr) :
  (k <= pos)%nat -> encode_loop fuel val i pos view = Ok out ->
  length out = length view /\ take k out = take k view.
Proof.
  revert i pos view. induction fuel as [|fuel IH]; intros i pos view Hk;
    cbn [encode_loop]; destruct (i <? length val)%nat;
    try discriminate; try (intros [= <-]; split; reflexivity).
  unfold encode. destruct (val !! i) as [ch|]; [|discriminate].
  destruct (negb (Ascii.eqb ch "%")).
  - destruct (setitem view pos _) as [v1|e] eqn:Hs; cbn [mbind result_bind rbind];
      [|destruct e; discriminate].
    intros H. apply IH in H as [Hl Ht]; [|lia].
    destruct (setitem_keeps _ _ _ k _ Hk Hs) as [Hl1 Ht1].
    split; congruence.
  - destruct (Py.int _ 16) as [x|e]; cbn [mbind result_bind rbind];
      [|destruct e; discriminate].
    destruct (setitem view pos x) as [v1|e] eqn:Hs; cbn [mbind result_bind rbind];
      [|destruct e; discriminate].
    intros H. apply IH in H as [Hl Ht]; [|lia].
    destruct (setitem_keeps _ _ _ k _ Hk Hs) as [Hl1 Ht1].
    split; congruence.
Qed.

Lemma write_tl_num_inv (v : Z) (buf out : BinaryStr) (offset : nat) :
  write_tl_num v buf offset = Ok out ->
  exists bs, tl_num_bytes v = Ok bs
             /\ (offset + length bs <= length buf)%nat
             /\ out = take offset buf ++ bs ++ drop (offset + length bs) buf.
Proof.
  unfold write_tl_num. destruct (tl_num_bytes v) as [bs|]; [|discriminate].
  cbn [mbind result_bind rbind].
  destruct (Nat.leb_spec (offset + length bs) (length buf)); [|discriminate].
  intros [= <-]. exists bs. split; [reflexivity|]. split; [assumption|].
  reflexivity.
Qed.

Lemma alloc_and_encode_inv (val : str) (pc : nat) (typ off : Z) (c : BinaryStr) :
  alloc_and_encode val pc typ off = Ok c ->
  exists value, from_bytes value typ = Ok c.
Proof.
  unfold alloc_and_encode.
  set (n := Z.of_nat (length val) - off - 1 - 2 * Z.of_nat pc).
  destruct (Z.ltb_spec n 0) as [|Hn]; [discriminate|].
  destruct (write_tl_num typ _ 0) as [r1|] eqn:H1; [|discriminate].
  cbn [mbind result_bind rbind].
  destruct (write_tl_num n r1 _) as [r2|] eqn:H2; [|discriminate].
  cbn [mbind result_bind rbind]. intros Hloop.
  apply write_tl_num_inv in H1 as (tb & Et & _ & ->).
  apply write_tl_num_inv in H2 as (lb & El & _ & ->).
  pose proof (length_tl_num_bytes _ _ Et) as Ht.
  pose proof (length_tl_num_bytes _ _ El) as Hl.
  rewrite <- Ht, <- Hl in *.
  rewrite take_0 in *. cbn [app Nat.add] in *.
  rewrite (take_app_length' tb) in Hloop by reflexivity.
  rewrite drop_app_add', drop_drop in Hloop by reflexivity.
  apply (encode_loop_keeps _ _ _ _ (length tb + length lb)) in Hloop
    as [Hlen Htake]; [|lia].
  rewrite !length_app, length_drop, length_replicate in Hlen.
  rewrite app_assoc in Htake.
  rewrite take_app_length' in Htake by (rewrite length_app; reflexivity).
  exists (drop (length tb + length lb) c).
  rewrite <- (take_drop (length tb + length lb) c) at 2.
  rewrite Htake, <- app_assoc. apply from_bytes_intro; [exact Et|].
  rewrite length_drop.
  replace (Z.of_nat (length c - (length tb + length lb))) with n by lia.
  exact El.
Qed.

Lemma from_str_inv (val : str) (c : BinaryStr) :
  from_str val = Ok c -> exists typ value, from_bytes value typ = Ok c.
Proof.
  unfold from_str. destruct val as [|c0 r0].
  { intros [= <-]. exists TYPE_GENERIC, []. reflexivity. }
  destruct (scan _ 0 0 None) as [[pc t]|]; [|discriminate].
  cbn [mbind result_bind rbind].
  destruct t as [off|].
  - destruct (str_eqb _ _).
    { destruct (Py.fromhex _) as [bs|]; [|discriminate].
      cbn [mbind result_bind rbind]. eauto. }
    destruct (str_eqb _ _).
    { destruct (Py.fromhex _) as [bs|]; [|discriminate].
      cbn [mbind result_bind rbind]. eauto. }
    destruct (Py.int _ 10) as [typ|]; [|discriminate].
    cbn [mbind result_bind rbind]. intros H.
    apply alloc_and_encode_inv in H as [value H]. eauto.
  - intros H. apply alloc_and_encode_inv in H as [value H]. eauto.
Qed.

(** X9. Whatever [from_str] returns is a canonically encoded
    component: [to_str] renders it as a URI segment from which
    [from_str] reads the same component again. *)
Theorem from_str_normal (val : str) (c : BinaryStr) :
  from_str val = Ok c ->
  exists typ value,
    from_bytes value typ = Ok c
    /\ to_str c = Ok (Uri.segment typ value)
    /\ from_str (Uri.segment typ value) = Ok c.
Proof.
  intros H. apply from_str_inv in H as (typ & value & H).
  exists typ, value. split; [exact H|].
  apply from_bytes_inv in H as (tb & lb & Et & El & ->).
  rewrite <- rendered_segment.
  split; [apply to_str_encoded|apply from_str_rendered]; assumption.
Qed.

End NormalForm.

Section Lenient.
Import TlvVar Component.

Lemma unpack_be_bound (bs : BinaryStr) (acc : Z) :
  0 <= acc ->
  0 <= unpack_be bs acc < (acc + 1) * 256 ^ Z.of_nat (length bs).
Proof.
  revert acc. induction bs as [|b bs IH]; intros acc Hacc.
  - cbn. lia.
  - cbn [unpack_be length]. pose proof (Z_of_byte_range b) as Hb.
    specialize (IH (acc * 256 + Z_of_byte b) ltac:(lia)).
    rewrite Nat2Z.inj_succ, Z.pow_succ_r by lia.
    assert (0 < 256 ^ Z.of_nat (length bs)) by (apply Z.pow_pos_nonneg; lia).
    nia.
Qed.

(** A number [parse_tl_num] read is one [write_tl_num] can write. *)
Lemma parse_tl_num_range (buf : BinaryStr) (offset : nat) (v : Z) (w : nat) :
  parse_tl_num buf offset = Ok (v, w) -> 0 <= v < 2 ^ 64.
Proof.
  unfold parse_tl_num. destruct (buf !! offset) as [b|]; [|discriminate].
  pose proof (Z_of_byte_range b) as Hb.
  destruct (Z.ltb_spec (Z_of_byte b) 253); [intros [= <- _]; lia|].
  cbv zeta.
  set (k := if Z_of_byte b =? 253 then 2%nat
            else if Z_of_byte b =? 254 then 4%nat else 8%nat).
  assert (Hk : (k <= 8)%nat)
    by (subst k; destruct (_ =? 253); [lia|destruct (_ =? 254); lia]).
  destruct (Nat.eqb_spec (length (take k (drop (S offset) buf))) k) as [Hl|];
    [|discriminate].
  intros [= <- _].
  pose proof (unpack_be_bound (take k (drop (S offset) buf)) 0 ltac:(lia)) as Hu.
  rewrite Hl in Hu.
  assert (256 ^ Z.of_nat k <= 256 ^ 8) by (apply Z.pow_le_mono_r; lia).
  change (256 ^ 8) with (2 ^ 64) in *. lia.
Qed.

(** X10. Whatever component [to_str] accepts, canonically encoded or
    not, the string it returns is the URI segment of the component's
    type and value, and [from_str] reads that string as the canonical
    encoding of the same type and value. *)
Theorem to_str_canonical (c : BinaryStr) (s : str) :
  to_str c = Ok s ->
  exists typ value c',
    get_type c = Ok typ /\ get_value c = Ok value
    /\ s = Uri.segment typ value
    /\ from_bytes value typ = Ok c'
    /\ from_str s = Ok c'.
Proof.
  unfold to_str, get_type, get_value.
  destruct (parse_tl_num c 0) as [[typ sz1]|] eqn:H1; [|discriminate].
  cbn [mbind result_bind rbind].
  destruct (parse_tl_num c sz1) as [[n sz2]|] eqn:H2; [|discriminate].
  cbn [mbind result_bind rbind].
  destruct (Z.eqb_spec (Z.of_nat (length c)) (n + Z.of_nat (sz1 + sz2)))
    as [Hlen|]; [|discriminate].
  cbn [negb]. intros Hs.
  set (value := drop (sz1 + sz2) c) in *.
  pose proof (parse_tl_num_range _ _ _ _ H1) as Rt.
  pose proof (parse_tl_num_range _ _ _ _ H2) as Rn.
  destruct (tl_num_bytes_total typ Rt) as [tb Et].
  assert (Hn : Z.of_nat (length value) = n)
    by (subst value; rewrite length_drop; lia).
  destruct (tl_num_bytes_total (Z.of_nat (length value))) as [lb El];
    [rewrite Hn; exact Rn|].
  assert (Hr : s = rendered typ value).
  { unfold rendered.
    destruct (typ =? TYPE_IMPLICIT_SHA256); [congruence|].
    destruct (typ =? TYPE_PARAMETERS_SHA256); congruence. }
  exists typ, value, (tb ++ lb ++ value).
  split; [reflexivity|]. split; [reflexivity|].
  split; [rewrite Hr; apply rendered_segment|].
  split; [apply from_bytes_intro; assumption|].
  rewrite Hr. apply from_str_rendered; assumption.
Qed.

End Lenient.

(** ** The engine *)

Section EngineFacts.
Import App.
Context {E : Env}.

Ltac run_m :=
  unfold mbind, mret, M_bind, M_ret, bind, ret, get, modify, raise, lift;
  cbv beta iota.

Lemma set_prefix_tree_same (st : NDNApp) :
  set_prefix_tree (_prefix_tree st) st = st.
Proof. destruct st; reflexivity. Qed.

(** C8. While the face is not running, [put_raw_packet] and
    [express_interest] raise [NetworkError] and leave the whole state as
    it was: nothing is sent, no nonce is drawn, no future and no entry of
    the interest tree is created. *)
Theorem not_running_raises_NetworkError
        (st : NDNApp) (data : BinaryStr) (name : NonStrictName)
        (app_param : option BinaryStr) (v : option Validator)
        (kwargs : Kwargs KwRest) :
  face_running st = false ->
  put_raw_packet data st = (Raise NetworkError, st)
  /\ express_interest name app_param v kwargs st = (Raise NetworkError, st).
Proof.
  intros Hrun. unfold put_raw_packet, express_interest. run_m.
  rewrite Hrun. split; reflexivity.
Qed.

(** C6. Registering a prefix at which a handler is installed raises
    [ValueError] and leaves the state, and so the first handler and
    validator, as they were. *)
Theorem register_duplicate_rejected
        (st : NDNApp) (name : NonStrictName) (func : Route)
        (v : option Validator) (node : PrefixTreeNode) (h : Route) :
  _prefix_tree st !! normalize name = Some node ->
  callback node = Some h ->
  register_begin name func v st = (Raise ValueError, st).
Proof.
  intros Hnode Hcb. unfold register_begin. run_m.
  rewrite Hnode. cbn [from_option id]. rewrite Hcb. run_m.
  rewrite insert_id by exact Hnode.
  rewrite set_prefix_tree_same. reflexivity.
Qed.

Lemma emit_emits (st : NDNApp) (l : list Event) (e : Event) :
  emit e (emits l st) = emits (l ++ [e]) st.
Proof. unfold emit, emits. cbn. rewrite <- app_assoc. reflexivity. Qed.

Lemma emit_once (st : NDNApp) (e : Event) : emit e st = emits [e] st.
Proof. reflexivity. Qed.

(** C3. The dispatch of an incoming Interest to the handler [func]
    registered at its longest matching prefix. The parameters-digest
    check runs first whenever the Interest has application parameters or
    a signature, and its failure drops the Interest before any validator
    or handler; a signed Interest then needs the verdict of the
    registration's validator, or of the default one; an Interest with
    neither is handed over unchecked; an accepted Interest makes one
    handler call with the name, the parameters and the application
    parameters. *)
Theorem on_interest_dispatch
        (st : NDNApp) (name : Name) (param : InterestParam)
        (app_param : option BinaryStr) (sig : SignaturePtrs)
        (prefix : Name) (node : PrefixTreeNode) (func : Route) :
  NameTrie.longest_prefix (_prefix_tree st) name = Some (prefix, node) ->
  callback node = Some func ->
  let v := match pvalidator node with
           | Some v => v
           | None => int_validator st
           end in
  let check := EvParamsCheck name sig in
  let call := EvCallback func name param app_param in
  let outcome := _on_interest name param app_param sig st in
  (app_param <> None \/ signature_info sig <> None ->
   params_sha256_checker name sig = false ->
   outcome = (Ok tt, emits [check; EvWarning (DropMalformed name)] st))
  /\ (signature_info sig <> None ->
      params_sha256_checker name sig = true ->
      validate v name sig = false ->
      outcome = (Ok tt, emits [check; EvValidate v name sig;
                               EvWarning (DropUnvalidated name)] st))
  /\ (signature_info sig <> None ->
      params_sha256_checker name sig = true ->
      validate v name sig = true ->
      outcome = (Ok tt, emits [check; EvValidate v name sig; call] st))
  /\ (signature_info sig = None -> app_param <> None ->
      params_sha256_checker name sig = true ->
      outcome = (Ok tt, emits [check; call] st))
  /\ (signature_info sig = None -> app_param = None ->
      outcome = (Ok tt, emits [call] st)).
Proof.
  intros Hlp Hcb v check call outcome.
  subst outcome. unfold _on_interest, warn. run_m. rewrite Hlp, Hcb.
  fold v.
  assert (Hfin : forall (l : list Event) (st' : NDNApp),
             st' = emits l st -> (Ok tt, st') = (Ok tt, emits l st))
    by (intros; congruence).
  repeat split.
  - intros Hg Hp.
    rewrite (proj2 (orb_true_iff _ _))
      by (destruct Hg; [left|right]; apply bool_decide_eq_true_2; assumption).
    rewrite Hp. cbn [negb]. apply Hfin.
    rewrite (emit_once st), !emit_emits. reflexivity.
  - intros Hs Hp Hv.
    rewrite (bool_decide_eq_true_2 _ Hs), orb_true_r, Hp. cbn [negb].
    rewrite Hv. cbn [negb]. apply Hfin.
    rewrite (emit_once st), !emit_emits. reflexivity.
  - intros Hs Hp Hv.
    rewrite (bool_decide_eq_true_2 _ Hs), orb_true_r, Hp. cbn [negb].
    rewrite Hv. cbn [negb]. apply Hfin.
    rewrite (emit_once st), !emit_emits. reflexivity.
  - intros Hs Ha Hp.
    rewrite (bool_decide_eq_true_2 _ Ha), Hp. cbn [orb negb].
    rewrite bool_decide_eq_false_2 by (intros H; apply H; exact Hs).
    cbn [negb]. apply Hfin.
    rewrite (emit_once st), !emit_emits. reflexivity.
  - intros Hs Ha.
    rewrite !bool_decide_eq_false_2 by (intros H; apply H; assumption).
    reflexivity.
Qed.

Lemma filter_others_nil (f : nat) (l : list (nat * InterestParam)) :
  filter (fun x => x.1 <> f) l = [] <-> (forall x, x ∈ l -> x.1 = f).
Proof.
  induction l as [|a l IH].
  - split; [intros _ x Hx; inversion Hx|reflexivity].
  - rewrite filter_cons. destruct (decide (a.1 <> f)) as [Hne|Heq].
    + split; [discriminate|]. intros H. exfalso. apply Hne, H. left.
    + apply dec_stable in Heq. rewrite IH. split.
      * intros H x Hx. apply elem_of_cons in Hx as [->|Hx]; auto.
      * intros H x Hx. apply H. right. exact Hx.
Qed.

(** C5. When the lifetime of a waiter is over and its future is still
    pending, [_wait_for_data] raises [InterestTimeout]; the entry leaves
    the interest tree exactly when no other waiter is on it, and stays
    with the remaining waiters otherwise. *)
Theorem wait_for_data_timeout
        (st : NDNApp) (w : Waiter) (waited : Z) (node : InterestTreeNode) :
  futures st !! w_future w = Some Pending ->
  match w_lifetime w with Some l => l | None => 100 end <= waited ->
  _int_tree st !! w_name w = Some (w_node w) ->
  int_nodes st !! w_node w = Some node ->
  let rest := filter (fun x => x.1 <> w_future w) (pending_list node) in
  exists st',
    _wait_for_data w waited st = Some (Raise InterestTimeout, st')
    /\ (_int_tree st' !! w_name w = None
        <-> forall x, x ∈ pending_list node -> x.1 = w_future w)
    /\ (rest = [] -> _int_tree st' = delete (w_name w) (_int_tree st))
    /\ (rest <> [] ->
        _int_tree st' = _int_tree st
        /\ int_nodes st' !! w_node w = Some (set_pending rest node)).
Proof.
  intros Hfut Hlife Htree Hnode rest. subst rest.
  unfold _wait_for_data. rewrite Hfut.
  destruct (Z.leb_spec (match w_lifetime w with Some l => l | None => 100 end)
              waited) as [_|]; [|lia].
  unfold timeout, deref. cbn [int_nodes set_futures]. rewrite Hnode.
  cbn [from_option id].
  assert (Hlt : (w_node w < length (int_nodes st))%nat)
    by (eapply lookup_lt_Some; exact Hnode).
  destruct (filter (fun x => x.1 <> w_future w) (pending_list node))
    as [|x rest'] eqn:Hrest.
  - rewrite bool_decide_eq_true_2 by reflexivity.
    unfold int_tree_del, NameTrie.delitem.
    cbn [_int_tree set_int_nodes set_futures]. rewrite Htree.
    eexists. split; [reflexivity|]. cbn [_int_tree set_int_tree].
    split; [|split].
    + rewrite lookup_delete_eq. split; [|reflexivity].
      intros _. apply filter_others_nil. exact Hrest.
    + reflexivity.
    + congruence.
  - rewrite bool_decide_eq_false_2 by discriminate.
    eexists. split; [reflexivity|].
    cbn [_int_tree int_nodes set_int_nodes set_futures].
    split; [|split].
    + rewrite Htree. split; [discriminate|].
      intros H. apply filter_others_nil in H. congruence.
    + discriminate.
    + intros _. split; [reflexivity|].
      apply list_lookup_insert_eq. exact Hlt.
Qed.

End EngineFacts.

Section InterestTreeFacts.
Import App.
Context {E : Env}.

Ltac run_m :=
  unfold mbind, mret, M_bind, M_ret, bind, ret, get, modify, raise, lift;
  cbv beta iota.

(** *** Completing futures *)

Lemma resolve_Ok f o (fs fs' : list Future) :
  resolve f o fs = Ok fs' <-> fs !! f = Some Pending /\ fs' = <[f := o]> fs.
Proof.
  unfold resolve. destruct (fs !! f) as [[]|]; split;
    try discriminate; try (intros [H _]; discriminate).
  - intros H. injection H as <-. split; reflexivity.
  - intros [_ ->]. reflexivity.
Qed.

Lemma resolve_Raise f o (fs : list Future) e :
  resolve f o fs = Raise e <-> fs !! f <> Some Pending /\ e = InvalidStateError.
Proof.
  unfold resolve. destruct (fs !! f) as [[]|]; split;
    try discriminate; try (intros [H _]; congruence);
    try (intros H; injection H as <-; split; [discriminate|reflexivity]);
    intros [_ ->]; reflexivity.
Qed.

Lemma length_resolve_all ws o (fs : list Future) :
  length (resolve_all ws o fs).2 = length fs.
Proof.
  revert fs. induction ws as [|w ws IH]; intros fs; cbn [resolve_all];
    [reflexivity|].
  destruct (resolve w.1 o fs) as [fs'|e] eqn:Hr; [|reflexivity].
  apply resolve_Ok in Hr as [_ ->]. rewrite IH. apply length_insert.
Qed.

Lemma resolve_all_other ws g o (fs : list Future) :
  (forall x, x ∈ ws -> x.1 <> g) -> (resolve_all ws o fs).2 !! g = fs !! g.
Proof.
  revert fs. induction ws as [|w ws IH]; intros fs H; cbn [resolve_all];
    [reflexivity|].
  destruct (resolve w.1 o fs) as [fs'|e] eqn:Hr; [|reflexivity].
  apply resolve_Ok in Hr as [_ ->].
  rewrite IH by (intros x Hx; apply H; right; exact Hx).
  apply list_lookup_insert_ne. apply H. left.
Qed.

Lemma resolve_all_done ws g o o' (fs : list Future) :
  fs !! g = Some o' -> o' <> Pending -> (resolve_all ws o fs).2 !! g = Some o'.
Proof.
  revert fs. induction ws as [|w ws IH]; intros fs Hg Hne; cbn [resolve_all];
    [exact Hg|].
  destruct (resolve w.1 o fs) as [fs'|e] eqn:Hr; [|exact Hg].
  apply resolve_Ok in Hr as [Hp ->].
  apply IH; [|exact Hne].
  rewrite list_lookup_insert_ne by congruence. exact Hg.
Qed.

(** All that completing futures can raise is [InvalidStateError]. *)
Lemma resolve_all_result ws o (fs : list Future) :
  (resolve_all ws o fs).1 = Ok tt
  \/ (resolve_all ws o fs).1 = Raise InvalidStateError.
Proof.
  revert fs. induction ws as [|w ws IH]; intros fs; cbn [resolve_all];
    [left; reflexivity|].
  destruct (resolve w.1 o fs) as [fs'|e] eqn:Hr; [apply IH|].
  apply resolve_Raise in Hr as [_ ->]. right. reflexivity.
Qed.

(** Distinct pending futures are all completed. *)
Lemma resolve_all_ok ws o (fs : list Future) :
  NoDup ws.*1 -> (forall x, x ∈ ws -> fs !! x.1 = Some Pending) ->
  (resolve_all ws o fs).1 = Ok tt
  /\ forall x, x ∈ ws -> (resolve_all ws o fs).2 !! x.1 = Some o.
Proof.
  revert fs. induction ws as [|w ws IH]; intros fs Hnd Hp; cbn [resolve_all].
  - split; [reflexivity|]. intros x Hx. inversion Hx.
  - rewrite fmap_cons in Hnd. apply NoDup_cons in Hnd as [Hw Hnd].
    assert (Hne : forall x, x ∈ ws -> x.1 <> w.1).
    { intros x Hx Heq. apply Hw. rewrite <- Heq.
      apply list_elem_of_fmap. exists x. split; [reflexivity|exact Hx]. }
    pose proof (Hp w ltac:(left)) as Hpw.
    destruct (resolve w.1 o fs) as [fs'|e] eqn:Hr;
      [|apply resolve_Raise in Hr as [Hr _]; congruence].
    apply resolve_Ok in Hr as [_ ->].
    destruct (IH (<[w.1 := o]> fs) Hnd) as [Hok Hall].
    { intros x Hx. rewrite list_lookup_insert_ne by (symmetry; apply Hne, Hx).
      apply Hp. right. exact Hx. }
    split; [exact Hok|].
    intros x Hx. apply elem_of_cons in Hx as [->|Hx]; [|apply Hall, Hx].
    rewrite resolve_all_other by exact Hne.
    apply list_lookup_insert_eq. eapply lookup_lt_Some. exact Hpw.
Qed.


Lemma NoDup_fst_inj {A B : Type} (l : list (A * B)) (x y : A * B) :
  NoDup l.*1 -> x ∈ l -> y ∈ l -> x.1 = y.1 -> x = y.
Proof.
  induction l as [|a l IH]; intros Hnd Hx Hy Heq; [inversion Hx|].
  rewrite fmap_cons in Hnd. apply NoDup_cons in Hnd as [Ha Hnd].
  apply elem_of_cons in Hx as [->|Hx]; apply elem_of_cons in Hy as [->|Hy].
  - reflexivity.
  - exfalso. apply Ha. rewrite Heq. apply list_elem_of_fmap.
    exists y. split; [reflexivity|exact Hy].
  - exfalso. apply Ha. rewrite <- Heq. apply list_elem_of_fmap.
    exists x. split; [reflexivity|exact Hx].
  - apply IH; assumption.
Qed.

(** What is left of a list of waiters has the distinct futures of the
    list. *)
Lemma NoDup_fst_sublist (l k : list (nat * InterestParam)) :
  sublist l k -> NoDup k.*1 -> NoDup l.*1.
Proof.
  intros Hs Hnd. eapply sublist_NoDup; [exact Hnd|].
  apply fmap_sublist. exact Hs.
Qed.

(** *** What one [express_interest] call does *)

Lemma interest_param_of_run (kwargs : Kwargs KwRest) (st : NDNApp) :
  exists ip kw' n,
    interest_param_of kwargs st = (Ok (ip, kw'), set_nonce_draws n st)
    /\ kw_interest_param kw' = kw_interest_param kwargs
    /\ (kw_interest_param kwargs <> None -> set_nonce_draws n st = st).
Proof.
  unfold interest_param_of.
  destruct (kw_interest_param kwargs) as [ip|] eqn:Hk.
  - exists ip, kwargs, (nonce_draws st). run_m.
    split; [destruct st; reflexivity|]. split; [exact Hk|].
    intros _. destruct st; reflexivity.
  - destruct (kw_nonce kwargs); run_m.
    + eexists _, _, (nonce_draws st).
      split; [destruct st; reflexivity|]. split; [exact Hk|].
      intros H. congruence.
    + unfold draw_nonce. eexists _, _, _. split; [reflexivity|].
      split; [exact Hk|]. intros H. congruence.
Qed.

Lemma double_update (nodes : list InterestTreeNode) (r : nat)
      (f g : InterestTreeNode -> InterestTreeNode) :
  <[r := g (default new_node (<[r := f (default new_node (nodes !! r))]> nodes !! r))]>
    (<[r := f (default new_node (nodes !! r))]> nodes)
  = <[r := g (f (default new_node (nodes !! r)))]> nodes.
Proof.
  destruct (decide (r < length nodes)%nat) as [Hlt|Hge].
  - rewrite list_lookup_insert_eq by exact Hlt. cbn [from_option id].
    apply list_insert_insert_eq.
  - rewrite !list_insert_ge by (rewrite ?length_insert; lia). reflexivity.
Qed.

Lemma express_interest_run (st : NDNApp) (name : NonStrictName)
      (app_param : option BinaryStr) (v : option Validator)
      (kwargs : Kwargs KwRest) :
  face_running st = true -> kw_interest_param kwargs = None ->
  exists w st' interest ip,
    express_interest name app_param v kwargs st = (Ok w, st')
    /\ w_future w = length (futures st)
    /\ w_lifetime w = lifetime ip
    /\ futures st' = futures st ++ [Pending]
    /\ face_sent st' = face_sent st ++ [interest]
    /\ face_running st' = true
    /\ data_validator st' = data_validator st
    /\ int_validator st' = int_validator st
    /\ _prefix_tree st' = _prefix_tree st
    /\ events st' = events st
    /\ let node' := set_validator v
                      (append_interest (w_future w) ip (deref st (w_node w))) in
       match _int_tree st !! w_name w with
       | Some r =>
           w_node w = r /\ _int_tree st' = _int_tree st
           /\ int_nodes st' = <[r := node']> (int_nodes st)
       | None =>
           w_node w = length (int_nodes st)
           /\ _int_tree st' = <[w_name w := w_node w]> (_int_tree st)
           /\ int_nodes st' = int_nodes st ++ [node']
       end.
Proof.
  intros Hrun Hkw. unfold express_interest. run_m. rewrite Hrun. cbn [negb].
  destruct (interest_param_of_run kwargs st) as (ip & kw' & n & -> & Hk & _).
  rewrite Hk, Hkw.
  destruct (make_interest name ip app_param _ kw') as [interest final_name] eqn:Hmk.
  unfold create_future, int_tree_setdefault, update_node, face_send. run_m.
  cbn [_int_tree int_nodes futures set_futures set_nonce_draws].
  destruct (_int_tree st !! final_name) as [r|] eqn:Htree.
  - eexists _, _, interest, ip. split; [reflexivity|].
    cbn [w_future w_lifetime w_name w_node futures face_sent face_running
         data_validator int_validator _prefix_tree events _int_tree int_nodes
         set_face_sent set_int_nodes set_futures set_nonce_draws].
    rewrite Htree. do 4 (split; [reflexivity|]). split; [exact Hrun|].
    do 4 (split; [reflexivity|]).
    split; [reflexivity|]. split; [reflexivity|].
    unfold deref.
    cbn [int_nodes set_face_sent set_int_nodes set_futures set_nonce_draws].
    apply (double_update (int_nodes st) r
             (append_interest (length (futures st)) ip) (set_validator v)).
  - eexists _, _, interest, ip. split; [reflexivity|].
    cbn [w_future w_lifetime w_name w_node futures face_sent face_running
         data_validator int_validator _prefix_tree events _int_tree int_nodes
         set_face_sent set_int_nodes set_int_tree set_futures set_nonce_draws].
    rewrite Htree. do 4 (split; [reflexivity|]). split; [exact Hrun|].
    do 4 (split; [reflexivity|]).
    split; [reflexivity|]. split; [reflexivity|].
    unfold deref.
    cbn [int_nodes set_face_sent set_int_nodes set_int_tree set_futures
         set_nonce_draws].
    rewrite (double_update (int_nodes st ++ [new_node]) (length (int_nodes st))
               (append_interest (length (futures st)) ip) (set_validator v)).
    rewrite lookup_app_r, Nat.sub_diag by lia. cbn [lookup list_lookup from_option id].
    rewrite (lookup_ge_None_2 (int_nodes st)) by lia. cbn [from_option].
    rewrite insert_app_r_alt, Nat.sub_diag by lia. reflexivity.
Qed.

(** A call that returns was made with a running face and without the
    keyword argument [interest_param]. *)
Lemma express_interest_returned (st st' : NDNApp) (name : NonStrictName)
      (app_param : option BinaryStr) (v : option Validator)
      (kwargs : Kwargs KwRest) (w : Waiter) :
  express_interest name app_param v kwargs st = (Ok w, st') ->
  face_running st = true /\ kw_interest_param kwargs = None.
Proof.
  unfold express_interest. run_m.
  destruct (face_running st); cbn [negb]; [|discriminate].
  destruct (interest_param_of_run kwargs st) as (ip & kw' & n & -> & Hk & _).
  rewrite Hk. destruct (kw_interest_param kwargs); [discriminate|].
  intros _. split; reflexivity.
Qed.

(** A call that raises leaves the state of the engine as it was. *)
Lemma express_interest_raised (st st' : NDNApp) (name : NonStrictName)
      (app_param : option BinaryStr) (v : option Validator)
      (kwargs : Kwargs KwRest) (e : exn) :
  express_interest name app_param v kwargs st = (Raise e, st') ->
  st' = st
  /\ (face_running st = false /\ e = NetworkError
      \/ face_running st = true /\ kw_interest_param kwargs <> None
         /\ e = TypeError).
Proof.
  destruct (face_running st) eqn:Hrun.
  - destruct (kw_interest_param kwargs) as [ip0|] eqn:Hkw.
    + unfold express_interest. run_m. rewrite Hrun. cbn [negb].
      destruct (interest_param_of_run kwargs st)
        as (ip & kw' & n & -> & Hk & Hst).
      rewrite Hk, Hkw, Hst by congruence.
      intros H. injection H as <- <-. split; [reflexivity|].
      right. repeat split; congruence.
    + destruct (express_interest_run st name app_param v kwargs Hrun Hkw)
        as (w & st2 & i & ip & -> & _). discriminate.
  - unfold express_interest. run_m. rewrite Hrun. cbn [negb].
    intros H. injection H as <- <-. split; [reflexivity|].
    left. split; reflexivity.
Qed.

Lemma wf_init (running : bool) : wf (init running).
Proof.
  split; cbn.
  - intros p r H. rewrite lookup_empty in H. discriminate.
  - intros p q r H. rewrite lookup_empty in H. discriminate.
  - intros r node x H. rewrite lookup_nil in H. discriminate.
  - intros r1 r2 n1 n2 x1 x2 H. rewrite lookup_nil in H. discriminate.
  - intros r node H. rewrite lookup_nil in H. discriminate.
Qed.

(** The waiters of the nodes after a call that put the fresh future [f]
    on the node [r]: the new waiter on [r], or an old waiter. *)
Lemma wf_extend (st st' : NDNApp) (r : nat) (f : nat) (ip : InterestParam)
      (v : option Validator) :
  wf st ->
  f = length (futures st) ->
  futures st' = futures st ++ [Pending] ->
  (forall p r', _int_tree st' !! p = Some r' ->
     (r' < length (int_nodes st'))%nat) ->
  (forall p q r', _int_tree st' !! p = Some r' ->
     _int_tree st' !! q = Some r' -> p = q) ->
  int_nodes st' !! r
  = Some (set_validator v (append_interest f ip (deref st r))) ->
  (forall r', r' <> r -> int_nodes st' !! r' = int_nodes st !! r') ->
  wf st'.
Proof.
  intros Hwf -> Hfut Href Hinj Hnode Hother.
  assert (Hchar : forall r0 n x,
             int_nodes st' !! r0 = Some n -> x ∈ pending_list n ->
             (x.1 = length (futures st) /\ r0 = r)
             \/ ((x.1 < length (futures st))%nat
                 /\ exists n0, int_nodes st !! r0 = Some n0
                               /\ x ∈ pending_list n0)).
  { intros r0 n x Hn Hx. destruct (decide (r0 = r)) as [->|Hne].
    - rewrite Hnode in Hn. injection Hn as <-.
      cbn [set_validator append_interest pending_list] in Hx.
      apply elem_of_app in Hx as [Hx|Hx].
      + right. unfold deref in Hx.
        destruct (int_nodes st !! r) as [n0|] eqn:Hn0;
          cbn [from_option id] in Hx; [|inversion Hx].
        split; [eapply (wf_fut st Hwf); eassumption|]. eauto.
      + left. apply list_elem_of_singleton in Hx as ->. split; reflexivity.
    - rewrite Hother in Hn by exact Hne. right.
      split; [eapply (wf_fut st Hwf); eassumption|]. eauto. }
  split.
  - exact Href.
  - exact Hinj.
  - intros r0 n x Hn Hx. rewrite Hfut, length_app. cbn [length].
    destruct (Hchar r0 n x Hn Hx) as [[-> _]|[Hlt _]]; lia.
  - intros r1 r2 n1 n2 x1 x2 H1 H2 Hx1 Hx2 Heq.
    destruct (Hchar r1 n1 x1 H1 Hx1) as [[Ha ->]|[Ha (m1 & Hm1 & Hy1)]];
      destruct (Hchar r2 n2 x2 H2 Hx2) as [[Hb ->]|[Hb (m2 & Hm2 & Hy2)]];
      try reflexivity; try lia.
    eapply (wf_disj st Hwf); eassumption.
  - intros r0 n Hn. destruct (decide (r0 = r)) as [->|Hne].
    + rewrite Hnode in Hn. injection Hn as <-.
      cbn [set_validator append_interest pending_list].
      rewrite fmap_app. apply NoDup_app. split; [|split].
      * unfold deref. destruct (int_nodes st !! r) as [n0|] eqn:Hn0;
          cbn [from_option id]; [|apply NoDup_nil_2].
        eapply (wf_nodup st Hwf). exact Hn0.
      * intros f Hf Hf'. cbn in Hf'. apply list_elem_of_singleton in Hf' as ->.
        apply list_elem_of_fmap in Hf as (x & Hx1 & Hx).
        unfold deref in Hx. destruct (int_nodes st !! r) as [n0|] eqn:Hn0;
          cbn [from_option id] in Hx; [|inversion Hx].
        pose proof (wf_fut st Hwf _ _ _ Hn0 Hx). lia.
      * cbn. apply NoDup_singleton.
    + rewrite Hother in Hn by exact Hne. eapply (wf_nodup st Hwf). exact Hn.
Qed.

Lemma express_interest_expressed (st : NDNApp) (name : NonStrictName)
      (app_param : option BinaryStr) (v : option Validator)
      (kwargs : Kwargs KwRest) :
  wf st -> face_running st = true -> kw_interest_param kwargs = None ->
  exists w st' interest ip,
    express_interest name app_param v kwargs st = (Ok w, st')
    /\ expressed st v w ip interest st'.
Proof.
  intros Hwf Hrun Hkw.
  destruct (express_interest_run st name app_param v kwargs Hrun Hkw)
    as (w & st' & interest & ip & Heq & Hf & Hl & Hfs & Hs & Hr & Hdv & _ & _ & _ & Hm).
  exists w, st', interest, ip. split; [exact Heq|].
  cbv zeta in Hm.
  destruct (_int_tree st !! w_name w) as [r|] eqn:Htree.
  - destruct Hm as (Hnode & Ht & Hn). subst r.
    pose proof (wf_ref st Hwf _ _ Htree) as Hlt.
    assert (Hnd : int_nodes st' !! w_node w
                  = Some (set_validator v
                            (append_interest (w_future w) ip (deref st (w_node w)))))
      by (rewrite Hn; apply list_lookup_insert_eq; exact Hlt).
    assert (Hot : forall r, r <> w_node w -> int_nodes st' !! r = int_nodes st !! r)
      by (intros r Hne; rewrite Hn; apply list_lookup_insert_ne; congruence).
    split; try assumption.
    + rewrite Ht. exact Htree.
    + intros p _. rewrite Ht. reflexivity.
    + intros r Hr'. rewrite Htree in Hr'. injection Hr' as <-.
      split; [reflexivity|exact Ht].
    + intros Hnone. rewrite Htree in Hnone. discriminate.
    + apply (wf_extend st st' (w_node w) (w_future w) ip v); try assumption.
      * intros p r' Hp. rewrite Ht in Hp. rewrite Hn, length_insert.
        eapply (wf_ref st Hwf); exact Hp.
      * intros p q r'. rewrite Ht. apply (wf_inj st Hwf).
  - destruct Hm as (Hnode & Ht & Hn).
    assert (Hnd : int_nodes st' !! w_node w
                  = Some (set_validator v
                            (append_interest (w_future w) ip (deref st (w_node w))))).
    { rewrite Hn, Hnode, lookup_app_r, Nat.sub_diag by lia.
      rewrite <- Hnode. reflexivity. }
    assert (Hot : forall r, r <> w_node w -> int_nodes st' !! r = int_nodes st !! r).
    { intros r Hne. rewrite Hn.
      destruct (decide (r < length (int_nodes st))%nat) as [Hlt|Hge].
      - apply lookup_app_l. exact Hlt.
      - rewrite lookup_ge_None_2 by (rewrite length_app; cbn; lia).
        symmetry. apply lookup_ge_None_2. lia. }
    split; try assumption.
    + rewrite Ht. apply lookup_insert_eq.
    + intros p Hne. rewrite Ht. apply lookup_insert_ne. congruence.
    + intros r Hr'. rewrite Htree in Hr'. discriminate.
    + intros _. split; assumption.
    + apply (wf_extend st st' (w_node w) (w_future w) ip v); try assumption.
      * intros p r' Hp. rewrite Hn, length_app. cbn [length].
        rewrite Ht in Hp. destruct (decide (p = w_name w)) as [->|Hne].
        -- rewrite lookup_insert_eq in Hp. injection Hp as <-. lia.
        -- rewrite lookup_insert_ne in Hp by congruence.
           pose proof (wf_ref st Hwf _ _ Hp). lia.
      * intros p q r' Hp Hq. rewrite Ht in Hp, Hq.
        destruct (decide (p = w_name w)) as [->|Hnp];
          destruct (decide (q = w_name w)) as [->|Hnq]; try reflexivity.
        -- rewrite lookup_insert_eq in Hp. injection Hp as <-.
           rewrite lookup_insert_ne in Hq by congruence.
           pose proof (wf_ref st Hwf _ _ Hq). lia.
        -- rewrite lookup_insert_eq in Hq. injection Hq as <-.
           rewrite lookup_insert_ne in Hp by congruence.
           pose proof (wf_ref st Hwf _ _ Hp). lia.
        -- rewrite lookup_insert_ne in Hp, Hq by congruence.
           eapply (wf_inj st Hwf); eassumption.
Qed.

End InterestTreeFacts.

Section OnDataFacts.
Import App.
Context {E : Env}.

Ltac run_m :=
  unfold mbind, mret, M_bind, M_ret, bind, ret, get, modify, raise, lift;
  cbv beta iota.

Lemma data_frame_refl (st : NDNApp) : data_frame st st.
Proof. split; auto. Qed.

Lemma data_frame_trans (st1 st2 st3 : NDNApp) :
  data_frame st1 st2 -> data_frame st2 st3 -> data_frame st1 st3.
Proof.
  intros [T1 V1 N1 D1 L1 F1] [T2 V2 N2 D2 L2 F2]. split.
  - congruence.
  - congruence.
  - intros r. destruct (N1 r) as [A1 B1], (N2 r) as [A2 B2]. split.
    + congruence.
    + etransitivity; eassumption.
  - intros f o Hf Ho. apply D2; [|exact Ho]. apply D1; assumption.
  - congruence.
  - congruence.
Qed.

Lemma deref_insert_eq (st : NDNApp) (r : nat) (n : InterestTreeNode) (fs : list Future) :
  (r < length (int_nodes st))%nat ->
  deref (set_futures fs (set_int_nodes (<[r := n]> (int_nodes st)) st)) r = n.
Proof.
  intros Hlt. unfold deref. cbn [int_nodes set_futures set_int_nodes].
  rewrite list_lookup_insert_eq by exact Hlt. reflexivity.
Qed.

Lemma filter_nil_elem {A} (P : A -> Prop) `{!forall x, Decision (P x)}
      (l : list A) :
  (forall x, x ∈ l -> ~ P x) -> filter P l = [].
Proof.
  intros HP. induction l as [|a l IH]; [reflexivity|].
  rewrite filter_cons_False by (apply HP; left).
  apply IH. intros x Hx. apply HP. right. exact Hx.
Qed.

Lemma deref_insert (nodes : list InterestTreeNode) (r : nat)
      (n : InterestTreeNode) :
  (r < length nodes)%nat -> default new_node (<[r := n]> nodes !! r) = n.
Proof.
  intros Hlt. rewrite list_lookup_insert_eq by exact Hlt. reflexivity.
Qed.

(** Replacing the node [r] by one with the validator it had and some
    of its waiters. *)
Lemma insert_fewer (nodes : list InterestTreeNode) (r r0 : nat)
      (n : InterestTreeNode) :
  validator n = validator (default new_node (nodes !! r)) ->
  sublist (pending_list n) (pending_list (default new_node (nodes !! r))) ->
  validator (default new_node (<[r := n]> nodes !! r0))
  = validator (default new_node (nodes !! r0))
  /\ sublist (pending_list (default new_node (<[r := n]> nodes !! r0)))
             (pending_list (default new_node (nodes !! r0))).
Proof.
  intros Hv Hsub. destruct (decide (r0 = r)) as [->|Hne].
  - destruct (nodes !! r) as [n0|] eqn:Hn.
    + rewrite list_lookup_insert_eq by (eapply lookup_lt_Some; exact Hn).
      split; assumption.
    + rewrite list_insert_ge by (apply lookup_ge_None_1; exact Hn).
      rewrite Hn. split; reflexivity.
  - rewrite list_lookup_insert_ne by congruence. split; reflexivity.
Qed.

Lemma on_data_entry_run (name : Name) (meta_info : MetaInfo)
      (content : option BinaryStr) (sig : SignaturePtrs)
      (prefix : Name) (r : nat) (cl : list Name) (st : NDNApp) :
  exists res st',
    on_data_entry name meta_info content sig (prefix, r) cl st = (res, st')
    /\ entry_step name meta_info content sig prefix r cl st res st'.
Proof.
  unfold on_data_entry. run_m. fold (chosen_validator st r).
  destruct (validate (chosen_validator st r) name sig) eqn:Hval.
  - (* accepted: [satisfy] *)
    unfold satisfy.
    change (deref (emit (EvValidate (chosen_validator st r) name sig) st) r)
      with (deref st r).
    change (futures (emit (EvValidate (chosen_validator st r) name sig) st))
      with (futures st).
    set (o := Done (Ok (name, meta_info, content))).
    set (is_prefix := negb (bool_decide (prefix = name))).
    set (hit := filter (fun w => answers is_prefix w = true)
                  (pending_list (deref st r))).
    set (rest := filter (fun w => answers is_prefix w = false)
                   (pending_list (deref st r))).
    pose proof (length_resolve_all hit o (futures st)) as Hlen.
    pose proof (fun g => resolve_all_other hit g o (futures st)) as Hother.
    pose proof (fun g o' => resolve_all_done hit g o o' (futures st)) as Hdone.
    pose proof (resolve_all_result hit o (futures st)) as Hres.
    pose proof (resolve_all_ok hit o (futures st)) as Hok.
    assert (Hhit : forall x, x ∈ hit -> x ∈ pending_list (deref st r))
      by (intros x Hx; apply list_elem_of_filter in Hx as [_ Hx]; exact Hx).
    assert (Hfo : forall f,
               (forall x, x ∈ pending_list (deref st r) -> x.1 <> f) ->
               (resolve_all hit o (futures st)).2 !! f = futures st !! f)
      by (intros f Hf; apply Hother; intros x Hx; apply Hf, Hhit, Hx).
    assert (Hacc : NoDup (pending_list (deref st r)).*1 ->
                   (forall x, x ∈ pending_list (deref st r) ->
                              futures st !! x.1 = Some Pending) ->
                   (resolve_all hit o (futures st)).1 = Ok tt
                   /\ forall x, x ∈ pending_list (deref st r) ->
                        (resolve_all hit o (futures st)).2 !! x.1
                        = Some (if answers is_prefix x then o else Pending)).
    { intros Hnd Hp.
      destruct Hok as [Hok1 Hok2].
      { eapply NoDup_fst_sublist; [apply sublist_filter|exact Hnd]. }
      { intros x Hx. apply Hp, Hhit, Hx. }
      split; [exact Hok1|].
      intros x Hx. destruct (answers is_prefix x) eqn:Ha.
      - apply Hok2. apply list_elem_of_filter. split; assumption.
      - rewrite Hother; [apply Hp, Hx|].
        intros y Hy Heq. apply list_elem_of_filter in Hy as [Hy1 Hy].
        assert (y = x) as ->; [|congruence].
        apply (NoDup_fst_inj _ _ _ Hnd); [| |exact Heq]; assumption. }
    clear Hok Hother.
    destruct (resolve_all hit o (futures st)) as [[[]|e] fs];
      cbn [fst snd] in *.
    + eexists _, _. split; [reflexivity|].
      split; cbn [_int_tree data_validator futures int_nodes set_futures
                  set_int_nodes emit set_events].
      * split; cbn [_int_tree data_validator futures int_nodes set_futures
                    set_int_nodes emit set_events]; try reflexivity.
        -- intros r'. unfold deref.
           cbn [int_nodes set_futures set_int_nodes emit set_events].
           apply insert_fewer; [reflexivity|apply sublist_filter].
        -- exact Hdone.
        -- apply length_insert.
        -- exact Hlen.
      * intros r' Hne. apply list_lookup_insert_ne. congruence.
      * exact Hfo.
      * right. unfold cleaned, unanswered. cbn [fst snd]. rewrite Hval.
        reflexivity.
      * intros H. congruence.
      * intros _ Hnd Hp. cbv zeta. destruct (Hacc Hnd Hp) as [_ Hfs].
        split; [discriminate|]. split; [|exact Hfs].
        intros Hlt. unfold deref.
        cbn [int_nodes set_futures set_int_nodes emit set_events].
        rewrite deref_insert by exact Hlt. reflexivity.
    + destruct Hres as [Hres|Hres]; [discriminate|]. injection Hres as ->.
      eexists _, _. split; [reflexivity|].
      split; cbn [_int_tree data_validator futures int_nodes set_futures
                  set_int_nodes emit set_events].
      * split; cbn [_int_tree data_validator futures int_nodes set_futures
                    set_int_nodes emit set_events]; try reflexivity.
        -- intros r'. split; reflexivity.
        -- exact Hdone.
        -- exact Hlen.
      * reflexivity.
      * exact Hfo.
      * left. reflexivity.
      * intros H. congruence.
      * intros _ Hnd Hp. destruct (Hacc Hnd Hp) as [Habs _]. discriminate.
  - (* rejected: [invalid] *)
    unfold invalid. run_m.
    change (deref (emit (EvValidate (chosen_validator st r) name sig) st) r)
      with (deref st r).
    eexists _, _. split; [reflexivity|].
    split; cbn [_int_tree data_validator futures int_nodes set_futures
                set_int_nodes emit set_events].
    + split; cbn [_int_tree data_validator futures int_nodes set_futures
                  set_int_nodes emit set_events]; try reflexivity.
      * intros r'. unfold deref.
        cbn [int_nodes set_futures set_int_nodes emit set_events].
        apply insert_fewer; reflexivity.
      * intros f o Hf _. exact Hf.
      * apply length_insert.
    + intros r' Hne. apply list_lookup_insert_ne. congruence.
    + reflexivity.
    + right. unfold cleaned. cbn [fst snd]. rewrite Hval. reflexivity.
    + intros _. split; [reflexivity|]. split; [reflexivity|].
      unfold deref. cbn [int_nodes set_futures set_int_nodes emit set_events].
      split.
      * destruct (decide (r < length (int_nodes st))%nat) as [Hlt|Hge].
        -- rewrite deref_insert by exact Hlt. reflexivity.
        -- rewrite list_insert_ge by lia. reflexivity.
      * intros Hlt. rewrite deref_insert by exact Hlt. reflexivity.
    + intros H. congruence.
Qed.

(** The first loop of [_on_data], whatever the entries hold. *)
Lemma on_data_loop_run (name : Name) (meta_info : MetaInfo)
      (content : option BinaryStr) (sig : SignaturePtrs)
      (entries : list (Name * nat)) (cl : list Name) (st : NDNApp) :
  exists res st',
    on_data_loop name meta_info content sig entries cl st = (res, st')
    /\ data_frame st st'
    /\ (forall r, r ∉ entries.*2 -> int_nodes st' !! r = int_nodes st !! r)
    /\ (forall f,
          (forall e x, e ∈ entries -> x ∈ pending_list (deref st e.2) -> x.1 <> f) ->
          futures st' !! f = futures st !! f)
    /\ (res = Raise InvalidStateError
        \/ exists sub, res = Ok (cl ++ sub) /\ sublist sub entries.*1).
Proof.
  revert cl st. induction entries as [|[p r] rest IH]; intros cl st.
  - exists (Ok cl), st. split; [reflexivity|]. split; [apply data_frame_refl|].
    split; [reflexivity|]. split; [reflexivity|].
    right. exists []. rewrite app_nil_r. split; [reflexivity|constructor].
  - cbn [on_data_loop]. run_m.
    destruct (on_data_entry_run name meta_info content sig p r cl st)
      as (res1 & st1 & -> & Hstep).
    pose proof (es_frame _ _ _ _ _ _ _ _ _ _ Hstep) as Hfr1.
    destruct (es_result _ _ _ _ _ _ _ _ _ _ Hstep) as [-> | ->].
    + exists (Raise InvalidStateError), st1. split; [reflexivity|].
      split; [exact Hfr1|]. split; [|split].
      * intros r' Hr'. cbn [fmap list_fmap snd] in Hr'.
        apply not_elem_of_cons in Hr' as [Hne _].
        apply (es_node_other _ _ _ _ _ _ _ _ _ _ Hstep). exact Hne.
      * intros f Hf. apply (es_future_other _ _ _ _ _ _ _ _ _ _ Hstep).
        intros x Hx. apply (Hf (p, r)); [left|exact Hx].
      * left. reflexivity.
    + set (cl1 := if cleaned st name sig (p, r) then cl ++ [p] else cl).
      destruct (IH cl1 st1) as (res & st' & -> & Hfr & Hnodes & Hfut & Hres).
      exists res, st'. split; [reflexivity|].
      split; [eapply data_frame_trans; eassumption|].
      split; [|split].
      * intros r' Hr'. cbn [fmap list_fmap snd] in Hr'.
        apply not_elem_of_cons in Hr' as [Hne Hr'].
        rewrite Hnodes by exact Hr'.
        apply (es_node_other _ _ _ _ _ _ _ _ _ _ Hstep). exact Hne.
      * intros f Hf. rewrite Hfut.
        -- apply (es_future_other _ _ _ _ _ _ _ _ _ _ Hstep).
           intros x Hx. apply (Hf (p, r)); [left|exact Hx].
        -- intros e x He Hx. apply (Hf e); [right; exact He|].
           eapply elem_of_sublist; [exact Hx|]. apply (df_nodes _ _ Hfr1).
      * destruct Hres as [->|(sub & -> & Hsub)]; [left; reflexivity|].
        right. subst cl1. destruct (cleaned st name sig (p, r)).
        -- exists (p :: sub). rewrite <- app_assoc. split; [reflexivity|].
           cbn [fmap list_fmap fst]. apply sublist_skip. exact Hsub.
        -- exists sub. split; [reflexivity|].
           cbn [fmap list_fmap fst]. apply sublist_cons. exact Hsub.
Qed.

Lemma filter_ext_elem {A : Type} (P Q : A -> Prop)
      `{!forall x, Decision (P x)} `{!forall x, Decision (Q x)} (l : list A) :
  (forall x, x ∈ l -> P x <-> Q x) -> filter P l = filter Q l.
Proof.
  induction l as [|a l IH]; intros Hext; [reflexivity|].
  assert (Hl : filter P l = filter Q l)
    by (apply IH; intros x Hx; apply Hext; right; exact Hx).
  rewrite !filter_cons.
  destruct (decide (P a)) as [Hp|Hp], (decide (Q a)) as [Hq|Hq].
  - rewrite Hl. reflexivity.
  - exfalso. apply Hq, (Hext a); [left|exact Hp].
  - exfalso. apply Hp, (Hext a); [left|exact Hq].
  - exact Hl.
Qed.

(** What [_on_data] makes of an entry depends on the node of the
    entry, the default validator and the futures only. *)
Lemma entry_after_same (name : Name) (meta_info : MetaInfo)
      (content : option BinaryStr) (sig : SignaturePtrs) (p : Name) (r : nat)
      (st0 st st' st'' : NDNApp) :
  deref st r = deref st0 r -> data_validator st = data_validator st0 ->
  deref st'' r = deref st' r ->
  (forall x, x ∈ pending_list (deref st0 r) ->
             futures st'' !! x.1 = futures st' !! x.1) ->
  entry_after name meta_info content sig p r st st' ->
  entry_after name meta_info content sig p r st0 st''.
Proof.
  intros Hd Hv Hd' Hf [V R A].
  unfold chosen_validator, unanswered in *. rewrite Hd, Hv in *.
  split; unfold chosen_validator, unanswered; rewrite Hd'.
  - exact V.
  - intros Hrej. destruct (R Hrej) as (R1 & R2 & R3).
    split; [exact R1|]. split; [exact R2|].
    intros x Hx. rewrite Hf by exact Hx. apply R3, Hx.
  - intros Hacc. destruct (A Hacc) as [A1 A2]. split; [exact A1|].
    intros x Hx. rewrite Hf by exact Hx. apply A2, Hx.
Qed.

Lemma cleaned_same (name : Name) (sig : SignaturePtrs) (e : Name * nat)
      (st st' : NDNApp) :
  deref st' e.2 = deref st e.2 -> data_validator st' = data_validator st ->
  cleaned st' name sig e = cleaned st name sig e.
Proof.
  intros Hd Hv. unfold cleaned, chosen_validator, unanswered.
  rewrite Hd, Hv. reflexivity.
Qed.

(** The first loop of [_on_data] over entries that are ready. *)
Lemma on_data_loop_ready (name : Name) (meta_info : MetaInfo)
      (content : option BinaryStr) (sig : SignaturePtrs)
      (entries : list (Name * nat)) (cl : list Name) (st : NDNApp) :
  ready st entries ->
  exists st',
    on_data_loop name meta_info content sig entries cl st
    = (Ok (cl ++ (filter (fun e => cleaned st name sig e = true) entries).*1),
       st')
    /\ forall p r, (p, r) ∈ entries ->
                   entry_after name meta_info content sig p r st st'.
Proof.
  revert cl st. induction entries as [|[p r] rest IH]; intros cl st Hrd.
  - exists st. cbn [on_data_loop]. rewrite filter_nil, app_nil_r.
    split; [reflexivity|]. intros q r' Hq. inversion Hq.
  - destruct Hrd as [Hnodes Href Hnd Hpend Hdisj].
    cbn [fmap list_fmap snd] in Hnodes.
    apply NoDup_cons in Hnodes as [Hr Hnodes].
    assert (Hrest : forall e, e ∈ rest -> e.2 <> r).
    { intros e He Heq. apply Hr. rewrite <- Heq.
      apply list_elem_of_fmap. exists e. split; [reflexivity|exact He]. }
    cbn [on_data_loop]. run_m.
    destruct (on_data_entry_run name meta_info content sig p r cl st)
      as (res1 & st1 & Hrun1 & Hstep).
    rewrite Hrun1.
    pose proof (es_frame _ _ _ _ _ _ _ _ _ _ Hstep) as Hfr1.
    pose proof (Href (p, r) ltac:(left)) as Hlt. cbn [snd] in Hlt.
    pose proof (Hnd (p, r) ltac:(left)) as Hnd0. cbn [snd] in Hnd0.
    assert (Hp0 : forall x, x ∈ pending_list (deref st r) ->
                            futures st !! x.1 = Some Pending)
      by (intros x Hx; apply (Hpend (p, r)); [left|exact Hx]).
    (* the entry itself *)
    assert (Hthis : res1 <> Raise InvalidStateError
                    /\ entry_after name meta_info content sig p r st st1).
    { destruct (validate (chosen_validator st r) name sig) eqn:Hval.
      - destruct (es_accept _ _ _ _ _ _ _ _ _ _ Hstep Hval Hnd0 Hp0)
          as (Hok & Hpl & Hfs).
        split; [exact Hok|]. split.
        + apply (df_nodes _ _ Hfr1).
        + intros H. congruence.
        + intros _. split; [apply Hpl, Hlt|exact Hfs].
      - destruct (es_reject _ _ _ _ _ _ _ _ _ _ Hstep Hval)
          as (-> & Hfs & Hpl & Hnot).
        split; [discriminate|]. split.
        + apply (df_nodes _ _ Hfr1).
        + intros _. split; [exact Hpl|]. split; [apply Hnot, Hlt|].
          intros x Hx. rewrite Hfs. apply Hp0, Hx.
        + intros H. congruence. }
    destruct Hthis as [Hok Hafter].
    destruct (es_result _ _ _ _ _ _ _ _ _ _ Hstep) as [Hres| ->];
      [contradiction|].
    clear Hok Hrun1.
    (* the other entries are as they were *)
    assert (Hderef : forall e, e ∈ rest -> deref st1 e.2 = deref st e.2).
    { intros e He. unfold deref.
      rewrite (es_node_other _ _ _ _ _ _ _ _ _ _ Hstep) by (apply Hrest, He).
      reflexivity. }
    assert (Hfut : forall e x, e ∈ rest -> x ∈ pending_list (deref st e.2) ->
                               futures st1 !! x.1 = futures st !! x.1).
    { intros e x He Hx. apply (es_future_other _ _ _ _ _ _ _ _ _ _ Hstep).
      intros y Hy Heq. apply (Hrest e He).
      apply (Hdisj e (p, r) x y); [right; exact He|left|exact Hx|exact Hy|].
      symmetry. exact Heq. }
    assert (Hrd1 : ready st1 rest).
    { split.
      - exact Hnodes.
      - intros e He. rewrite (df_len_nodes _ _ Hfr1). apply Href. right. exact He.
      - intros e He. rewrite Hderef by exact He. apply Hnd. right. exact He.
      - intros e x He Hx. rewrite Hderef in Hx by exact He.
        rewrite (Hfut e x He Hx). apply (Hpend e); [right; exact He|exact Hx].
      - intros e1 e2 x1 x2 H1 H2 Hx1 Hx2.
        rewrite Hderef in Hx1, Hx2 by assumption.
        apply (Hdisj e1 e2 x1 x2); try assumption; right; assumption. }
    set (cl1 := if cleaned st name sig (p, r) then cl ++ [p] else cl).
    destruct (IH cl1 st1 Hrd1) as (st' & Hloop & Hrestafter).
    destruct (on_data_loop_run name meta_info content sig rest cl1 st1)
      as (res' & st2 & Hloop' & Hfr & Hn & Hf & _).
    rewrite Hloop in Hloop'. injection Hloop' as <- <-.
    exists st'. split.
    + rewrite Hloop. f_equal. f_equal.
      rewrite (filter_ext_elem (fun e => cleaned st1 name sig e = true)
                 (fun e => cleaned st name sig e = true) rest).
      2:{ intros e He. rewrite (cleaned_same name sig e st st1);
            [reflexivity|apply Hderef, He|apply (df_data_validator _ _ Hfr1)]. }
      rewrite filter_cons. subst cl1.
      destruct (cleaned st name sig (p, r)) eqn:Hc.
      * rewrite decide_True by reflexivity. rewrite <- app_assoc. reflexivity.
      * rewrite decide_False by discriminate. reflexivity.
    + intros q r' Hq. apply elem_of_cons in Hq as [Hq|Hq].
      * injection Hq as -> ->.
        apply (entry_after_same name meta_info content sig p r st st st1 st');
          [reflexivity|reflexivity| | |exact Hafter].
        -- unfold deref. rewrite Hn by exact Hr. reflexivity.
        -- intros x Hx. apply Hf. intros e y He Hy Heq.
           rewrite Hderef in Hy by exact He. apply (Hrest e He).
           apply (Hdisj e (p, r) y x); [right; exact He|left|exact Hy|exact Hx|].
           exact Heq.
      * apply (entry_after_same name meta_info content sig q r' st st1 st' st');
          [| |reflexivity|reflexivity|apply Hrestafter, Hq].
        -- apply (Hderef (q, r') Hq).
        -- apply (df_data_validator _ _ Hfr1).
Qed.

(** *** The prefixes of a name *)

Lemma NoDup_prefixes_of (name : Name) : NoDup (NameTrie.prefixes_of name).
Proof.
  unfold NameTrie.prefixes_of. apply NoDup_fmap_2_strong; [|apply NoDup_seq].
  intros k1 k2 H1 H2 Heq.
  apply elem_of_seq in H1, H2.
  apply (f_equal length) in Heq. rewrite !length_take in Heq. lia.
Qed.

Lemma prefixes_sublist {V} (t : gmap Name V) (l : list Name) :
  sublist (omap (fun p => (fun v => (p, v)) <$> t !! p) l).*1 l.
Proof.
  induction l as [|p l IH]; [constructor|].
  cbn [omap list_omap]. destruct (t !! p) as [v|]; cbn [fmap option_fmap option_map].
  - cbn [fmap list_fmap fst]. apply sublist_skip. exact IH.
  - apply sublist_cons. exact IH.
Qed.

Lemma NoDup_prefixes {V} (t : gmap Name V) (name : Name) :
  NoDup (NameTrie.prefixes t name).*1.
Proof.
  apply (sublist_NoDup _ (NameTrie.prefixes_of name));
    [apply NoDup_prefixes_of|apply prefixes_sublist].
Qed.

Lemma elem_of_prefixes {V} (t : gmap Name V) (name p : Name) (v : V) :
  (p, v) ∈ NameTrie.prefixes t name
  <-> p ∈ NameTrie.prefixes_of name /\ t !! p = Some v.
Proof.
  unfold NameTrie.prefixes. rewrite list_elem_of_omap. split.
  - intros (q & Hq & Hf). destruct (t !! q) as [v'|] eqn:Hv; [|discriminate].
    cbn in Hf. injection Hf as <- <-. split; assumption.
  - intros [Hp Hv]. exists p. split; [exact Hp|]. rewrite Hv. reflexivity.
Qed.

Lemma name_in_prefixes_of (name : Name) : name ∈ NameTrie.prefixes_of name.
Proof.
  unfold NameTrie.prefixes_of. apply list_elem_of_fmap.
  exists (length name). split; [symmetry; apply take_ge; lia|].
  apply elem_of_seq. lia.
Qed.

(** *** Deleting the clean entries *)

Lemma del_all_run (cl : list Name) (st : NDNApp) :
  NoDup cl -> (forall q, q ∈ cl -> is_Some (_int_tree st !! q)) ->
  exists t,
    del_all cl st = (Ok tt, set_int_tree t st)
    /\ (forall q, q ∈ cl -> t !! q = None)
    /\ (forall q, q ∉ cl -> t !! q = _int_tree st !! q).
Proof.
  revert st. induction cl as [|p cl IH]; intros st Hnd Hin.
  - exists (_int_tree st). split; [destruct st; reflexivity|].
    split; [|reflexivity]. intros q Hq. inversion Hq.
  - apply NoDup_cons in Hnd as [Hp Hnd].
    cbn [del_all]. run_m. unfold int_tree_del, NameTrie.delitem.
    destruct (Hin p) as [r Hr]; [left|]. rewrite Hr.
    destruct (IH (set_int_tree (delete p (_int_tree st)) st) Hnd)
      as (t & -> & Hgone & Hkeep).
    { intros q Hq. cbn [_int_tree set_int_tree].
      rewrite lookup_delete_ne by (intros ->; contradiction).
      apply Hin. right. exact Hq. }
    exists t. split; [reflexivity|]. split.
    + intros q Hq. apply elem_of_cons in Hq as [->|Hq]; [|apply Hgone; exact Hq].
      rewrite Hkeep by exact Hp. cbn [_int_tree set_int_tree].
      apply lookup_delete_eq.
    + intros q Hq. apply not_elem_of_cons in Hq as [Hne Hq].
      rewrite Hkeep by exact Hq. cbn [_int_tree set_int_tree].
      apply lookup_delete_ne. congruence.
Qed.

Lemma deref_elem (st : NDNApp) (r : nat) (x : nat * InterestParam) :
  x ∈ pending_list (deref st r) ->
  exists n, int_nodes st !! r = Some n /\ x ∈ pending_list n.
Proof.
  unfold deref. destruct (int_nodes st !! r) as [n|]; cbn [from_option id].
  - eauto.
  - intros H. inversion H.
Qed.

Lemma deref_lookup (st : NDNApp) (r : nat) (n : InterestTreeNode) :
  int_nodes st !! r = Some n -> deref st r = n.
Proof. intros H. unfold deref. rewrite H. reflexivity. Qed.

(** *** Well-formed states *)

(** [wf] looks at the interest tree, its nodes and the futures only. *)
Lemma wf_same (st st' : NDNApp) :
  _int_tree st' = _int_tree st -> int_nodes st' = int_nodes st ->
  futures st' = futures st -> wf st -> wf st'.
Proof.
  intros Ht Hn Hf [R I F D N].
  split; rewrite ?Ht, ?Hn, ?Hf; assumption.
Qed.

(** Entries may leave the tree and waiters may leave the nodes. *)
Lemma wf_shrink (st st' : NDNApp) :
  (forall p r, _int_tree st' !! p = Some r -> _int_tree st !! p = Some r) ->
  length (int_nodes st') = length (int_nodes st) ->
  (forall r, sublist (pending_list (deref st' r)) (pending_list (deref st r))) ->
  length (futures st') = length (futures st) ->
  wf st -> wf st'.
Proof.
  intros Ht Hn Hp Hf [R I F D N].
  assert (Hold : forall r n x,
             int_nodes st' !! r = Some n -> x ∈ pending_list n ->
             exists n0, int_nodes st !! r = Some n0 /\ x ∈ pending_list n0).
  { intros r n x Hr Hx. apply deref_elem.
    eapply elem_of_sublist; [|apply Hp].
    rewrite (deref_lookup _ _ _ Hr). exact Hx. }
  split.
  - intros p r H. rewrite Hn. eapply R, Ht, H.
  - intros p q r H1 H2. eapply I; apply Ht; eassumption.
  - intros r n x Hr Hx. rewrite Hf.
    destruct (Hold r n x Hr Hx) as (n0 & Hn0 & Hx0). eapply F; eassumption.
  - intros r1 r2 n1 n2 x1 x2 H1 H2 Hx1 Hx2 Heq.
    destruct (Hold r1 n1 x1 H1 Hx1) as (m1 & Hm1 & Hy1).
    destruct (Hold r2 n2 x2 H2 Hx2) as (m2 & Hm2 & Hy2).
    eapply (D r1 r2); eassumption.
  - intros r n Hr. pose proof (Hp r) as Hs.
    rewrite (deref_lookup _ _ _ Hr) in Hs.
    apply (NoDup_fst_sublist _ _ Hs).
    unfold deref. destruct (int_nodes st !! r) as [n0|] eqn:Hn0;
      cbn [from_option id]; [eapply N; exact Hn0|apply NoDup_nil_2].
Qed.

Lemma wf_delete (st : NDNApp) (t : gmap Name nat) :
  (forall p r, t !! p = Some r -> _int_tree st !! p = Some r) ->
  wf st -> wf (set_int_tree t st).
Proof.
  intros Ht. apply wf_shrink; cbn [_int_tree int_nodes futures set_int_tree];
    try reflexivity. exact Ht.
Qed.

Lemma NoDup_snd {A B : Type} (l : list (A * B)) :
  NoDup l.*1 ->
  (forall e1 e2, e1 ∈ l -> e2 ∈ l -> e1.2 = e2.2 -> e1.1 = e2.1) ->
  NoDup l.*2.
Proof.
  induction l as [|a l IH]; intros Hnd Hinj; [constructor|].
  rewrite fmap_cons in Hnd. apply NoDup_cons in Hnd as [Ha Hnd].
  rewrite fmap_cons. apply NoDup_cons. split.
  - intros Hin. apply list_elem_of_fmap in Hin as (e & He & Hin).
    apply Ha. rewrite (Hinj a e ltac:(left) ltac:(right; exact Hin) He).
    apply list_elem_of_fmap. exists e. split; [reflexivity|exact Hin].
  - apply IH; [exact Hnd|].
    intros e1 e2 H1 H2. apply Hinj; right; assumption.
Qed.

(** In a well-formed state whose waiters at the prefixes of a name are
    pending, the entries [_on_data] visits for the name are ready. *)
Lemma wf_ready (st : NDNApp) (name : Name) :
  wf st -> waiting st name -> ready st (NameTrie.prefixes (_int_tree st) name).
Proof.
  intros Hwf Hwait.
  assert (Hlook : forall e, e ∈ NameTrie.prefixes (_int_tree st) name ->
                  e.1 ∈ NameTrie.prefixes_of name
                  /\ _int_tree st !! e.1 = Some e.2)
    by (intros [q r'] He; apply elem_of_prefixes in He; exact He).
  split.
  - apply NoDup_snd; [apply NoDup_prefixes|].
    intros e1 e2 H1 H2 Heq. apply (wf_inj st Hwf _ _ e1.2).
    + apply Hlook, H1.
    + rewrite Heq. apply Hlook, H2.
  - intros e He. eapply (wf_ref st Hwf). apply Hlook, He.
  - intros e He. unfold deref.
    destruct (int_nodes st !! e.2) as [n|] eqn:Hn; cbn [from_option id];
      [eapply (wf_nodup st Hwf); exact Hn|apply NoDup_nil_2].
  - intros e x He Hx. destruct (Hlook e He) as [Hp Ht].
    exact (Hwait _ _ _ Hp Ht Hx).
  - intros e1 e2 x1 x2 _ _ Hx1 Hx2 Heq.
    apply deref_elem in Hx1 as (n1 & Hn1 & Hx1).
    apply deref_elem in Hx2 as (n2 & Hn2 & Hx2).
    eapply (wf_disj st Hwf); eassumption.
Qed.

(** *** [_on_data] as a whole *)

(** [_on_data] in any state: all it can raise is [InvalidStateError],
    out of its first loop; each name it deletes in its second loop is
    an entry then. *)
Lemma on_data_frame (name : Name) (meta_info : MetaInfo)
      (content : option BinaryStr) (sig : SignaturePtrs) (st : NDNApp) :
  exists res st1 t,
    _on_data name meta_info content sig st = (res, set_int_tree t st1)
    /\ (res = Ok tt \/ res = Raise InvalidStateError)
    /\ data_frame st st1
    /\ (forall r, r ∉ (NameTrie.prefixes (_int_tree st) name).*2 ->
                  int_nodes st1 !! r = int_nodes st !! r)
    /\ (forall q r, t !! q = Some r -> _int_tree st !! q = Some r)
    /\ (forall q, q ∉ NameTrie.prefixes_of name -> t !! q = _int_tree st !! q).
Proof.
  unfold _on_data. run_m.
  destruct (on_data_loop_run name meta_info content sig
              (NameTrie.prefixes (_int_tree st) name) [] st)
    as (res & st1 & -> & Hfr & Hnodes & _ & Hres).
  destruct Hres as [->|(cl & -> & Hsub)].
  - exists (Raise InvalidStateError), st1, (_int_tree st).
    split; [rewrite <- (df_tree _ _ Hfr); destruct st1; reflexivity|].
    split; [right; reflexivity|]. split; [exact Hfr|].
    split; [exact Hnodes|]. split; [auto|reflexivity].
  - cbn [app].
    assert (Hin : forall q, q ∈ cl ->
                    q ∈ NameTrie.prefixes_of name
                    /\ is_Some (_int_tree st !! q)).
    { intros q Hq. apply (elem_of_sublist _ _ _ Hq) in Hsub.
      apply list_elem_of_fmap in Hsub as ([q' r'] & -> & Hsub).
      apply elem_of_prefixes in Hsub as [Hp Hsub]. eauto. }
    destruct (del_all_run cl st1) as (t & -> & Hgone & Hkeep).
    { apply (sublist_NoDup _ _ (NoDup_prefixes (_int_tree st) name) Hsub). }
    { intros q Hq. rewrite (df_tree _ _ Hfr). apply Hin, Hq. }
    exists (Ok tt), st1, t. split; [reflexivity|].
    split; [left; reflexivity|]. split; [exact Hfr|].
    split; [exact Hnodes|]. split.
    + intros q r Hq. destruct (decide (q ∈ cl)) as [Hc|Hc].
      * rewrite (Hgone q Hc) in Hq. discriminate.
      * rewrite (Hkeep q Hc), (df_tree _ _ Hfr) in Hq. exact Hq.
    + intros q Hq. rewrite Hkeep, (df_tree _ _ Hfr); [reflexivity|].
      intros Hc. apply Hq, Hin, Hc.
Qed.

Lemma on_data_wf (name : Name) (meta_info : MetaInfo)
      (content : option BinaryStr) (sig : SignaturePtrs) (st : NDNApp) :
  wf st -> wf (_on_data name meta_info content sig st).2.
Proof.
  destruct (on_data_frame name meta_info content sig st)
    as (res & st1 & t & -> & _ & Hfr & _ & Ht & _).
  cbn [snd]. apply wf_shrink; cbn [_int_tree int_nodes futures set_int_tree].
  - exact Ht.
  - apply (df_len_nodes _ _ Hfr).
  - intros r. apply (df_nodes _ _ Hfr).
  - apply (df_len_futures _ _ Hfr).
Qed.

(** [_on_data] in a well-formed state whose waiters at the prefixes of
    the Data name are pending: it returns, and an entry is gone when
    it was cleaned and stays otherwise. *)
Lemma on_data_run (st : NDNApp) (name : Name) (meta_info : MetaInfo)
      (content : option BinaryStr) (sig : SignaturePtrs) :
  wf st -> waiting st name ->
  exists st',
    _on_data name meta_info content sig st = (Ok tt, st')
    /\ data_validator st' = data_validator st
    /\ forall p r,
        (p, r) ∈ NameTrie.prefixes (_int_tree st) name ->
        entry_after name meta_info content sig p r st st'
        /\ _int_tree st' !! p
           = if cleaned st name sig (p, r) then None else Some r.
Proof.
  intros Hwf Hwait. unfold _on_data. run_m.
  destruct (on_data_loop_ready name meta_info content sig
              (NameTrie.prefixes (_int_tree st) name) [] st
              (wf_ready st name Hwf Hwait))
    as (st1 & Hloop & Hafter).
  destruct (on_data_loop_run name meta_info content sig
              (NameTrie.prefixes (_int_tree st) name) [] st)
    as (res & st1' & Hloop' & Hfr & _).
  rewrite Hloop in Hloop'. injection Hloop' as <- <-.
  rewrite Hloop. cbn [app].
  set (cl := (filter (fun e => cleaned st name sig e = true)
                (NameTrie.prefixes (_int_tree st) name)).*1).
  assert (Hsub : sublist cl (NameTrie.prefixes (_int_tree st) name).*1)
    by (apply fmap_sublist, sublist_filter).
  destruct (del_all_run cl st1) as (t & -> & Hgone & Hkeep).
  { apply (sublist_NoDup _ _ (NoDup_prefixes (_int_tree st) name) Hsub). }
  { intros q Hq. rewrite (df_tree _ _ Hfr).
    apply (elem_of_sublist _ _ _ Hq) in Hsub.
    apply list_elem_of_fmap in Hsub as ([q' r'] & -> & Hsub).
    apply elem_of_prefixes in Hsub as [_ Hsub]. eauto. }
  eexists. split; [reflexivity|].
  split; [apply (df_data_validator _ _ Hfr)|].
  intros p r Hin. split.
  - apply (entry_after_same name meta_info content sig p r st st st1);
      [reflexivity|reflexivity|reflexivity|reflexivity|apply Hafter, Hin].
  - cbn [_int_tree set_int_tree].
    destruct (cleaned st name sig (p, r)) eqn:Hc.
    + apply Hgone. subst cl. apply list_elem_of_fmap. exists (p, r).
      split; [reflexivity|]. apply list_elem_of_filter. split; assumption.
    + rewrite Hkeep, (df_tree _ _ Hfr).
      * apply elem_of_prefixes in Hin as [_ Hin]. exact Hin.
      * intros Hq. subst cl.
        apply list_elem_of_fmap in Hq as ([q r'] & Heq & Hq).
        cbn [fst] in Heq. subst q.
        apply list_elem_of_filter in Hq as [Hcl Hq].
        apply elem_of_prefixes in Hq as [_ Hq].
        apply elem_of_prefixes in Hin as [_ Hin].
        rewrite Hin in Hq. injection Hq as <-. congruence.
Qed.


End OnDataFacts.

Section AggregationFacts.
Import App.
Context {E : Env}.

Ltac run_m :=
  unfold mbind, mret, M_bind, M_ret, bind, ret, get, modify, raise, lift;
  cbv beta iota.

Lemma wait_for_data_done (st : NDNApp) (w : Waiter) (waited : Z) (r : result Data) :
  futures st !! w_future w = Some (Done r) ->
  _wait_for_data w waited st = Some (r, st).
Proof.
  intros H. unfold _wait_for_data. rewrite H. destruct r; reflexivity.
Qed.


Lemma express_interest_preserves_wf
      (st st' : NDNApp) (w : Waiter) (name : NonStrictName)
      (app_param : option BinaryStr) (v : option Validator)
      (kwargs : Kwargs KwRest) :
  wf st ->
  express_interest name app_param v kwargs st = (Ok w, st') -> wf st'.
Proof.
  intros Hwf Heq.
  destruct (express_interest_returned _ _ _ _ _ _ _ Heq) as [Hrun Hkw].
  destruct (express_interest_expressed st name app_param v kwargs Hwf Hrun Hkw)
    as (w' & st'' & i & ip & Heq' & Hex).
  rewrite Heq in Heq'. injection Heq' as <- <-.
  apply (ex_wf _ _ _ _ _ _ Hex).
Qed.

(** What a call that returned made of the state. *)
Lemma express_interest_inv
      (st st' : NDNApp) (w : Waiter) (name : NonStrictName)
      (app_param : option BinaryStr) (v : option Validator)
      (kwargs : Kwargs KwRest) :
  wf st ->
  express_interest name app_param v kwargs st = (Ok w, st') ->
  exists interest ip, expressed st v w ip interest st'.
Proof.
  intros Hwf Heq.
  destruct (express_interest_returned _ _ _ _ _ _ _ Heq) as [Hrun Hkw].
  destruct (express_interest_expressed st name app_param v kwargs Hwf Hrun Hkw)
    as (w' & st'' & i & ip & Heq' & Hex).
  rewrite Heq in Heq'. injection Heq' as <- <-.
  exists i, ip. exact Hex.
Qed.

(** The future of the waiter a call returned is pending. *)
Lemma expressed_pending (st st' : NDNApp) (v : option Validator) (w : Waiter)
      (ip : InterestParam) (interest : BinaryStr) :
  expressed st v w ip interest st' ->
  futures st' !! w_future w = Some Pending.
Proof.
  intros Hex. rewrite (ex_futures _ _ _ _ _ _ Hex), (ex_future _ _ _ _ _ _ Hex).
  rewrite lookup_app_r, Nat.sub_diag by lia. reflexivity.
Qed.

(** Expressing an Interest leaves the waiters pending that were. *)
Lemma expressed_waiting (st st' : NDNApp) (v : option Validator) (w : Waiter)
      (ip : InterestParam) (interest : BinaryStr) (name : Name) :
  expressed st v w ip interest st' -> waiting st name -> waiting st' name.
Proof.
  intros Hex Hwait p r x Hp Hr Hx.
  assert (Hold : forall y : nat * InterestParam,
             futures st !! y.1 = Some Pending ->
             futures st' !! y.1 = Some Pending).
  { intros y Hy. rewrite (ex_futures _ _ _ _ _ _ Hex).
    apply lookup_app_l_Some. exact Hy. }
  destruct (decide (r = w_node w)) as [->|Hne].
  - rewrite (deref_lookup _ _ _ (ex_node _ _ _ _ _ _ Hex)) in Hx.
    cbn [pending_list set_validator append_interest] in Hx.
    apply elem_of_app in Hx as [Hx|Hx].
    + apply Hold.
      destruct (_int_tree st !! w_name w) as [r0|] eqn:Htree.
      * destruct (ex_tree_same _ _ _ _ _ _ Hex r0 Htree) as [Hn Ht].
        rewrite Ht in Hr. exact (Hwait p (w_node w) x Hp Hr Hx).
      * destruct (ex_tree_new _ _ _ _ _ _ Hex Htree) as [Hn _].
        unfold deref in Hx. rewrite Hn, lookup_ge_None_2 in Hx by lia.
        inversion Hx.
    + apply list_elem_of_singleton in Hx as ->.
      apply (expressed_pending _ _ _ _ _ _ Hex).
  - assert (Hpne : p <> w_name w).
    { intros ->. rewrite (ex_entry _ _ _ _ _ _ Hex) in Hr. congruence. }
    rewrite (ex_tree_other _ _ _ _ _ _ Hex p Hpne) in Hr.
    unfold deref in Hx. rewrite (ex_node_other _ _ _ _ _ _ Hex r Hne) in Hx.
    apply Hold. exact (Hwait p r x Hp Hr Hx).
Qed.

Lemma express_interest_keeps_waiting
      (st st' : NDNApp) (w : Waiter) (name : NonStrictName)
      (app_param : option BinaryStr) (v : option Validator)
      (kwargs : Kwargs KwRest) (dname : Name) :
  wf st -> waiting st dname ->
  express_interest name app_param v kwargs st = (Ok w, st') ->
  waiting st' dname.
Proof.
  intros Hwf Hwait Heq.
  destruct (express_interest_inv st st' w name app_param v kwargs Hwf Heq)
    as (i & ip & Hex).
  exact (expressed_waiting _ _ _ _ _ _ _ Hex Hwait).
Qed.

Lemma waiting_init (running : bool) (name : Name) : waiting (init running) name.
Proof. intros p r x _ H. cbn in H. rewrite lookup_empty in H. discriminate. Qed.

(** C9. Every [express_interest] call that returns has stored its
    validator argument in the entry of the final name, whatever the
    entry held: the validator [_on_data] then awaits for that entry,
    for the earlier waiters too, is the argument of this call, or the
    default data validator when the argument is [None]. The call
    returns when the face is running and the keyword arguments hold no
    [interest_param]. *)
Theorem express_interest_stores_validator
        (st : NDNApp) (name : NonStrictName) (app_param : option BinaryStr)
        (v : option Validator) (kwargs : Kwargs KwRest) :
  wf st ->
  (face_running st = true -> kw_interest_param kwargs = None ->
   exists w st', express_interest name app_param v kwargs st = (Ok w, st'))
  /\ forall w st',
      express_interest name app_param v kwargs st = (Ok w, st') ->
      _int_tree st' !! w_name w = Some (w_node w)
      /\ validator (deref st' (w_node w)) = v
      /\ chosen_validator st' (w_node w)
         = match v with Some x => x | None => data_validator st end
      /\ (forall r,
            _int_tree st !! w_name w = Some r ->
            w_node w = r
            /\ exists ip,
                pending_list (deref st' r)
                = pending_list (deref st r) ++ [(w_future w, ip)]).
Proof.
  intros Hwf. split.
  - intros Hrun Hkw.
    destruct (express_interest_run st name app_param v kwargs Hrun Hkw)
      as (w & st' & interest & ip & Heq & _).
    exists w, st'. exact Heq.
  - intros w st' Heq.
    destruct (express_interest_inv st st' w name app_param v kwargs Hwf Heq)
      as (interest & ip & Hex).
    pose proof (deref_lookup _ _ _ (ex_node _ _ _ _ _ _ Hex)) as Hd.
    split; [apply (ex_entry _ _ _ _ _ _ Hex)|].
    split; [rewrite Hd; reflexivity|].
    split.
    + unfold chosen_validator. rewrite Hd.
      cbn [validator set_validator]. rewrite (ex_data_validator _ _ _ _ _ _ Hex).
      reflexivity.
    + intros r Hr. destruct (ex_tree_same _ _ _ _ _ _ Hex r Hr) as [<- _].
      split; [reflexivity|]. exists ip. rewrite Hd. reflexivity.
Qed.




End AggregationFacts.

Section Invariant.
Import App.
Context {E : Env}.

Ltac run_m :=
  unfold mbind, mret, M_bind, M_ret, bind, ret, get, modify, raise, lift;
  cbv beta iota.

Ltac same_wf H := refine (wf_same _ _ _ _ _ H); reflexivity.

(** *** Each operation keeps the state well-formed *)

Lemma express_interest_wf (name : NonStrictName) (app_param : option BinaryStr)
      (v : option Validator) (kwargs : Kwargs KwRest) (st : NDNApp) :
  wf st -> wf (express_interest name app_param v kwargs st).2.
Proof.
  intros Hwf.
  destruct (express_interest name app_param v kwargs st) as [[w|e] st'] eqn:Heq;
    cbn [snd].
  - exact (express_interest_preserves_wf _ _ _ _ _ _ _ Hwf Heq).
  - apply express_interest_raised in Heq as [-> _]. exact Hwf.
Qed.

Lemma register_begin_wf (name : NonStrictName) (func : Route)
      (v : option Validator) (st : NDNApp) :
  wf st -> wf (register_begin name func v st).2.
Proof.
  intros Hwf. unfold register_begin. run_m. cbv zeta.
  destruct (callback (default new_prefix_node (_prefix_tree st !! normalize name))).
  - same_wf Hwf.
  - apply express_interest_wf. same_wf Hwf.
Qed.

Lemma unregister_wf (name : NonStrictName) (st : NDNApp) :
  wf st -> wf (unregister name st).2.
Proof.
  intros Hwf. unfold unregister.
  destruct (NameTrie.delitem (_prefix_tree st) (normalize name)); same_wf Hwf.
Qed.

Lemma put_raw_packet_wf (data : BinaryStr) (st : NDNApp) :
  wf st -> wf (put_raw_packet data st).2.
Proof.
  intros Hwf. unfold put_raw_packet, face_send. run_m.
  destruct (face_running st); same_wf Hwf.
Qed.

Lemma on_nack_wf (name : Name) (nack_reason : Z) (st : NDNApp) :
  wf st -> wf (_on_nack name nack_reason st).2.
Proof.
  intros Hwf. unfold _on_nack, NameTrie.getitem. run_m.
  destruct (_int_tree st !! name) as [r|] eqn:Hr; [|exact Hwf].
  unfold nack_interest.
  pose proof (length_resolve_all (pending_list (deref st r))
                (Done (Raise (InterestNack nack_reason))) (futures st)) as Hl.
  destruct (resolve_all _ _ (futures st)) as [[[]|e] fs]; cbn [snd] in Hl;
    run_m.
  - unfold int_tree_del, NameTrie.delitem.
    cbn [_int_tree set_futures]. rewrite Hr. cbn [snd].
    revert Hwf. apply wf_shrink;
      cbn [_int_tree int_nodes futures set_int_tree set_futures].
    + intros q r0 H. apply lookup_delete_Some in H as [_ H]. exact H.
    + reflexivity.
    + reflexivity.
    + exact Hl.
  - cbn [snd]. revert Hwf. apply wf_shrink;
      cbn [_int_tree int_nodes futures set_futures].
    + auto.
    + reflexivity.
    + reflexivity.
    + exact Hl.
Qed.

Lemma on_interest_frame (name : Name) (param : InterestParam)
      (app_param : option BinaryStr) (sig : SignaturePtrs) (st : NDNApp) :
  _int_tree (_on_interest name param app_param sig st).2 = _int_tree st
  /\ int_nodes (_on_interest name param app_param sig st).2 = int_nodes st
  /\ futures (_on_interest name param app_param sig st).2 = futures st.
Proof.
  unfold _on_interest, warn. run_m.
  destruct (NameTrie.longest_prefix (_prefix_tree st) name) as [[p node]|];
    [|repeat split; reflexivity].
  destruct (bool_decide (app_param <> None)
            || bool_decide (signature_info sig <> None)); run_m;
    [destruct (params_sha256_checker name sig)|]; cbn [negb];
    try (repeat split; reflexivity);
    (destruct (bool_decide (signature_info sig <> None)); run_m;
     [destruct (validate _ name sig)|]; cbn [negb];
     try (repeat split; reflexivity);
     destruct (callback node); repeat split; reflexivity).
Qed.

Lemma bind_inv {A B} (P : NDNApp -> Prop) (m : M A) (k : A -> M B)
      (st : NDNApp) :
  P (m st).2 -> (forall a st', P st' -> P (k a st').2) -> P (bind m k st).2.
Proof.
  intros Hm Hk. unfold bind. destruct (m st) as [[a|e] st'].
  - apply Hk. exact Hm.
  - exact Hm.
Qed.

Lemma try_except_inv {A} (P : NDNApp -> Prop) (m : M A)
      (catches : exn -> bool) (h : exn -> M A) (st : NDNApp) :
  P (m st).2 -> (forall e st', P st' -> P (h e st').2) ->
  P (try_except m catches h st).2.
Proof.
  intros Hm Hh. unfold try_except. destruct (m st) as [[a|e] st'].
  - exact Hm.
  - destruct (catches e); [apply Hh|]; exact Hm.
Qed.

Lemma decoding_state {A} (r : result A) (st : NDNApp) :
  (decoding r st).2 = st.
Proof. destruct r as [a|[]]; reflexivity. Qed.

Lemma receive_wf (typ : Z) (data : BinaryStr) (st : NDNApp) :
  wf st -> wf (_receive typ data st).2.
Proof.
  intros Hwf. unfold _receive. apply try_except_inv.
  - destruct (typ =? TypeNumber_INTEREST);
      [|destruct (typ =? TypeNumber_DATA);
        [|destruct (typ =? LpTypeNumber_LP_PACKET); [|exact Hwf]]];
      unfold mbind at 1, M_bind at 1; apply bind_inv;
      try (rewrite decoding_state; exact Hwf).
    + intros [[[name param] app_param] sig] st1 H1.
      unfold mbind at 1, M_bind at 1. apply bind_inv; [exact H1|].
      intros _ st2 H2.
      destruct (on_interest_frame name param app_param sig st2) as (T & N & F).
      exact (wf_same _ _ T N F H2).
    + intros [[[name meta_info] content] sig] st1 H1.
      unfold mbind at 1, M_bind at 1. apply bind_inv; [exact H1|].
      intros _ st2 H2. apply on_data_wf. exact H2.
    + intros [nack_reason name] st1 H1.
      unfold mbind at 1, M_bind at 1. apply bind_inv; [exact H1|].
      intros _ st2 H2. apply on_nack_wf. exact H2.
  - intros e st' H. same_wf H.
Qed.

Lemma wait_for_data_wf (w : Waiter) (waited : Z) (r : result Data)
      (st st' : NDNApp) :
  wf st -> _wait_for_data w waited st = Some (r, st') -> wf st'.
Proof.
  intros Hwf. unfold _wait_for_data.
  destruct (futures st !! w_future w) as [[|[d|e]|]|] eqn:Hf;
    try discriminate; try (intros [= <- <-]; exact Hwf).
  destruct (_ <=? waited); [|discriminate].
  unfold timeout. cbv zeta beta iota.
  set (st2 := set_int_nodes _ _).
  assert (H2 : wf st2).
  { revert Hwf. subst st2. apply wf_shrink;
      cbn [_int_tree int_nodes futures set_int_nodes set_futures].
    - auto.
    - apply length_insert.
    - intros r0. unfold deref.
      cbn [int_nodes set_int_nodes set_futures].
      apply insert_fewer; [reflexivity|].
      cbn [pending_list set_pending]. apply sublist_filter.
    - apply length_insert. }
  destruct (bool_decide _).
  - unfold int_tree_del, NameTrie.delitem.
    destruct (_int_tree st2 !! w_name w); intros [= <- <-].
    + apply (wf_delete st2); [|exact H2].
      intros q r0 H. apply lookup_delete_Some in H as [_ H]. exact H.
    + exact H2.
  - intros [= <- <-]. exact H2.
Qed.

(** *** The invariant *)

Lemma step_wf (st st' : NDNApp) : wf st -> step st st' -> wf st'.
Proof.
  intros Hwf [b|data|name app_param v kwargs|name func v|name|typ data
              |w waited r st'' Hw|f Hf].
  - same_wf Hwf.
  - apply put_raw_packet_wf, Hwf.
  - apply express_interest_wf, Hwf.
  - apply register_begin_wf, Hwf.
  - apply unregister_wf, Hwf.
  - apply receive_wf, Hwf.
  - eapply wait_for_data_wf; eassumption.
  - revert Hwf. apply wf_shrink;
      cbn [_int_tree int_nodes futures set_futures]; auto.
    apply length_insert.
Qed.

(** X11. Every state an engine gets to by the calls of its methods,
    the packets it receives and the waits that end is well-formed: an
    entry of the interest tree refers to a node of its own, and a
    waiter is a future of the event loop that waits on one node, and
    once. *)
Theorem reachable_wf (st : NDNApp) : reachable st -> wf st.
Proof.
  intros [running Hrtc].
  assert (Hgen : forall a b, rtc step a b -> wf a -> wf b).
  { induction 1 as [|a b c Hab _ IH]; [auto|].
    intros Ha. apply IH. eapply step_wf; eassumption. }
  apply (Hgen _ _ Hrtc). apply wf_init.
Qed.

End Invariant.

Section EngineUse.
Import App.
Context {E : Env}.

Ltac run_m :=
  unfold mbind, mret, M_bind, M_ret, bind, ret, get, modify, raise, lift;
  cbv beta iota.

(** *** Data and Nacks *)

(** X12. All [_on_data] can raise is [InvalidStateError], from
    completing a future that is no longer pending; in a well-formed
    state whose waiters at the prefixes of the Data name are pending
    it returns. Each name it deletes in its second loop is an entry
    then. Whether it returns or raises, it adds no entry, and leaves
    alone the entries whose names are no prefixes of the Data name,
    and the nodes of no such prefix. *)
Theorem on_data_returns (name : Name) (meta_info : MetaInfo)
        (content : option BinaryStr) (sig : SignaturePtrs) (st : NDNApp) :
  exists res st',
    _on_data name meta_info content sig st = (res, st')
    /\ (res = Ok tt \/ res = Raise InvalidStateError)
    /\ (wf st -> waiting st name -> res = Ok tt)
    /\ (forall q r, _int_tree st' !! q = Some r -> _int_tree st !! q = Some r)
    /\ (forall q, q ∉ NameTrie.prefixes_of name ->
                  _int_tree st' !! q = _int_tree st !! q)
    /\ (forall r, (forall p, p ∈ NameTrie.prefixes_of name ->
                             _int_tree st !! p <> Some r) ->
                  int_nodes st' !! r = int_nodes st !! r).
Proof.
  destruct (on_data_frame name meta_info content sig st)
    as (res & st1 & t & Heq & Hres & _ & Hnodes & Hsub & Hkeep).
  exists res, (set_int_tree t st1). split; [exact Heq|].
  split; [exact Hres|]. split; [|split; [exact Hsub|split; [exact Hkeep|]]].
  - intros Hwf Hwait.
    destruct (on_data_run st name meta_info content sig Hwf Hwait)
      as (st' & Heq' & _).
    rewrite Heq in Heq'. injection Heq' as -> _. reflexivity.
  - intros r Hr. cbn [int_nodes set_int_tree]. apply Hnodes.
    intros Hc. apply list_elem_of_fmap in Hc as ([p r'] & -> & Hc).
    apply elem_of_prefixes in Hc as [Hp Hc]. exact (Hr p Hp Hc).
Qed.

Lemma omap_nil {A B} (f : A -> option B) (l : list A) :
  (forall x, x ∈ l -> f x = None) -> omap f l = [].
Proof.
  induction l as [|a l IH]; intros H; [reflexivity|].
  cbn [omap list_omap]. rewrite (H a) by left.
  apply IH. intros x Hx. apply H. right. exact Hx.
Qed.

(** X13. Data whose name has no prefix in the interest tree changes
    nothing. *)
Theorem on_data_unsolicited (name : Name) (meta_info : MetaInfo)
        (content : option BinaryStr) (sig : SignaturePtrs) (st : NDNApp) :
  (forall p, p ∈ NameTrie.prefixes_of name -> _int_tree st !! p = None) ->
  _on_data name meta_info content sig st = (Ok tt, st).
Proof.
  intros H. unfold _on_data. run_m.
  assert (Hnil : NameTrie.prefixes (_int_tree st) name = []).
  { apply omap_nil. intros p Hp. rewrite (H p Hp). reflexivity. }
  rewrite Hnil. reflexivity.
Qed.

(** X14. In a well-formed state, a Nack for a name with an entry
    whose waiters are pending completes every waiter of the entry
    with [InterestNack] and its reason, which the awaiting callers get
    raised, and removes the entry. *)
Theorem on_nack_rejects_waiters (st : NDNApp) (name : Name) (nack_reason : Z)
        (r : nat) :
  wf st ->
  _int_tree st !! name = Some r ->
  (forall x, x ∈ pending_list (deref st r) ->
             futures st !! x.1 = Some Pending) ->
  exists st',
    _on_nack name nack_reason st = (Ok tt, st')
    /\ _int_tree st' = delete name (_int_tree st)
    /\ forall x, x ∈ pending_list (deref st r) ->
                 futures st' !! x.1
                 = Some (Done (Raise (InterestNack nack_reason)))
                 /\ forall w waited,
                     w_future w = x.1 ->
                     _wait_for_data w waited st'
                     = Some (Raise (InterestNack nack_reason), st').
Proof.
  intros Hwf Hr Hp. unfold _on_nack, NameTrie.getitem. run_m. rewrite Hr.
  unfold nack_interest.
  destruct (resolve_all_ok (pending_list (deref st r))
              (Done (Raise (InterestNack nack_reason))) (futures st))
    as [Hok Hall].
  { unfold deref. destruct (int_nodes st !! r) as [n|] eqn:Hn;
      cbn [from_option id]; [eapply (wf_nodup st Hwf); exact Hn|].
    apply NoDup_nil_2. }
  { exact Hp. }
  destruct (resolve_all _ _ (futures st)) as [res fs]. cbn [fst snd] in *.
  subst res. run_m. unfold int_tree_del, NameTrie.delitem.
  cbn [_int_tree set_futures]. rewrite Hr.
  eexists. split; [reflexivity|]. split; [reflexivity|].
  intros x Hx.
  assert (Hdone : futures
                    (set_int_tree (delete name (_int_tree st))
                       (set_futures fs st)) !! x.1
                  = Some (Done (Raise (InterestNack nack_reason))))
    by (cbn [futures set_int_tree set_futures]; apply Hall, Hx).
  split; [exact Hdone|].
  intros w waited Hw. apply wait_for_data_done. rewrite Hw. exact Hdone.
Qed.

(** *** Registrations *)

Lemma express_interest_down (name : NonStrictName) (app_param : option BinaryStr)
      (v : option Validator) (kwargs : Kwargs KwRest) (st : NDNApp) :
  face_running st = false ->
  express_interest name app_param v kwargs st = (Raise NetworkError, st).
Proof. intros H. unfold express_interest. run_m. rewrite H. reflexivity. Qed.

Lemma set_prefix_tree_twice (t t' : gmap Name PrefixTreeNode) (st : NDNApp) :
  set_prefix_tree t' (set_prefix_tree t st) = set_prefix_tree t' st.
Proof. reflexivity. Qed.

(** [register] at a prefix without a registration, up to the
    expression of its command. *)
Lemma register_begin_fresh (name : NonStrictName) (func : Route)
      (v : option Validator) (st : NDNApp) :
  _prefix_tree st !! normalize name = None ->
  register_begin name func v st
  = express_interest (make_reg_route_cmd (normalize name)) None None
      {| kw_interest_param := None; kw_nonce := None;
         kw_lifetime := Some 1000; kw_rest := no_kwargs |}
      (set_prefix_tree
         (<[normalize name := {| callback := Some func; pvalidator := v |}]>
            (_prefix_tree st)) st).
Proof.
  intros Hnone. unfold register_begin. run_m. rewrite Hnone.
  cbn [from_option id new_prefix_node callback pvalidator]. run_m.
  rewrite set_prefix_tree_twice. destruct v; reflexivity.
Qed.

(** X15. [register] on a face that is not running raises
    [NetworkError] after it has installed the handler: the registration
    stays, and registering the prefix again, with the face running or
    not, raises [ValueError]. *)
Theorem register_not_running_keeps_handler
        (st : NDNApp) (name : NonStrictName) (func : Route)
        (v : option Validator) :
  face_running st = false ->
  _prefix_tree st !! normalize name = None ->
  exists st1,
    register_begin name func v st = (Raise NetworkError, st1)
    /\ _prefix_tree st1 !! normalize name
       = Some {| callback := Some func; pvalidator := v |}
    /\ forall (func' : Route) (v' : option Validator) (running : bool),
        register_begin name func' v' (set_face_running running st1)
        = (Raise ValueError, set_face_running running st1).
Proof.
  intros Hrun Hnone. rewrite (register_begin_fresh name func v st Hnone).
  rewrite express_interest_down by exact Hrun.
  eexists. split; [reflexivity|].
  assert (Hnode : forall T, <[normalize name :=
                     {| callback := Some func; pvalidator := v |}]> T
                  !! normalize name
                  = Some {| callback := Some func; pvalidator := v |})
    by (intros T; apply lookup_insert_eq).
  split; [cbn [_prefix_tree set_prefix_tree]; apply Hnode|].
  intros func' v' running. unfold register_begin. run_m.
  cbn [_prefix_tree set_prefix_tree set_face_running].
  rewrite Hnode. cbn [from_option id callback]. run_m.
  rewrite insert_insert_eq. reflexivity.
Qed.

Lemma prefixes_of_spec (name p : Name) :
  p ∈ NameTrie.prefixes_of name
  <-> p = take (length p) name /\ (length p <= length name)%nat.
Proof.
  unfold NameTrie.prefixes_of. rewrite list_elem_of_fmap. split.
  - intros (k & -> & Hk). apply elem_of_seq in Hk.
    rewrite length_take, Nat.min_l by lia. split; [reflexivity|lia].
  - intros [Hp Hl]. exists (length p). split; [exact Hp|].
    apply elem_of_seq. lia.
Qed.

(** The deepest registered prefix of a name. *)
Lemma longest_prefix_deepest {V} (t : gmap Name V) (name p : Name) (v : V) :
  p ∈ NameTrie.prefixes_of name -> t !! p = Some v ->
  (forall q, q ∈ NameTrie.prefixes_of name -> (length p < length q)%nat ->
             t !! q = None) ->
  NameTrie.longest_prefix t name = Some (p, v).
Proof.
  intros Hp Hv Hlong. apply prefixes_of_spec in Hp as [Hp Hl].
  unfold NameTrie.longest_prefix, NameTrie.prefixes, NameTrie.prefixes_of.
  replace (S (length name))
    with (length p + (1 + (length name - length p)))%nat by lia.
  rewrite !seq_app, !fmap_app, !omap_app. cbn [seq fmap list_fmap Nat.add].
  rewrite <- Hp. cbn [omap list_omap]. rewrite Hv.
  cbn [fmap option_fmap option_map].
  rewrite (omap_nil _ ((fun k => take k name) <$> seq (length p + 1) _)).
  - rewrite app_nil_r. apply last_snoc.
  - intros q Hq. apply list_elem_of_fmap in Hq as (k & -> & Hk).
    apply elem_of_seq in Hk. rewrite Hlong; [reflexivity| |].
    + apply prefixes_of_spec. rewrite length_take, Nat.min_l by lia.
      split; [reflexivity|lia].
    + rewrite length_take, Nat.min_l by lia. lia.
Qed.

(** X16. After [register] installed [func] at a prefix, on a running
    face, the registration command is with the face, and an unsigned
    Interest without application parameters under that prefix, with
    no longer prefix registered, is handed to [func]. *)
Theorem register_then_interest
        (st : NDNApp) (name : NonStrictName) (func : Route)
        (v : option Validator) (iname : Name) (param : InterestParam)
        (sig : SignaturePtrs) :
  face_running st = true ->
  _prefix_tree st !! normalize name = None ->
  normalize name ∈ NameTrie.prefixes_of iname ->
  (forall q, q ∈ NameTrie.prefixes_of iname ->
             (length (normalize name) < length q)%nat ->
             _prefix_tree st !! q = None) ->
  signature_info sig = None ->
  exists w st1 interest,
    register_begin name func v st = (Ok w, st1)
    /\ _prefix_tree st1
       = <[normalize name := {| callback := Some func; pvalidator := v |}]>
           (_prefix_tree st)
    /\ face_sent st1 = face_sent st ++ [interest]
    /\ _on_interest iname param None sig st1
       = (Ok tt, emit (EvCallback func iname param None) st1).
Proof.
  intros Hrun Hnone Hpre Hlong Hsig.
  rewrite (register_begin_fresh name func v st Hnone).
  set (st0 := set_prefix_tree _ st).
  destruct (express_interest_run st0 (make_reg_route_cmd (normalize name))
              None None
              {| kw_interest_param := None; kw_nonce := None;
                 kw_lifetime := Some 1000; kw_rest := no_kwargs |} Hrun eq_refl)
    as (w & st1 & interest & ip & -> & _ & _ & _ & Hs & _ & _ & _ & Ht & _).
  exists w, st1, interest. split; [reflexivity|]. split; [exact Ht|].
  split; [exact Hs|].
  unfold _on_interest. run_m.
  rewrite (longest_prefix_deepest _ iname (normalize name)
             {| callback := Some func; pvalidator := v |}).
  - rewrite !bool_decide_eq_false_2
      by (intros H; apply H; (reflexivity || exact Hsig)).
    cbn [orb negb callback]. run_m. reflexivity.
  - exact Hpre.
  - rewrite Ht. apply lookup_insert_eq.
  - intros q Hq Hlen. rewrite Ht. subst st0.
    cbn [_prefix_tree set_prefix_tree].
    rewrite lookup_insert_ne; [apply Hlong; assumption|].
    intros Heq. rewrite Heq in Hlen. lia.
Qed.

(** X17. [unregister] removes the registration of a prefix, and the
    prefix only; unregistering it once more raises [KeyError], and on
    a running face it can be registered again. *)
Theorem unregister_frees_prefix
        (st : NDNApp) (name : NonStrictName) (node : PrefixTreeNode) :
  _prefix_tree st !! normalize name = Some node ->
  exists st',
    unregister name st = (Ok tt, st')
    /\ _prefix_tree st' = delete (normalize name) (_prefix_tree st)
    /\ unregister name st' = (Raise KeyError, st')
    /\ (face_running st = true ->
        forall (func : Route) (v : option Validator),
        exists w st'',
          register_begin name func v st' = (Ok w, st'')
          /\ _prefix_tree st'' !! normalize name
             = Some {| callback := Some func; pvalidator := v |}).
Proof.
  intros Hnode. unfold unregister, NameTrie.delitem. rewrite Hnode.
  eexists. split; [reflexivity|]. split; [reflexivity|].
  cbn [_prefix_tree set_prefix_tree]. rewrite lookup_delete_eq.
  split; [reflexivity|].
  intros Hrun func v.
  set (st' := set_prefix_tree _ st).
  assert (Hnone : _prefix_tree st' !! normalize name = None)
    by apply lookup_delete_eq.
  rewrite (register_begin_fresh name func v st' Hnone).
  set (st0 := set_prefix_tree _ st').
  destruct (express_interest_run st0 (make_reg_route_cmd (normalize name))
              None None
              {| kw_interest_param := None; kw_nonce := None;
                 kw_lifetime := Some 1000; kw_rest := no_kwargs |} Hrun eq_refl)
    as (w & st1 & interest & ip & -> & _ & _ & _ & _ & _ & _ & _ & Ht & _).
  exists w, st1. split; [reflexivity|]. rewrite Ht. apply lookup_insert_eq.
Qed.

(** *** Packets that do not decode *)

(** X18. When the parser raises [DecodeError], [TypeError],
    [ValueError] or [struct.error] on an Interest, a Data packet, a
    Nack frame or the Interest inside a Nack frame, [_receive] returns
    after the warning that the packet could not be decoded and changes
    nothing else; any other exception of the parser leaves [_receive]
    as it is, with the state unchanged. *)
Theorem receive_undecodable (st : NDNApp) (data : BinaryStr) (e : exn) :
  TypeNumber_DATA <> TypeNumber_INTEREST ->
  LpTypeNumber_LP_PACKET <> TypeNumber_INTEREST ->
  LpTypeNumber_LP_PACKET <> TypeNumber_DATA ->
  let outcome := if decode_failure e
                 then (Ok tt, emit (EvWarning UnableToDecode) st)
                 else (Raise e, st) in
  (parse_interest data false = Raise e ->
   _receive TypeNumber_INTEREST data st = outcome)
  /\ (parse_data data false = Raise e ->
      _receive TypeNumber_DATA data st = outcome)
  /\ (parse_network_nack data false = Raise e ->
      _receive LpTypeNumber_LP_PACKET data st = outcome)
  /\ (forall (nack_reason : Z) (interest : BinaryStr),
        parse_network_nack data false = Ok (nack_reason, interest) ->
        parse_interest interest true = Raise e ->
        _receive LpTypeNumber_LP_PACKET data st = outcome).
Proof.
  intros Hne Hli Hld outcome. subst outcome. unfold _receive, try_except, warn.
  rewrite Z.eqb_refl.
  destruct (Z.eqb_spec TypeNumber_DATA TypeNumber_INTEREST) as [|_]; [tauto|].
  destruct (Z.eqb_spec LpTypeNumber_LP_PACKET TypeNumber_INTEREST) as [|_];
    [tauto|].
  destruct (Z.eqb_spec LpTypeNumber_LP_PACKET TypeNumber_DATA) as [|_];
    [tauto|].
  rewrite !Z.eqb_refl.
  assert (Hfin : forall A (k : A -> M unit),
             match (x ← decoding (Raise e); k x) st with
             | (Raise e0, st') =>
                 if is_DecodeError e0
                 then modify (emit (EvWarning UnableToDecode)) st'
                 else (Raise e0, st')
             | r => r
             end
             = if decode_failure e
               then (Ok tt, emit (EvWarning UnableToDecode) st)
               else (Raise e, st)).
  { intros A k. destruct e; reflexivity. }
  split; [intros ->; apply Hfin|]. split; [intros ->; apply Hfin|].
  split; [intros ->; apply Hfin|].
  intros nack_reason interest -> Hi. cbn [mbind result_bind rbind].
  rewrite Hi. apply Hfin.
Qed.

(** *** Handlers *)

Lemma prefix_tree_bind {A B : Type} (T : gmap Name PrefixTreeNode) (m : M A)
      (k : A -> M B) (st : NDNApp) :
  _prefix_tree (m st).2 = T ->
  (forall a st', _prefix_tree st' = T -> _prefix_tree (k a st').2 = T) ->
  _prefix_tree (bind m k st).2 = T.
Proof. apply (bind_inv (fun s => _prefix_tree s = T)). Qed.

Lemma on_data_entry_prefix_tree (name : Name) (meta_info : MetaInfo)
      (content : option BinaryStr) (sig : SignaturePtrs)
      (entry : Name * nat) (cl : list Name) (st : NDNApp) :
  _prefix_tree (on_data_entry name meta_info content sig entry cl st).2
  = _prefix_tree st.
Proof.
  destruct entry as [p r].
  unfold on_data_entry, satisfy, invalid. run_m.
  destruct (validate _ name sig); run_m; [|reflexivity].
  destruct (resolve_all _ _ _) as [[[]|e] fs]; reflexivity.
Qed.

Lemma on_data_loop_prefix_tree (name : Name) (meta_info : MetaInfo)
      (content : option BinaryStr) (sig : SignaturePtrs)
      (entries : list (Name * nat)) (cl : list Name) (st : NDNApp) :
  _prefix_tree (on_data_loop name meta_info content sig entries cl st).2
  = _prefix_tree st.
Proof.
  revert cl st. induction entries as [|entry rest IH]; intros cl st;
    [reflexivity|].
  cbn [on_data_loop]. unfold mbind, M_bind. apply prefix_tree_bind.
  - apply on_data_entry_prefix_tree.
  - intros cl' st' H. rewrite IH. exact H.
Qed.

Lemma del_all_prefix_tree (cl : list Name) (st : NDNApp) :
  _prefix_tree (del_all cl st).2 = _prefix_tree st.
Proof.
  revert st. induction cl as [|p cl IH]; intros st; [reflexivity|].
  cbn [del_all]. unfold mbind, M_bind. apply prefix_tree_bind.
  - unfold int_tree_del. destruct (NameTrie.delitem _ p); reflexivity.
  - intros _ st' H. rewrite IH. exact H.
Qed.

Lemma on_data_prefix_tree (name : Name) (meta_info : MetaInfo)
      (content : option BinaryStr) (sig : SignaturePtrs) (st : NDNApp) :
  _prefix_tree (_on_data name meta_info content sig st).2 = _prefix_tree st.
Proof.
  unfold _on_data. run_m.
  pose proof (on_data_loop_prefix_tree name meta_info content sig
                (NameTrie.prefixes (_int_tree st) name) [] st) as Hl.
  destruct (on_data_loop _ _ _ _ _ _ st) as [[cl|e] st1]; cbn [snd] in *;
    [|exact Hl].
  rewrite del_all_prefix_tree. exact Hl.
Qed.

Lemma on_nack_prefix_tree (name : Name) (nack_reason : Z) (st : NDNApp) :
  _prefix_tree (_on_nack name nack_reason st).2 = _prefix_tree st.
Proof.
  unfold _on_nack, NameTrie.getitem. run_m.
  destruct (_int_tree st !! name) as [r|]; [|reflexivity].
  unfold nack_interest.
  destruct (resolve_all _ _ _) as [[[]|e] fs]; run_m; [|reflexivity].
  unfold int_tree_del.
  destruct (NameTrie.delitem _ name); reflexivity.
Qed.

Lemma emits_nil (st : NDNApp) : emits [] st = st.
Proof. destruct st. unfold emits, set_events. cbn. rewrite app_nil_r. reflexivity. Qed.

(** An incoming Interest changes nothing but the trace of what the
    engine asked of its collaborators; with a handler on every
    registration it returns. *)
Lemma on_interest_emits (name : Name) (param : InterestParam)
      (app_param : option BinaryStr) (sig : SignaturePtrs) (st : NDNApp) :
  exists r evs,
    _on_interest name param app_param sig st = (r, emits evs st)
    /\ (handlers_set st -> r = Ok tt).
Proof.
  unfold _on_interest, warn. run_m.
  assert (Hfin : forall (r : result unit) (l : list Event) (st' : NDNApp),
             st' = emits l st -> (r = Ok tt \/ ~ handlers_set st) ->
             exists r0 evs, (r, st') = (r0, emits evs st)
                            /\ (handlers_set st -> r0 = Ok tt)).
  { intros r l st' -> Hr. exists r, l. split; [reflexivity|].
    intros H. destruct Hr as [Hr|Hr]; [exact Hr|contradiction]. }
  destruct (NameTrie.longest_prefix (_prefix_tree st) name) as [[p node]|] eqn:Hlp.
  2:{ apply (Hfin _ [EvWarning (NoRoute name)]); [reflexivity|left; reflexivity]. }
  assert (Hcb : callback node = None -> ~ handlers_set st).
  { intros Hnone Hall. unfold NameTrie.longest_prefix in Hlp.
    apply last_Some_elem_of, elem_of_prefixes in Hlp as [_ Hlp].
    destruct (Hall p node Hlp) as [f Hf]. congruence. }
  assert (Hst : forall st', (exists l, st' = emits l st) ->
            forall r, (r = Ok tt \/ ~ handlers_set st) ->
            exists r0 evs, (r, st') = (r0, emits evs st)
                           /\ (handlers_set st -> r0 = Ok tt)).
  { intros st' [l Hl] r Hr. exact (Hfin r l st' Hl Hr). }
  assert (H0 : exists l, st = emits l st)
    by (exists []; symmetry; apply emits_nil).
  assert (H1 : forall st' e, (exists l, st' = emits l st) ->
                             exists l, emit e st' = emits l st).
  { intros st' e [l ->]. exists (l ++ [e]). apply emit_emits. }
  destruct (bool_decide (app_param <> None)
            || bool_decide (signature_info sig <> None)); run_m;
    [destruct (params_sha256_checker name sig)|]; cbn [negb];
    try (apply Hst; [repeat apply H1; exact H0|left; reflexivity]);
    (destruct (bool_decide (signature_info sig <> None)); run_m;
     [destruct (validate _ name sig)|]; cbn [negb];
     try (apply Hst; [repeat apply H1; exact H0|left; reflexivity]);
     destruct (callback node) eqn:Hc; run_m;
     (apply Hst; [repeat apply H1; exact H0
                 |first [left; reflexivity|right; apply Hcb; reflexivity]])).
Qed.

Lemma emits_prefix_tree (evs : list Event) (st : NDNApp) :
  _prefix_tree (emits evs st) = _prefix_tree st.
Proof. reflexivity. Qed.

Lemma receive_prefix_tree (typ : Z) (data : BinaryStr) (st : NDNApp) :
  _prefix_tree (_receive typ data st).2 = _prefix_tree st.
Proof.
  unfold _receive. apply (try_except_inv (fun s => _prefix_tree s = _prefix_tree st)).
  - destruct (typ =? TypeNumber_INTEREST);
      [|destruct (typ =? TypeNumber_DATA);
        [|destruct (typ =? LpTypeNumber_LP_PACKET); [|reflexivity]]];
      unfold mbind at 1, M_bind at 1; apply prefix_tree_bind;
      try (rewrite decoding_state; reflexivity).
    + intros [[[name param] app_param] sig] st1 H1.
      unfold mbind at 1, M_bind at 1. apply prefix_tree_bind; [exact H1|].
      intros _ st2 H2.
      destruct (on_interest_emits name param app_param sig st2)
        as (r & evs & -> & _).
      exact H2.
    + intros [[[name meta_info] content] sig] st1 H1.
      unfold mbind at 1, M_bind at 1. apply prefix_tree_bind; [exact H1|].
      intros _ st2 H2. rewrite on_data_prefix_tree. exact H2.
    + intros [nack_reason name] st1 H1.
      unfold mbind at 1, M_bind at 1. apply prefix_tree_bind; [exact H1|].
      intros _ st2 H2. rewrite on_nack_prefix_tree. exact H2.
  - intros e st' H. exact H.
Qed.

Lemma handlers_same (st st' : NDNApp) :
  _prefix_tree st' = _prefix_tree st -> handlers_set st -> handlers_set st'.
Proof. intros Ht H p node. rewrite Ht. apply H. Qed.

Lemma express_interest_prefix_tree (name : NonStrictName)
      (app_param : option BinaryStr) (v : option Validator)
      (kwargs : Kwargs KwRest) (st : NDNApp) :
  _prefix_tree (express_interest name app_param v kwargs st).2 = _prefix_tree st.
Proof.
  destruct (express_interest name app_param v kwargs st) as [[w|e] st'] eqn:Heq;
    cbn [snd].
  - destruct (express_interest_returned _ _ _ _ _ _ _ Heq) as [Hrun Hkw].
    destruct (express_interest_run st name app_param v kwargs Hrun Hkw)
      as (w' & st'' & i & ip & Heq' & _ & _ & _ & _ & _ & _ & _ & Ht & _).
    rewrite Heq in Heq'. injection Heq' as <- <-. exact Ht.
  - apply express_interest_raised in Heq as [-> _]. reflexivity.
Qed.

Lemma step_handlers (st st' : NDNApp) :
  handlers_set st -> step st st' -> handlers_set st'.
Proof.
  intros H [b|data|name app_param v kwargs|name func v|name|typ data
            |w waited r st'' Hw|f Hf].
  - exact H.
  - revert H. apply handlers_same. unfold put_raw_packet, face_send. run_m.
    destruct (face_running st); reflexivity.
  - revert H. apply handlers_same, express_interest_prefix_tree.
  - destruct (_prefix_tree st !! normalize name) as [node|] eqn:Hnode.
    + destruct (H _ _ Hnode) as [h Hh]. revert H. apply handlers_same.
      unfold register_begin. run_m. rewrite Hnode. cbn [from_option id].
      rewrite Hh. run_m. cbn [snd _prefix_tree set_prefix_tree].
      apply insert_id. exact Hnode.
    + rewrite (register_begin_fresh name func v st Hnode).
      intros q nd. rewrite express_interest_prefix_tree.
      cbn [_prefix_tree set_prefix_tree].
      destruct (decide (q = normalize name)) as [->|Hne].
      * rewrite lookup_insert_eq. intros [= <-]. eexists. reflexivity.
      * rewrite lookup_insert_ne by congruence. apply H.
  - unfold unregister, NameTrie.delitem.
    destruct (_prefix_tree st !! normalize name); [|exact H].
    intros q nd Hq. cbn [snd _prefix_tree set_prefix_tree] in Hq.
    apply lookup_delete_Some in Hq as [_ Hq]. exact (H _ _ Hq).
  - revert H. apply handlers_same, receive_prefix_tree.
  - revert H. apply handlers_same. revert Hw. unfold _wait_for_data.
    destruct (futures st !! w_future w) as [[|[d|e]|]|];
      try discriminate; try (intros [= _ <-]; reflexivity).
    destruct (_ <=? waited); [|discriminate].
    unfold timeout. cbv zeta beta iota.
    destruct (bool_decide _); [|intros [= _ <-]; reflexivity].
    unfold int_tree_del.
    destruct (NameTrie.delitem _ (w_name w)); intros [= _ <-]; reflexivity.
  - exact H.
Qed.

Lemma reachable_handlers (st : NDNApp) : reachable st -> handlers_set st.
Proof.
  intros [running Hrtc].
  assert (Hgen : forall a b, rtc step a b -> handlers_set a -> handlers_set b).
  { induction 1 as [|a b c Hab _ IH]; [auto|].
    intros Ha. apply IH. eapply step_handlers; eassumption. }
  apply (Hgen _ _ Hrtc). intros p node H. cbn in H.
  rewrite lookup_empty in H. discriminate.
Qed.

(** X19. In every state an engine gets to, each registration holds
    a handler, so that [_on_interest] returns for every Interest; it
    changes nothing but the trace of the checks, warnings and handler
    calls it made. *)
Theorem on_interest_returns (st : NDNApp) (name : Name) (param : InterestParam)
        (app_param : option BinaryStr) (sig : SignaturePtrs) :
  reachable st ->
  handlers_set st
  /\ exists evs,
      _on_interest name param app_param sig st = (Ok tt, emits evs st).
Proof.
  intros Hr. pose proof (reachable_handlers st Hr) as Hh.
  split; [exact Hh|].
  destruct (on_interest_emits name param app_param sig st)
    as (r & evs & Heq & Hok).
  exists evs. rewrite Heq, (Hok Hh). reflexivity.
Qed.

(** *** An Interest that gets no answer *)

(** X20. An Interest expressed under a name without an entry waits
    until its lifetime, 100 ms when none is given, is over; its await
    then raises [InterestTimeout], and the interest tree is as it was
    before the Interest was expressed. *)
Theorem express_then_timeout
        (st st1 : NDNApp) (name : NonStrictName) (app_param : option BinaryStr)
        (v : option Validator) (kwargs : Kwargs KwRest) (w : Waiter)
        (waited : Z) :
  face_running st = true ->
  express_interest name app_param v kwargs st = (Ok w, st1) ->
  _int_tree st !! w_name w = None ->
  let lifetime := match w_lifetime w with Some l => l | None => 100 end in
  (waited < lifetime -> _wait_for_data w waited st1 = None)
  /\ (lifetime <= waited ->
      exists st2,
        _wait_for_data w waited st1 = Some (Raise InterestTimeout, st2)
        /\ _int_tree st2 = _int_tree st
        /\ face_sent st2 = face_sent st1).
Proof.
  intros Hrun Heq Hnone lifetime.
  destruct (express_interest_returned _ _ _ _ _ _ _ Heq) as [_ Hkw].
  destruct (express_interest_run st name app_param v kwargs Hrun Hkw)
    as (w' & st' & i & ip & Heq' & Hf & _ & Hfs & _ & _ & _ & _ & _ & _ & Hm).
  rewrite Heq in Heq'. injection Heq' as <- <-.
  cbv zeta in Hm. rewrite Hnone in Hm. destruct Hm as (Hnode & Htree & Hnodes).
  assert (Hpend : futures st1 !! w_future w = Some Pending).
  { rewrite Hfs, Hf, lookup_app_r, Nat.sub_diag by lia. reflexivity. }
  unfold _wait_for_data. rewrite Hpend. fold lifetime.
  split.
  - intros Hlt. destruct (Z.leb_spec lifetime waited); [lia|reflexivity].
  - intros Hge. destruct (Z.leb_spec lifetime waited); [|lia].
    unfold timeout, deref. cbn [int_nodes set_futures].
    rewrite Hnodes, Hnode, lookup_app_r, Nat.sub_diag by lia.
    cbn [lookup list_lookup from_option id].
    unfold deref. rewrite (lookup_ge_None_2 (int_nodes st)) by lia.
    cbn [from_option set_validator append_interest pending_list new_node app].
    rewrite filter_cons, decide_False by (intros Hx; apply Hx; reflexivity).
    rewrite filter_nil, bool_decide_eq_true_2 by reflexivity.
    unfold int_tree_del, NameTrie.delitem.
    cbn [_int_tree set_int_nodes set_futures].
    rewrite Htree, lookup_insert_eq.
    eexists. split; [reflexivity|].
    cbn [_int_tree face_sent set_int_tree set_int_nodes set_futures].
    split; [|reflexivity]. apply delete_insert_id. exact Hnone.
Qed.

(** *** An Interest that gets its Data *)

(** X21. After [express_interest] in a state whose waiters at the
    prefixes of the final name are pending, Data named the final name
    of the Interest that the validator of the call, or the default
    data validator when the call gave none, accepts completes the
    await of the caller with that Data, and the entry leaves the
    interest tree. *)
Theorem express_then_data
        (st st1 : NDNApp) (name : NonStrictName) (app_param : option BinaryStr)
        (v : option Validator) (kwargs : Kwargs KwRest) (w : Waiter)
        (meta_info : MetaInfo) (content : option BinaryStr)
        (sig : SignaturePtrs) (waited : Z) :
  wf st -> waiting st (w_name w) ->
  express_interest name app_param v kwargs st = (Ok w, st1) ->
  validate (match v with Some x => x | None => data_validator st end)
           (w_name w) sig = true ->
  exists st2,
    _on_data (w_name w) meta_info content sig st1 = (Ok tt, st2)
    /\ _wait_for_data w waited st2
       = Some (Ok (w_name w, meta_info, content), st2)
    /\ _int_tree st2 !! w_name w = None.
Proof.
  intros Hwf Hwait Heq Hacc.
  destruct (express_interest_inv st st1 w name app_param v kwargs Hwf Heq)
    as (i & ip & Hex).
  pose proof (deref_lookup _ _ _ (ex_node _ _ _ _ _ _ Hex)) as Hd.
  assert (Hin : (w_name w, w_node w)
                ∈ NameTrie.prefixes (_int_tree st1) (w_name w)).
  { apply elem_of_prefixes. split; [apply name_in_prefixes_of|].
    apply (ex_entry _ _ _ _ _ _ Hex). }
  destruct (on_data_run st1 (w_name w) meta_info content sig
              (ex_wf _ _ _ _ _ _ Hex)
              (expressed_waiting _ _ _ _ _ _ _ Hex Hwait))
    as (st2 & H2 & _ & Hentries).
  destruct (Hentries _ _ Hin) as [[_ _ A] Hgone].
  assert (Hch : chosen_validator st1 (w_node w)
                = match v with Some x => x | None => data_validator st end).
  { unfold chosen_validator. rewrite Hd. cbn [validator set_validator].
    rewrite (ex_data_validator _ _ _ _ _ _ Hex). reflexivity. }
  unfold cleaned in Hgone. cbn [fst snd] in Hgone.
  rewrite Hch in A, Hgone. destruct (A Hacc) as [_ Hfs].
  assert (Hans : forall x : nat * InterestParam,
             answers (negb (bool_decide (w_name w = w_name w))) x = true).
  { intros x. unfold answers. rewrite bool_decide_eq_true_2 by reflexivity.
    apply orb_true_r. }
  exists st2. split; [exact H2|]. split.
  - apply wait_for_data_done.
    assert (Hx : (w_future w, ip) ∈ pending_list (deref st1 (w_node w))).
    { rewrite Hd. cbn [pending_list set_validator append_interest].
      apply elem_of_app. right. left. }
    pose proof (Hfs _ Hx) as Hf. cbn [fst] in Hf.
    rewrite Hf, Hans. reflexivity.
  - rewrite Hgone, Hacc. cbn [andb].
    rewrite bool_decide_eq_true_2; [reflexivity|].
    apply filter_nil_elem. intros x _. rewrite Hans. discriminate.
Qed.

End EngineUse.

(** ** The theorems at concrete inputs *)

Import App Demo.

Ltac by_vm := vm_compute; reflexivity.

Lemma wf_st_one : wf st_one.
Proof.
  apply (express_interest_preserves_wf (E := env) (init true) st_one (waiter 0)
           name_a None None kw0).
  - apply wf_init.
  - by_vm.
Qed.


Lemma waiting_st_one (name : Name) : waiting st_one name.
Proof.
  apply (express_interest_keeps_waiting (E := env) (init true) st_one (waiter 0)
           name_a None None kw0).
  - apply wf_init.
  - apply waiting_init.
  - by_vm.
Qed.






Lemma on_interest_dispatch_witness :
  NameTrie.longest_prefix (_prefix_tree st_reg) name_ab
  = Some (name_a, {| callback := Some 7%nat; pvalidator := None |})
  /\ _on_interest name_ab param0 None None st_reg
     = (Ok tt, emits [EvCallback 7%nat name_ab param0 None] st_reg)
  /\ _on_interest name_ab param0 (Some []) (Some []) st_reg
     = (Ok tt, emits [EvParamsCheck name_ab (Some []);
                      EvWarning (DropMalformed name_ab)] st_reg)
  /\ _on_interest name_ab param0 None (Some [Byte.x01]) st_reg
     = (Ok tt, emits [EvParamsCheck name_ab (Some [Byte.x01]);
                      EvValidate true name_ab (Some [Byte.x01]);
                      EvCallback 7%nat name_ab param0 None] st_reg).
Proof.
  assert (Hlp : NameTrie.longest_prefix (_prefix_tree st_reg) name_ab
                = Some (name_a, {| callback := Some 7%nat; pvalidator := None |}))
    by by_vm.
  split; [exact Hlp|]. split; [|split].
  - apply (on_interest_dispatch (E := env) st_reg name_ab param0 None None name_a _
             7%nat Hlp eq_refl); reflexivity.
  - apply (on_interest_dispatch (E := env) st_reg name_ab param0 (Some []) (Some [])
             name_a _ 7%nat Hlp eq_refl); [left; discriminate|reflexivity].
  - apply (on_interest_dispatch (E := env) st_reg name_ab param0 None
             (Some [Byte.x01]) name_a _ 7%nat Hlp eq_refl);
      [discriminate|reflexivity|reflexivity].
Defined.

Lemma from_str_to_str_roundtrip_witness :
  Component.from_bytes [Byte.x00; Byte.x25; Byte.x3d; Byte.x61; Byte.xff] 36
  = Ok [Byte.x24; Byte.x05; Byte.x00; Byte.x25; Byte.x3d; Byte.x61; Byte.xff]
  /\ Component.to_str
       [Byte.x24; Byte.x05; Byte.x00; Byte.x25; Byte.x3d; Byte.x61; Byte.xff]
     = Ok (lit "36=%00%25%3Da%FF")
  /\ Component.from_str (lit "36=%00%25%3Da%FF")
     = Ok [Byte.x24; Byte.x05; Byte.x00; Byte.x25; Byte.x3d; Byte.x61; Byte.xff].
Proof.
  assert (H : Component.from_bytes
                [Byte.x00; Byte.x25; Byte.x3d; Byte.x61; Byte.xff] 36
              = Ok [Byte.x24; Byte.x05; Byte.x00; Byte.x25; Byte.x3d; Byte.x61;
                    Byte.xff]) by by_vm.
  split; [exact H|].
  destruct (from_str_to_str_roundtrip _ _ _ H) as (H1 & H2 & _).
  split; [exact H1|exact H2].
Defined.

Lemma wait_for_data_timeout_witness :
  futures st_two !! 0%nat = Some Pending
  /\ _int_tree st_two !! name_a = Some 0%nat
  /\ exists st',
      _wait_for_data (waiter 0) 100 st_two = Some (Raise InterestTimeout, st')
      /\ _int_tree st' = _int_tree st_two.
Proof.
  assert (Hf : futures st_two !! 0%nat = Some Pending) by by_vm.
  assert (Ht : _int_tree st_two !! name_a = Some 0%nat) by by_vm.
  split; [exact Hf|]. split; [exact Ht|].
  destruct (wait_for_data_timeout (E := env) st_two (waiter 0) 100 (deref st_two 0))
    as (st' & H1 & _ & _ & H2).
  - exact Hf.
  - cbn. lia.
  - exact Ht.
  - by_vm.
  - exists st'. split; [exact H1|]. apply H2. vm_compute. discriminate.
Defined.

Lemma register_duplicate_rejected_witness :
  _prefix_tree st_reg !! name_a
  = Some {| callback := Some 7%nat; pvalidator := None |}
  /\ register_begin name_a 8%nat (Some false) st_reg = (Raise ValueError, st_reg).
Proof.
  assert (H : _prefix_tree st_reg !! name_a
              = Some {| callback := Some 7%nat; pvalidator := None |}) by by_vm.
  split; [exact H|].
  apply (register_duplicate_rejected (E := env) st_reg name_a 8%nat (Some false) _
           7%nat H).
  reflexivity.
Defined.

Lemma not_running_raises_NetworkError_witness :
  face_running (init false) = false
  /\ put_raw_packet interest_a (init false) = (Raise NetworkError, init false)
  /\ express_interest name_a None None kw0 (init false)
     = (Raise NetworkError, init false).
Proof.
  split; [reflexivity|].
  apply (not_running_raises_NetworkError (E := env) (init false)). reflexivity.
Defined.

Lemma express_interest_stores_validator_witness :
  exists w st',
    express_interest name_a None (Some false) kw0 st_one = (Ok w, st')
    /\ validator (deref st' (w_node w)) = Some false
    /\ chosen_validator st' (w_node w) = false.
Proof.
  destruct (express_interest_stores_validator (E := env) st_one name_a None
              (Some false) kw0 wf_st_one) as [Hret Hst].
  destruct Hret as (w & st' & H1); [by_vm|reflexivity|].
  destruct (Hst w st' H1) as (_ & H2 & H3 & _).
  exists w, st'. split; [exact H1|]. split; [exact H2|exact H3].
Defined.



(** ** The further theorems at concrete inputs *)

Lemma from_str_bad_char_witness :
  " "%char ∈ lit "a b"
  /\ Component.from_str (lit "a b") = Raise ValueError.
Proof.
  assert (Hin : " "%char ∈ lit "a b") by (right; left).
  split; [exact Hin|].
  apply (from_str_bad_char (lit "a b") " "%char Hin). reflexivity.
Defined.

Lemma from_str_two_equals_witness :
  "="%char ∈ lit "b=c"
  /\ Component.from_str (lit "a" ++ "="%char :: lit "b=c") = Raise ValueError.
Proof.
  assert (Hin : "="%char ∈ lit "b=c") by (right; left).
  split; [exact Hin|].
  apply (from_str_two_equals (lit "a") (lit "b=c") Hin).
Defined.

Lemma from_bytes_read_back_witness :
  Component.from_bytes [Byte.x01; Byte.x02] 300
  = Ok [Byte.xfd; Byte.x01; Byte.x2c; Byte.x02; Byte.x01; Byte.x02]
  /\ Component.get_type
       [Byte.xfd; Byte.x01; Byte.x2c; Byte.x02; Byte.x01; Byte.x02] = Ok 300
  /\ Component.get_value
       [Byte.xfd; Byte.x01; Byte.x2c; Byte.x02; Byte.x01; Byte.x02]
     = Ok [Byte.x01; Byte.x02]
  /\ Component.to_number
       [Byte.xfd; Byte.x01; Byte.x2c; Byte.x02; Byte.x01; Byte.x02]
     = Ok (Py.int_from_bytes [Byte.x01; Byte.x02]).
Proof.
  assert (H : Component.from_bytes [Byte.x01; Byte.x02] 300
              = Ok [Byte.xfd; Byte.x01; Byte.x2c; Byte.x02; Byte.x01; Byte.x02])
    by by_vm.
  split; [exact H|].
  exact (from_bytes_read_back [Byte.x01; Byte.x02] 300 _ H).
Defined.

Lemma to_str_checks_length_witness :
  Component.from_bytes [Byte.x61] 8 = Ok [Byte.x08; Byte.x01; Byte.x61]
  /\ Component.to_str [Byte.x08; Byte.x01; Byte.x61; Byte.x62] = Raise ValueError
  /\ Component.get_value [Byte.x08; Byte.x01; Byte.x61; Byte.x62]
     = Ok [Byte.x61; Byte.x62].
Proof.
  assert (H : Component.from_bytes [Byte.x61] 8 = Ok [Byte.x08; Byte.x01; Byte.x61])
    by by_vm.
  split; [exact H|].
  apply (to_str_checks_length [Byte.x61] [Byte.x61; Byte.x62] 8 _ H).
  cbn. lia.
Defined.

Lemma from_number_read_back_witness :
  Component.from_segment (fun v => Ok (TlvVar.pack_be 2 v)) 513
  = Ok [Byte.x21; Byte.x02; Byte.x02; Byte.x01]
  /\ Component.get_type [Byte.x21; Byte.x02; Byte.x02; Byte.x01] = Ok 33
  /\ Component.to_number [Byte.x21; Byte.x02; Byte.x02; Byte.x01] = Ok 513.
Proof.
  assert (H : Component.from_segment (fun v => Ok (TlvVar.pack_be 2 v)) 513
              = Ok [Byte.x21; Byte.x02; Byte.x02; Byte.x01]) by by_vm.
  split; [exact H|].
  destruct (from_number_read_back (fun v => Ok (TlvVar.pack_be 2 v)) 513
              [Byte.x02; Byte.x01] eq_refl eq_refl) as (_ & Hseg & _).
  exact (Hseg _ H).
Defined.

Lemma from_str_escape_str_witness :
  Component.from_str
    (Component.escape_str (lit "B" ++ [Ascii.ascii_of_nat 246] ++ lit "l t"))
  = Ok [Byte.x08; Byte.x06; Byte.x42; Byte.xc3; Byte.xb6; Byte.x6c; Byte.x20;
        Byte.x74]
  /\ Component.to_str
       [Byte.x08; Byte.x06; Byte.x42; Byte.xc3; Byte.xb6; Byte.x6c; Byte.x20;
        Byte.x74]
     = Ok (Component.escape_str (lit "B" ++ [Ascii.ascii_of_nat 246] ++ lit "l t")).
Proof.
  apply (from_str_escape_str (lit "B" ++ [Ascii.ascii_of_nat 246] ++ lit "l t"));
    by_vm.
Defined.

Lemma from_str_normal_witness :
  Component.from_str (lit "%-0") = Ok [Byte.x08; Byte.x01; Byte.x00]
  /\ exists typ value,
      Component.from_bytes value typ = Ok [Byte.x08; Byte.x01; Byte.x00]
      /\ Component.to_str [Byte.x08; Byte.x01; Byte.x00]
         = Ok (Uri.segment typ value)
      /\ Component.from_str (Uri.segment typ value)
         = Ok [Byte.x08; Byte.x01; Byte.x00].
Proof.
  assert (H : Component.from_str (lit "%-0") = Ok [Byte.x08; Byte.x01; Byte.x00])
    by by_vm.
  split; [exact H|]. exact (from_str_normal (lit "%-0") _ H).
Defined.

Lemma to_str_canonical_witness :
  Component.to_str [Byte.x08; Byte.xfd; Byte.x00; Byte.x01; Byte.x61]
  = Ok (lit "a")
  /\ exists typ value c',
      Component.get_type [Byte.x08; Byte.xfd; Byte.x00; Byte.x01; Byte.x61]
      = Ok typ
      /\ Component.get_value [Byte.x08; Byte.xfd; Byte.x00; Byte.x01; Byte.x61]
         = Ok value
      /\ lit "a" = Uri.segment typ value
      /\ Component.from_bytes value typ = Ok c'
      /\ Component.from_str (lit "a") = Ok c'.
Proof.
  assert (H : Component.to_str [Byte.x08; Byte.xfd; Byte.x00; Byte.x01; Byte.x61]
              = Ok (lit "a")) by by_vm.
  split; [exact H|]. exact (to_str_canonical _ _ H).
Defined.

Lemma reachable_st_two : reachable st_two.
Proof.
  exists true.
  apply (rtc_l _ _ st_one);
    [apply (step_express_interest (E := env) (init true) name_a None None kw0)|].
  apply (rtc_l _ _ st_two);
    [apply (step_express_interest (E := env) st_one name_a None None kw0)|].
  apply rtc_refl.
Qed.

Lemma reachable_wf_witness : reachable st_two /\ wf st_two.
Proof.
  split; [exact reachable_st_two|].
  exact (reachable_wf (E := env) st_two reachable_st_two).
Defined.

Lemma on_data_unsolicited_witness :
  _on_data [comp_b] tt None None st_one = (Ok tt, st_one).
Proof.
  apply (on_data_unsolicited (E := env)).
  intros p Hp. apply prefixes_of_spec in Hp as [Hp Hl].
  destruct p as [|c [|c' p]]; cbn in Hl; [by_vm| |lia].
  cbn in Hp. injection Hp as ->. by_vm.
Defined.

Lemma on_nack_rejects_waiters_witness :
  _int_tree st_one !! name_a = Some 0%nat
  /\ exists st',
      _on_nack name_a 50 st_one = (Ok tt, st')
      /\ _int_tree st' = delete name_a (_int_tree st_one).
Proof.
  assert (H : _int_tree st_one !! name_a = Some 0%nat) by by_vm.
  split; [exact H|].
  destruct (on_nack_rejects_waiters (E := env) st_one name_a 50 0 wf_st_one H)
    as (st' & H1 & H2 & _).
  - intros x Hx.
    exact (waiting_st_one name_a name_a 0%nat x (name_in_prefixes_of name_a) H Hx).
  - exists st'. split; [exact H1|exact H2].
Defined.

Lemma register_not_running_keeps_handler_witness :
  exists st1,
    register_begin name_a 7%nat None (init false) = (Raise NetworkError, st1)
    /\ _prefix_tree st1 !! name_a
       = Some {| callback := Some 7%nat; pvalidator := None |}
    /\ register_begin name_a 8%nat None (set_face_running true st1)
       = (Raise ValueError, set_face_running true st1).
Proof.
  destruct (register_not_running_keeps_handler (E := env) (init false) name_a
              7%nat None eq_refl) as (st1 & H1 & H2 & H3).
  - by_vm.
  - exists st1. split; [exact H1|]. split; [exact H2|].
    exact (H3 8%nat None true).
Defined.

Lemma register_then_interest_witness :
  exists w st1 interest,
    register_begin name_a 7%nat None (init true) = (Ok w, st1)
    /\ face_sent st1 = [interest]
    /\ _on_interest name_ab param0 None None st1
       = (Ok tt, emit (EvCallback 7%nat name_ab param0 None) st1).
Proof.
  destruct (register_then_interest (E := env) (init true) name_a 7%nat None
              name_ab param0 None eq_refl)
    as (w & st1 & interest & H1 & _ & H2 & H3).
  - by_vm.
  - apply prefixes_of_spec. split; [reflexivity|cbn; lia].
  - intros q _ _. apply lookup_empty.
  - reflexivity.
  - exists w, st1, interest. split; [exact H1|]. split; [exact H2|exact H3].
Defined.

Lemma unregister_frees_prefix_witness :
  _prefix_tree st_reg !! name_a
  = Some {| callback := Some 7%nat; pvalidator := None |}
  /\ exists st',
      unregister name_a st_reg = (Ok tt, st')
      /\ _prefix_tree st' = delete name_a (_prefix_tree st_reg)
      /\ unregister name_a st' = (Raise KeyError, st').
Proof.
  assert (H : _prefix_tree st_reg !! name_a
              = Some {| callback := Some 7%nat; pvalidator := None |}) by by_vm.
  split; [exact H|].
  destruct (unregister_frees_prefix (E := env) st_reg name_a _ H)
    as (st' & H1 & H2 & H3 & _).
  exists st'. split; [exact H1|]. split; [exact H2|exact H3].
Defined.

Lemma receive_undecodable_witness :
  _receive 6 [] (init true)
  = (Ok tt, emit (EvWarning UnableToDecode) (init true)).
Proof.
  destruct (receive_undecodable (E := env) (init true) [] DecodeError)
    as (_ & H & _).
  - discriminate.
  - discriminate.
  - discriminate.
  - apply H. reflexivity.
Defined.

Lemma reachable_st_reg : reachable st_reg.
Proof.
  exists true.
  apply (rtc_l _ _ st_reg);
    [apply (step_register (E := env) (init true) name_a 7%nat None)|].
  apply rtc_refl.
Qed.

Lemma on_interest_returns_witness :
  reachable st_reg
  /\ handlers_set st_reg
  /\ exists evs,
      _on_interest name_a param0 None None st_reg = (Ok tt, emits evs st_reg).
Proof.
  split; [exact reachable_st_reg|].
  exact (on_interest_returns (E := env) st_reg name_a param0 None None
           reachable_st_reg).
Defined.

Lemma express_then_timeout_witness :
  exists st2,
    _wait_for_data (waiter 0) 100 st_one = Some (Raise InterestTimeout, st2)
    /\ _int_tree st2 = _int_tree (init true)
    /\ face_sent st2 = face_sent st_one.
Proof.
  destruct (express_then_timeout (E := env) (init true) st_one name_a None None
              kw0 (waiter 0) 100) as [_ H].
  - reflexivity.
  - by_vm.
  - by_vm.
  - apply H. cbn. lia.
Defined.

Lemma express_then_data_witness :
  exists st2,
    _on_data name_a tt None None st_one = (Ok tt, st2)
    /\ _wait_for_data (waiter 0) 0 st2 = Some (Ok (name_a, tt, None), st2)
    /\ _int_tree st2 !! name_a = None.
Proof.
  apply (express_then_data (E := env) (init true) st_one name_a None None kw0
           (waiter 0) tt None None 0).
  - apply wf_init.
  - apply waiting_init.
  - by_vm.
  - by_vm.
Defined.
